(** * Palettator: palette rendering layout, index resolution and exporters

    A shallow embedding of [src/main.py] and [src/modules/export.py].

    Data model used throughout:
    - a Python [str] is a [string]; the model covers strings whose code
      points are below 256 (one [ascii] per character);
    - a Python [int] is a [Z];
    - an RGB tuple is a triple of [Z]; a valid colour has its three
      components in [0, 255];
    - a call that may raise returns a [result]. *)

From Stdlib Require Import ZArith List String Ascii Bool Lia QArith Qround.
From Stdlib Require Decimal DecimalString DecimalZ.
From Stdlib Require Hexadecimal HexadecimalString HexadecimalN.
Import ListNotations.

Local Open Scope list_scope.
Local Open Scope string_scope.
Local Open Scope Z_scope.

(** ** Exceptions *)

(** The exception classes the program can meet.  [except Exception]
    catches every constructor but [KeyboardInterrupt]. *)
Inductive exn : Type :=
| ValueError (msg : string)
| ZeroDivisionError
| OverflowError
| MemoryError
| IndexError
| OSError (msg : string)
| OtherException (msg : string)
| KeyboardInterrupt.

Definition is_Exception (e : exn) : bool :=
  match e with
  | KeyboardInterrupt => false
  | _ => true
  end.

Inductive result (A : Type) : Type :=
| Ok (a : A)
| Raise (e : exn).
Arguments Ok {A} a.
Arguments Raise {A} e.

Definition bind {A B : Type} (m : result A) (k : A -> result B) : result B :=
  match m with
  | Ok a => k a
  | Raise e => Raise e
  end.

Notation "'do' x <- m ; k" := (bind m (fun x => k))
  (at level 10, x pattern, m at level 100, k at level 200).

(** ** Python string primitives *)

Module PyStr.

(** Characters are compared through their code point. *)
Definition code (c : ascii) : N := N_of_ascii c.

Definition in_range (lo hi : N) (c : ascii) : bool :=
  (lo <=? code c)%N && (code c <=? hi)%N.

Definition is_digit (c : ascii) : bool := in_range 48 57 c.

Definition is_lower (c : ascii) : bool := in_range 97 122 c.

(** [str.isspace] on code points below 256: TAB..CR, FS..US, space, NEL
    and the no-break space. *)
Definition is_space (c : ascii) : bool :=
  in_range 9 13 c || in_range 28 32 c || (code c =? 133)%N || (code c =? 160)%N.

Fixpoint rev_string_acc (s acc : string) : string :=
  match s with
  | EmptyString => acc
  | String c s' => rev_string_acc s' (String c acc)
  end.

Definition rev_string (s : string) : string := rev_string_acc s "".

(** [s.lstrip()], [s.rstrip()] and [s.strip()]. *)
Fixpoint lstrip (s : string) : string :=
  match s with
  | EmptyString => ""
  | String c s' => if is_space c then lstrip s' else s
  end.

Definition rstrip (s : string) : string := rev_string (lstrip (rev_string s)).

Definition strip (s : string) : string := rstrip (lstrip s).

(** [s.split(sep)] for a one-character separator: the fields between
    consecutive separators, empty fields included; never an empty list. *)
Fixpoint split_acc (sep : ascii) (s : string) (field : string) : list string :=
  match s with
  | EmptyString => [rev_string field]
  | String c s' =>
      if Ascii.eqb c sep then rev_string field :: split_acc sep s' ""
      else split_acc sep s' (String c field)
  end.

Definition split (sep : ascii) (s : string) : list string := split_acc sep s "".

(** [s.startswith(p)]. *)
Fixpoint startswith (p s : string) : bool :=
  match p, s with
  | EmptyString, _ => true
  | String _ _, EmptyString => false
  | String a p', String b s' => Ascii.eqb a b && startswith p' s'
  end.

(** [s.upper()] on the ASCII letters; the only strings the program
    upper-cases are made of ASCII characters. *)
Definition upper_char (c : ascii) : ascii :=
  if is_lower c then ascii_of_N (code c - 32) else c.

Fixpoint upper (s : string) : string :=
  match s with
  | EmptyString => ""
  | String c s' => String (upper_char c) (upper s')
  end.

(** [str(n)], also what ["%d"], an f-string field and the csv writer
    print for an [int]. *)
Definition str_int (n : Z) : string :=
  DecimalString.NilZero.string_of_int (Z.to_int n).

(** Lower-case hexadecimal digits of a natural number, ["0"] for zero. *)
Definition hex_of_N (n : N) : string :=
  HexadecimalString.NilZero.string_of_uint (N.to_hex_uint n).

Fixpoint zeros (k : nat) : string :=
  match k with
  | O => ""
  | S k' => String "0" (zeros k')
  end.

(** ["%0wx" % n]: sign first, then the digits padded with zeros so that
    the whole field has at least [w] characters. *)
Definition format_0x (w : nat) (n : Z) : string :=
  if n <? 0 then
    let d := hex_of_N (Z.abs_N n) in
    String "-" (zeros (w - 1 - String.length d) ++ d)
  else
    let d := hex_of_N (Z.to_N n) in
    zeros (w - String.length d) ++ d.

(** [int(s)] in base ten: surrounding white space is dropped, one sign is
    allowed, digits may be grouped with single underscores.  The white
    space [int] drops is TAB..CR and space, NEL and the no-break space.
    The interpreter's guard on the length of integer strings
    ([sys.set_int_max_str_digits], 4300 digits unless configured
    otherwise) is not part of the model: texts of more digits than the
    guard allows are outside its domain. *)
Definition is_int_space (c : ascii) : bool :=
  in_range 9 13 c || (code c =? 32)%N || (code c =? 133)%N || (code c =? 160)%N.

Fixpoint lstrip_int (s : string) : string :=
  match s with
  | EmptyString => ""
  | String c s' => if is_int_space c then lstrip_int s' else s
  end.

Definition strip_int (s : string) : string :=
  rev_string (lstrip_int (rev_string (lstrip_int s))).

(** Digits with single underscores between them; [after_digit] tells
    whether the previous character was a digit.  Returns the digits. *)
Fixpoint ungroup (s : string) (after_digit : bool) : option string :=
  match s with
  | EmptyString => if after_digit then Some "" else None
  | String c s' =>
      if is_digit c then
        match ungroup s' true with
        | Some d => Some (String c d)
        | None => None
        end
      else if Ascii.eqb c "_" then
        if after_digit then ungroup s' false else None
      else None
  end.

Definition digits_value (s : string) : option Z :=
  match ungroup s false with
  | Some d =>
      match DecimalString.NilEmpty.uint_of_string d with
      | Some u => Some (Z.of_uint u)
      | None => None
      end
  | None => None
  end.

Definition int_of_str (s : string) : option Z :=
  match strip_int s with
  | EmptyString => None
  | String c s' =>
      if Ascii.eqb c "-" then option_map Z.opp (digits_value s')
      else if Ascii.eqb c "+" then digits_value s'
      else digits_value (String c s')
  end.

End PyStr.

Import PyStr.

(** ** Python lists *)

(** Python list indexing [l[i]]: a negative index counts from the end,
    an index outside the list raises [IndexError]. *)
Definition py_getitem {A : Type} (l : list A) (i : Z) : result A :=
  let n := Z.of_nat (List.length l) in
  let j := if i <? 0 then n + i else i in
  if (j <? 0) || (n <=? j) then Raise IndexError
  else
    match nth_error l (Z.to_nat j) with
    | Some a => Ok a
    | None => Raise IndexError
    end.

(** [enumerate(l, start)]. *)
Fixpoint enumerate_from {A : Type} (start : Z) (l : list A) : list (Z * A) :=
  match l with
  | [] => []
  | a :: l' => (start, a) :: enumerate_from (start + 1) l'
  end.

Definition enumerate {A : Type} (l : list A) : list (Z * A) := enumerate_from 0 l.

(** ** Notions on strings used by the statements *)

(** What precedes the first occurrence of [sep] in [s]; the whole of [s]
    when [sep] does not occur. *)
Fixpoint before_first (sep : ascii) (s : string) : string :=
  match s with
  | EmptyString => ""
  | String c s' => if Ascii.eqb c sep then "" else String c (before_first sep s')
  end.

(** [c] occurs in [s]. *)
Fixpoint occurs (c : ascii) (s : string) : bool :=
  match s with
  | EmptyString => false
  | String c' s' => Ascii.eqb c' c || occurs c s'
  end.

(** The text made of the lines [ls], each followed by the terminator
    [t]. *)
Fixpoint terminated (t : string) (ls : list string) : string :=
  match ls with
  | [] => ""
  | l :: ls' => l ++ t ++ terminated t ls'
  end.

(** Every character of [s] satisfies [P]. *)
Fixpoint forall_chars (P : ascii -> bool) (s : string) : bool :=
  match s with
  | EmptyString => true
  | String c s' => P c && forall_chars P s'
  end.

(** The number of occurrences of [c] in [s]. *)
Fixpoint count_char (c : ascii) (s : string) : nat :=
  match s with
  | EmptyString => O
  | String c' s' => ((if Ascii.eqb c' c then 1 else 0) + count_char c s')%nat
  end.

(** ** POSIX paths ([os.path] on a POSIX system) *)

Module PosixPath.

(** [os.path.basename(p)]: what follows the last ['/'], the whole of [p]
    when there is none. *)
Fixpoint basename_acc (p : string) (tail : string) : string :=
  match p with
  | EmptyString => rev_string tail
  | String c p' =>
      if Ascii.eqb c "/" then basename_acc p' "" else basename_acc p' (String c tail)
  end.

Definition basename (p : string) : string := basename_acc p "".

Fixpoint last_char (s : string) : option ascii :=
  match s with
  | EmptyString => None
  | String c EmptyString => Some c
  | String _ s' => last_char s'
  end.

(** [os.path.join(a, b)]. *)
Definition join (a b : string) : string :=
  if startswith "/" b then b
  else
    match last_char a with
    | None => b
    | Some c => if Ascii.eqb c "/" then a ++ b else a ++ "/" ++ b
    end.

End PosixPath.

(** ** [src/main.py] *)

(** An RGB tuple. *)
Definition rgb_t : Type := (Z * Z * Z)%type.

Definition valid_channel (v : Z) : Prop := 0 <= v <= 255.

Definition valid_rgb (c : rgb_t) : Prop :=
  let '(r, g, b) := c in valid_channel r /\ valid_channel g /\ valid_channel b.

(** A colour of the extraction library: its RGB tuple, its frequency
    and its luminance.  The two floating-point attributes are carried as
    rationals; the program only prints the first and compares the second
    with 200. *)
Record Color : Type := mkColor {
  rgb : rgb_t;
  freq : Q;
  luminance : Q
}.

(** The palette of the extraction library; iterating over it yields its
    colours in order. *)
Record Palette : Type := mkPalette {
  colors : list Color
}.

Record PaletteObject : Type := mkPaletteObject {
  palette : Palette;
  image_path : string;
  palette_path : string
}.

Record PaletteList : Type := mkPaletteList {
  palettes : list PaletteObject
}.

(** The ["palette"] section of [config]. *)
Record Config : Type := mkConfig {
  palette_size : Z;
  square_x : Z;
  square_y : Z;
  columns : Z;
  title_size : Z;
  subtitle_size : Z;
  save_path : string
}.

(** The defaults of the configuration, for an output directory. *)
Definition default_config (out : string) : Config :=
  {| palette_size := 9; square_x := 100; square_y := 100; columns := 3;
     title_size := 18; subtitle_size := 14; save_path := out |}.

Definition get_image_info (image_path : string) : string :=
  PosixPath.basename image_path.

Definition palette_to_rgb (palette : Palette) : list rgb_t :=
  map rgb (colors palette).

Definition convert_rgb_to_hex (rgb : rgb_t) : string :=
  let '(r, g, b) := rgb in
  upper ("#" ++ format_0x 2 r ++ format_0x 2 g ++ format_0x 2 b).

(** [math.ceil(n / c)] for integers [n] and [c], [c] not zero.  The
    quotient is a float: its ceiling is the exact one as long as [n] and
    [c] are below [2 ^ 53] in absolute value, which is the domain of the
    model. *)
Definition ceil_div (n c : Z) : Z := - ((- n) / c).

(** What is drawn on the canvas, in drawing order. *)
Inductive draw_op : Type :=
| Rectangle (x0 y0 x1 y1 : Z) (fill : rgb_t) (outline : string) (width : Z)
| Text (x y : Z) (text : string) (fill : rgb_t) (subtitle : bool).

Record Image : Type := mkImage {
  im_width : Z;
  im_height : Z;
  im_background : string;
  im_ops : list draw_op
}.

(** The hexadecimal digits, in either case. *)
Definition is_hex_digit (c : ascii) : bool :=
  is_digit c || in_range 97 102 c || in_range 65 70 c.

(** [ImageColor.getrgb] on a string that starts with [#], as the
    outline of a swatch does: the string is put in lower case and must
    then be [#] followed by 3, 4, 6 or 8 of the characters [0-9a-f]. *)
Definition is_color_specifier (s : string) : bool :=
  match s with
  | String c digits =>
      Ascii.eqb c "#" && forall_chars is_hex_digit digits &&
      existsb (Nat.eqb (String.length digits)) [3; 4; 6; 8]%nat
  | EmptyString => false
  end.

(** What [ImageDraw] raises for a drawing call.  [rectangle] first
    reads its outline, a colour string (the message of the error, which
    quotes the string, is cut short here), and then refuses corners that
    are not in order (Pillow 9.5 and later).  The fill of a swatch whose
    outline was accepted has channels below 65536, which are clipped to a
    byte; the fills of the texts are black or white. *)
Definition refused (op : draw_op) : option exn :=
  match op with
  | Rectangle x0 y0 x1 y1 _ outline _ =>
      if negb (is_color_specifier outline) then Some (ValueError "unknown color specifier")
      else if x1 <? x0 then Some (ValueError "x1 must be greater than or equal to x0")
      else if y1 <? y0 then Some (ValueError "y1 must be greater than or equal to y0")
      else None
  | Text _ _ _ _ _ => None
  end.

(** The drawing calls in order, up to the first that raises. *)
Fixpoint draw (ops : list draw_op) : result (list draw_op) :=
  match ops with
  | [] => Ok []
  | op :: rest =>
      match refused op with
      | Some e => Raise e
      | None => do drawn <- draw rest; Ok (op :: drawn)
      end
  end.

Section Rendering.

(** The configuration, the text metrics of the two fonts that were
    loaded (the configured ones or the default one), and the two-decimal
    formatting of a float. *)
Variable config : Config.
Variable title_getlength : string -> Q.
Variable subtitle_getlength : string -> Q.
Variable format_2f : Q -> string.

(** The three drawing calls of the loop body, for the swatch of index
    [i]. *)
Definition draw_swatch (i : Z) (color : Color) (rgb : rgb_t) : list draw_op :=
  let square_x := square_x config in
  let square_y := square_y config in
  let columns := columns config in
  let title_size := title_size config in
  let subtitle_size := subtitle_size config in
  let col := i mod columns in
  let ligne := i / columns in
  let x := col * square_x in
  let y := ligne * square_y in
  let color_hex := convert_rgb_to_hex rgb in
  let title_length := title_getlength color_hex in
  let text_x := x + square_x / 2 - Qfloor (title_length / 2) in
  let text_y :=
    if square_x <? square_y then y + square_x / 2 - title_size / 2
    else y + square_y / 2 - title_size / 2 in
  let subtitle_text := format_2f (freq color * 100) ++ "%" in
  let subtitle_length := subtitle_getlength subtitle_text in
  let subtitle_x := x + square_x / 2 - Qfloor (subtitle_length / 2) in
  let subtitle_y := text_y + title_size + subtitle_size / 2 in
  let color_text := if Qlt_le_dec 200 (luminance color) then (0, 0, 0) else (255, 255, 255) in
  [ Rectangle x y (x + square_x) (y + square_y) rgb color_hex 5;
    Text text_x text_y color_hex color_text false;
    Text subtitle_x subtitle_y subtitle_text color_text true ].

(** The memory at hand: whether Pillow can allocate a canvas of the
    given width and height. *)
Variable enough_memory : Z -> Z -> bool.

(** [Image.new(mode, size, color)]: a negative size is refused; a side
    of [2 ^ 31] or more does not fit the C integer of the library; the
    canvas must then be allocated. *)
Definition Image_new (w h : Z) (color : string) : result Image :=
  if (w <? 0) || (h <? 0) then Raise (ValueError "Width and height must be >= 0")
  else if (2 ^ 31 <=? w) || (2 ^ 31 <=? h) then Raise OverflowError
  else if negb (enough_memory w h) then Raise MemoryError
  else Ok (mkImage w h color []).

Definition create_palette_image (palette : Palette) (palette_rgb : list rgb_t)
    (image_path : string) : result Image :=
  let square_x := square_x config in
  let square_y := square_y config in
  let columns := columns config in
  if columns =? 0 then Raise ZeroDivisionError
  else
    let lines := ceil_div (Z.of_nat (List.length (colors palette))) columns in
    let image_width := columns * square_x in
    let image_height := lines * square_y in
    do image <- Image_new image_width image_height "white";
    do ops <- draw (List.concat
                      (map (fun '(i, (color, rgb)) => draw_swatch i color rgb)
                           (enumerate (combine (colors palette) palette_rgb))));
    Ok (mkImage (im_width image) (im_height image) (im_background image) ops).

(** The base name of the files written for an image: the part of its
    file name before the first dot. *)
Definition palette_base_name (image_path : string) : string :=
  let image_name := get_image_info image_path in
  hd "" (split "." image_name).

(** The file system, as far as [save_palette] uses it: creating the
    output directory and writing the PNG file, which may fail. *)
Variable image_save : string -> Image -> result unit.

Definition save_palette (palette : Palette) (palette_rgb : list rgb_t)
    (image_path : string) : result string :=
  let image_name := palette_base_name image_path in
  do image <- create_palette_image palette palette_rgb image_path;
  let file_path := PosixPath.join (save_path config) (image_name ++ "_palette.png") in
  do _ <- image_save file_path image;
  Ok file_path.

(** The extraction library. *)
Variable extract_colors : string -> result Palette.

Definition get_palette (image_path : string) : result (Palette * list rgb_t) :=
  do palette <- extract_colors image_path;
  Ok (palette, palette_to_rgb palette).

(** What the extraction loop of [main] prints. *)
Inductive log_entry : Type :=
| GenerationError (image_path : string) (e : exn).

Record batch_state : Type := mkBatch {
  batch_palettes : list PaletteObject;
  batch_log : list log_entry
}.

(** The loop [for image_path in images] of [main], from a state: the
    final state and the exception that left the loop, if any. *)
Fixpoint extract_loop (images : list string) (st : batch_state)
    : batch_state * option exn :=
  match images with
  | [] => (st, None)
  | image_path :: rest =>
      match get_palette image_path with
      | Raise e => (st, Some e)
      | Ok (palette, palette_rgb) =>
          match save_palette palette palette_rgb image_path with
          | Ok palette_path =>
              extract_loop rest
                (mkBatch (batch_palettes st ++ [mkPaletteObject palette image_path palette_path])%list
                         (batch_log st))
          | Raise e =>
              if is_Exception e then
                extract_loop rest
                  (mkBatch (batch_palettes st) (batch_log st ++ [GenerationError image_path e])%list)
              else (st, Some e)
          end
      end
  end.

(** The extraction step of [main]: the collection is emptied, then the
    loop runs. *)
Definition extract (images : list string) : batch_state * option exn :=
  extract_loop images (mkBatch [] []).

End Rendering.

Definition get_indice_from_option (image_path : string) (palettes_list : PaletteList)
    (all : bool) : option Z :=
  let indice_split := split " " (strip image_path) in
  let in_range (indice : Z) : option Z :=
    if (indice <? 1) || (Z.of_nat (List.length (palettes palettes_list)) <? indice)
    then None else Some indice in
  if 1 <? Z.of_nat (List.length indice_split) then
    let token := nth 1 indice_split "" in
    if startswith "-" token || startswith "--" token then in_range 1
    else if all && (String.eqb token "all" || String.eqb token "ALL") then Some (-1)
    else
      match int_of_str token with
      | Some indice => in_range indice
      | None => None
      end
  else in_range 1.

(** ** The [json] module: [json.dump] and [json.load] *)

Module Json.

(** The Python values the program serialises: [int], [str], [list] (or
    [tuple]) and [dict] with [str] keys.  A [dict] is the list of its items
    in insertion order.  The literals [true], [false] and [null] and the
    floats are outside the model: the reader below accepts the texts made
    of integers, strings, arrays and objects. *)
#[warnings="-register-all"]
Inductive value : Type :=
| JInt (n : Z)
| JStr (s : string)
| JList (l : list value)
| JDict (items : list (string * value)).

Definition quote : ascii := "034"%char.
Definition backslash : ascii := "092"%char.
Definition BS : ascii := "008"%char.
Definition TAB : ascii := "009"%char.
Definition LF : ascii := "010"%char.
Definition FF : ascii := "012"%char.
Definition CR : ascii := "013"%char.

(** One character of a string literal, [ensure_ascii] being on: the
    quote, the backslash and the characters outside [' '..'~'] are
    escaped. *)
Definition escape_char (c : ascii) : string :=
  if Ascii.eqb c quote then String backslash (String quote "")
  else if Ascii.eqb c backslash then String backslash (String backslash "")
  else if Ascii.eqb c LF then String backslash "n"
  else if Ascii.eqb c CR then String backslash "r"
  else if Ascii.eqb c TAB then String backslash "t"
  else if Ascii.eqb c BS then String backslash "b"
  else if Ascii.eqb c FF then String backslash "f"
  else if in_range 32 126 c then String c ""
  else String backslash (String "u" (format_0x 4 (Z.of_N (code c)))).

Fixpoint escape (s : string) : string :=
  match s with
  | EmptyString => ""
  | String c s' => escape_char c ++ escape s'
  end.

Definition encode_str (s : string) : string :=
  String quote (escape s ++ String quote "").

(** [json.dumps(v)] with the default separators [", "] and [": "]. *)
Fixpoint dumps (v : value) : string :=
  match v with
  | JInt n => str_int n
  | JStr s => encode_str s
  | JList l => "[" ++ String.concat ", " (map dumps l) ++ "]"
  | JDict items =>
      "{" ++ String.concat ", "
               (map (fun '(k, x) => encode_str k ++ ": " ++ dumps x) items) ++ "}"
  end.

(** *** Reading *)

Definition is_ws (c : ascii) : bool :=
  Ascii.eqb c " " || Ascii.eqb c TAB || Ascii.eqb c LF || Ascii.eqb c CR.

Fixpoint skip_ws (s : string) : string :=
  match s with
  | EmptyString => ""
  | String c s' => if is_ws c then skip_ws s' else s
  end.

Definition hex_digit_value (c : ascii) : option N :=
  if in_range 48 57 c then Some (code c - 48)%N
  else if in_range 97 102 c then Some (code c - 87)%N
  else if in_range 65 70 c then Some (code c - 55)%N
  else None.

Definition hex4_value (a b c d : ascii) : option N :=
  match hex_digit_value a, hex_digit_value b, hex_digit_value c, hex_digit_value d with
  | Some x, Some y, Some z, Some t => Some (((x * 16 + y) * 16 + z) * 16 + t)%N
  | _, _, _, _ => None
  end.

(** The body of a string literal, after its opening quote: the decoded
    string and what follows the closing quote.  A code point above 255 is
    outside the model. *)
Fixpoint scan_string (s : string) : option (string * string) :=
  let cons (c : ascii) (r : option (string * string)) :=
    match r with
    | Some (t, rest) => Some (String c t, rest)
    | None => None
    end in
  match s with
  | EmptyString => None
  | String c s' =>
      if Ascii.eqb c quote then Some ("", s')
      else if Ascii.eqb c backslash then
        match s' with
        | EmptyString => None
        | String e s'' =>
            if Ascii.eqb e quote then cons quote (scan_string s'')
            else if Ascii.eqb e backslash then cons backslash (scan_string s'')
            else if Ascii.eqb e "/" then cons "/"%char (scan_string s'')
            else if Ascii.eqb e "b" then cons BS (scan_string s'')
            else if Ascii.eqb e "f" then cons FF (scan_string s'')
            else if Ascii.eqb e "n" then cons LF (scan_string s'')
            else if Ascii.eqb e "r" then cons CR (scan_string s'')
            else if Ascii.eqb e "t" then cons TAB (scan_string s'')
            else if Ascii.eqb e "u" then
              match s'' with
              | String h1 (String h2 (String h3 (String h4 s5))) =>
                  match hex4_value h1 h2 h3 h4 with
                  | Some n =>
                      if (n <? 256)%N then cons (ascii_of_N n) (scan_string s5)
                      else None
                  | None => None
                  end
              | _ => None
              end
            else None
        end
      else if (code c <? 32)%N then None
      else cons c (scan_string s')
  end.

(** The longest prefix of digits. *)
Fixpoint span_digits (s : string) : string * string :=
  match s with
  | EmptyString => ("", "")
  | String c s' =>
      if is_digit c then let '(d, rest) := span_digits s' in (String c d, rest)
      else ("", s)
  end.

Definition uint_value (d : string) : option Z :=
  match DecimalString.NilEmpty.uint_of_string d with
  | Some u => Some (Z.of_uint u)
  | None => None
  end.

Definition starts_float_part (rest : string) : bool :=
  match rest with
  | EmptyString => false
  | String c _ => Ascii.eqb c "." || Ascii.eqb c "e" || Ascii.eqb c "E"
  end.

(** An unsigned integer literal: ["0"], or a digit from 1 to 9 followed
    by digits.  A literal continued by a fraction or an exponent is a
    float, outside the model. *)
Definition scan_uint (s : string) : option (Z * string) :=
  match s with
  | EmptyString => None
  | String c s' =>
      let '(d, rest) := if Ascii.eqb c "0" then (String c "", s') else span_digits s in
      match d with
      | EmptyString => None
      | _ =>
          if starts_float_part rest then None
          else
            match uint_value d with
            | Some n => Some (n, rest)
            | None => None
            end
      end
  end.

Definition scan_int (s : string) : option (Z * string) :=
  match s with
  | EmptyString => None
  | String c s' =>
      if Ascii.eqb c "-" then
        match scan_uint s' with
        | Some (n, rest) => Some (- n, rest)
        | None => None
        end
      else scan_uint s
  end.

(** [d[k] = x] on a dict. *)
Fixpoint dict_set (items : list (string * value)) (k : string) (x : value)
    : list (string * value) :=
  match items with
  | [] => [(k, x)]
  | (k', x') :: items' =>
      if String.eqb k' k then (k', x) :: items' else (k', x') :: dict_set items' k x
  end.

(** [d.get(k)]. *)
Fixpoint dict_get (items : list (string * value)) (k : string) : option value :=
  match items with
  | [] => None
  | (k', x') :: items' => if String.eqb k' k then Some x' else dict_get items' k
  end.

(** The value that starts [s], and what follows it.  [scan_elements]
    reads the elements of an array after one has been announced,
    [scan_members] the members of an object from the opening quote of a
    key.  [fuel] bounds the number of calls. *)
Fixpoint scan_value (fuel : nat) (s : string) : option (value * string) :=
  match fuel with
  | O => None
  | S fuel' =>
      match s with
      | EmptyString => None
      | String c s' =>
          if Ascii.eqb c quote then
            match scan_string s' with
            | Some (t, rest) => Some (JStr t, rest)
            | None => None
            end
          else if Ascii.eqb c "[" then
            match skip_ws s' with
            | EmptyString => None
            | String c' rest =>
                if Ascii.eqb c' "]" then Some (JList [], rest)
                else
                  match scan_elements fuel' (String c' rest) [] with
                  | Some (l, rest') => Some (JList l, rest')
                  | None => None
                  end
            end
          else if Ascii.eqb c "{" then
            match skip_ws s' with
            | EmptyString => None
            | String c' rest =>
                if Ascii.eqb c' "}" then Some (JDict [], rest)
                else
                  match scan_members fuel' (String c' rest) [] with
                  | Some (items, rest') => Some (JDict items, rest')
                  | None => None
                  end
            end
          else
            match scan_int s with
            | Some (n, rest) => Some (JInt n, rest)
            | None => None
            end
      end
  end

with scan_elements (fuel : nat) (s : string) (acc : list value)
    : option (list value * string) :=
  match fuel with
  | O => None
  | S fuel' =>
      match scan_value fuel' s with
      | Some (x, rest) =>
          match skip_ws rest with
          | EmptyString => None
          | String c rest' =>
              if Ascii.eqb c "]" then Some ((acc ++ [x])%list, rest')
              else if Ascii.eqb c "," then
                scan_elements fuel' (skip_ws rest') (acc ++ [x])%list
              else None
          end
      | None => None
      end
  end

with scan_members (fuel : nat) (s : string) (acc : list (string * value))
    : option (list (string * value) * string) :=
  match fuel with
  | O => None
  | S fuel' =>
      match s with
      | EmptyString => None
      | String c s' =>
          if Ascii.eqb c quote then
            match scan_string s' with
            | Some (k, rest) =>
                match skip_ws rest with
                | EmptyString => None
                | String c' rest' =>
                    if Ascii.eqb c' ":" then
                      match scan_value fuel' (skip_ws rest') with
                      | Some (x, rest'') =>
                          match skip_ws rest'' with
                          | EmptyString => None
                          | String c'' rest3 =>
                              if Ascii.eqb c'' "}" then Some (dict_set acc k x, rest3)
                              else if Ascii.eqb c'' "," then
                                scan_members fuel' (skip_ws rest3) (dict_set acc k x)
                              else None
                          end
                      | None => None
                      end
                    else None
                end
            | None => None
            end
          else None
      end
  end.

(** [json.loads(s)]: one value, white space allowed around it.  The
    fuel is more than the scanner can use on a text of this length. *)
Definition loads (s : string) : option value :=
  match scan_value (2 * String.length s + 2) (skip_ws s) with
  | Some (v, rest) =>
      match skip_ws rest with
      | EmptyString => Some v
      | _ => None
      end
  | None => None
  end.

(** *** Notions used to state that a value is read back *)

(** What may follow a value: not a digit, not the start of a fraction
    or of an exponent. *)
Definition follows (rest : string) : bool :=
  match rest with
  | EmptyString => true
  | String c _ => negb (is_digit c) && negb (starts_float_part rest)
  end.

(** The first character of a serialised value: not white space, and
    none of the closing brackets. *)
Definition opens_value (c : ascii) : bool :=
  negb (is_ws c) && negb (Ascii.eqb c "]") && negb (Ascii.eqb c "}").

(** A value is read back by the scanner: given enough fuel, the scanner
    reads the value from its serialisation and stops at what follows. *)
Definition reads_back (v : value) : Prop :=
  forall fuel rest,
    (2 * String.length (dumps v) <= fuel)%nat -> follows rest = true ->
    scan_value fuel (dumps v ++ rest) = Some (v, rest).

(** The serialisation of a member of a dictionary. *)
Definition dumps_item (item : string * value) : string :=
  let '(k, x) := item in encode_str k ++ ": " ++ dumps x.

(** The keys of every dictionary inside a value are distinct, as they
    are in a Python [dict]. *)
Fixpoint distinct_keys (v : value) : Prop :=
  match v with
  | JInt _ | JStr _ => True
  | JList l =>
      (fix all (l : list value) : Prop :=
         match l with
         | [] => True
         | x :: l' => distinct_keys x /\ all l'
         end) l
  | JDict items =>
      NoDup (map fst items) /\
      (fix all (l : list (string * value)) : Prop :=
         match l with
         | [] => True
         | (_, x) :: l' => distinct_keys x /\ all l'
         end) items
  end.

End Json.

(** ** The [csv] module: the writer and the reader of the excel dialect *)

Module Csv.

Definition delimiter : ascii := ",".
Definition quotechar : ascii := "034"%char.
Definition CR : ascii := "013"%char.
Definition LF : ascii := "010"%char.
Definition lineterminator : string := String CR (String LF "").

(** The characters that make [QUOTE_MINIMAL] quote a field: the
    delimiter, the quote character and the characters of the line
    terminator. *)
Definition special (c : ascii) : bool :=
  Ascii.eqb c delimiter || Ascii.eqb c quotechar || Ascii.eqb c CR || Ascii.eqb c LF.

Fixpoint has_special (s : string) : bool :=
  match s with
  | EmptyString => false
  | String c s' => special c || has_special s'
  end.

(** Inside quotes the quote character is doubled. *)
Fixpoint double_quotes (s : string) : string :=
  match s with
  | EmptyString => ""
  | String c s' =>
      if Ascii.eqb c quotechar then String c (String c (double_quotes s'))
      else String c (double_quotes s')
  end.

Definition write_field (s : string) : string :=
  if has_special s then String quotechar (double_quotes s ++ String quotechar "")
  else s.

(** [writer.writerow(fields)]: the text appended to the file.  A row
    made of one empty field is written as an empty quoted field. *)
Definition writerow (fields : list string) : string :=
  match fields with
  | [EmptyString] => String quotechar (String quotechar lineterminator)
  | _ => String.concat (String delimiter "") (map write_field fields) ++ lineterminator
  end.

(** *** Reading *)

Inductive state : Type :=
| START_RECORD
| START_FIELD
| IN_FIELD
| IN_QUOTED_FIELD
| QUOTE_IN_QUOTED_FIELD.

(** The reader over the whole text of a file opened with [newline=''].
    [field] is the current field, reversed; [fields] the fields of the
    current record, reversed.  A record ends at LF, at CR or at CR LF
    outside quotes; the end of the text closes a record that was begun. *)
Fixpoint read (s : string) (st : state) (field : string) (fields : list string)
    : list (list string) :=
  let save := (rev_string field :: fields)%list in
  match s with
  | EmptyString =>
      match st with
      | START_RECORD => []
      | _ => [rev save]
      end
  | String c s' =>
      let after_newline :=
        if Ascii.eqb c CR then
          match s' with
          | String c' s'' => if Ascii.eqb c' LF then s'' else s'
          | EmptyString => s'
          end
        else s' in
      let newline := Ascii.eqb c CR || Ascii.eqb c LF in
      match st with
      | START_RECORD =>
          if newline then [] :: read after_newline START_RECORD "" []
          else if Ascii.eqb c quotechar then read s' IN_QUOTED_FIELD "" fields
          else if Ascii.eqb c delimiter then read s' START_FIELD "" save
          else read s' IN_FIELD (String c field) fields
      | START_FIELD =>
          if newline then rev save :: read after_newline START_RECORD "" []
          else if Ascii.eqb c quotechar then read s' IN_QUOTED_FIELD "" fields
          else if Ascii.eqb c delimiter then read s' START_FIELD "" save
          else read s' IN_FIELD (String c field) fields
      | IN_FIELD =>
          if newline then rev save :: read after_newline START_RECORD "" []
          else if Ascii.eqb c delimiter then read s' START_FIELD "" save
          else read s' IN_FIELD (String c field) fields
      | IN_QUOTED_FIELD =>
          if Ascii.eqb c quotechar then read s' QUOTE_IN_QUOTED_FIELD field fields
          else read s' IN_QUOTED_FIELD (String c field) fields
      | QUOTE_IN_QUOTED_FIELD =>
          if Ascii.eqb c quotechar then read s' IN_QUOTED_FIELD (String c field) fields
          else if Ascii.eqb c delimiter then read s' START_FIELD "" save
          else if newline then rev save :: read after_newline START_RECORD "" []
          else read s' IN_FIELD (String c field) fields
      end
  end.

(** The three states in which a field has just been read. *)
Definition field_read (st : state) (f field : string) : Prop :=
  rev_string field = f /\
  (st = IN_FIELD \/ st = QUOTE_IN_QUOTED_FIELD \/ (st = START_FIELD /\ f = "")).

End Csv.

(** ** [src/modules/export.py] *)

(** What a file holds: text for a file opened in mode ['w'], bytes for
    mode ['wb']. *)
Inductive file_content : Type :=
| TextFile (text : string)
| BinaryFile (bytes : list Z).

(** What an [export] call wrote, and the exception that ended the call
    early, if any.  The file is taken to be writable. *)
Record written : Type := mkWritten {
  content : file_content;
  raised : option exn
}.

(** The abstract class [Exporter]: one method, [export]. *)
Record Exporter : Type := mkExporter {
  Exporter_export : string -> string -> list rgb_t -> list string -> written
}.

Module ExportToJSon.

Import Json.

(** The dictionary [output]. *)
Definition output (palette_name : string) (palette_rgb : list rgb_t)
    (palette_hex : list string) : value :=
  let rgb := map (fun '(r, g, b) => JList [JInt r; JInt g; JInt b]) palette_rgb in
  JDict [ ("name", JStr palette_name);
          ("rgb", JList rgb);
          ("hex", JList (map JStr palette_hex)) ].

Definition export (palette_name filepath : string) (palette_rgb : list rgb_t)
    (palette_hex : list string) : written :=
  mkWritten (TextFile (dumps (output palette_name palette_rgb palette_hex))) None.

End ExportToJSon.

Module ExportToCSV.

Definition header : list string := ["R"; "G"; "B"; "HEX"].

(** The row the [DictWriter] writes for the dictionary of one colour:
    its values in the order of [header]. *)
Definition row (rgb : rgb_t) (hex : string) : list string :=
  let '(r, g, b) := rgb in [str_int r; str_int g; str_int b; hex].

Definition export (palette_name filepath : string) (palette_rgb : list rgb_t)
    (palette_hex : list string) : written :=
  let rows := map (fun '(rgb, hex) => Csv.writerow (row rgb hex))
                  (combine palette_rgb palette_hex) in
  mkWritten (TextFile (Csv.writerow header ++ String.concat "" rows)) None.

End ExportToCSV.

Module ExportToGPL.

Definition nl : string := String "010"%char "".

Definition color_line (i : Z) (color : rgb_t) : string :=
  let '(r, g, b) := color in
  str_int r ++ " " ++ str_int g ++ " " ++ str_int b ++ " Index " ++ str_int i ++ nl.

Definition export (palette_name filepath : string) (palette_rgb : list rgb_t)
    (palette_hex : list string) : written :=
  let output :=
    "GIMP Palette" ++ nl ++
    "Name: " ++ palette_name ++ nl ++
    "Columns: 5" ++ nl ++
    "#" ++ nl ++
    "# Number : " ++ str_int (Z.of_nat (List.length palette_rgb)) ++ nl ++
    "#" ++ nl in
  let output :=
    fold_left (fun output '(i, color) => output ++ color_line i color)
              (enumerate palette_rgb) output in
  mkWritten (TextFile output) None.

End ExportToGPL.

Module ExportToACO.

(** [bytearray(l)]: every item must be in [range(0, 256)]. *)
Definition bytearray (l : list Z) : result (list Z) :=
  if forallb (fun v => (0 <=? v) && (v <? 256)) l then Ok l
  else Raise (ValueError "byte must be in range(0, 256)").

(** The open binary file: the bytes written so far.  [f_write] appends;
    an exception leaves the file as it is and ends the call. *)
Definition file : Type := list Z.

Definition f_write (f : file) (data : result (list Z)) : file * option exn :=
  match data with
  | Ok b => ((f ++ b)%list, None)
  | Raise e => (f, Some e)
  end.

(** The loop over the colours. *)
Fixpoint write_colors (f : file) (palette_rgb : list rgb_t) : file * option exn :=
  match palette_rgb with
  | [] => (f, None)
  | (r, g, b) :: rest =>
      match f_write f (bytearray [0; 0; r; r; g; g; b; b; 0; 0]) with
      | (f', None) => write_colors f' rest
      | (f', Some e) => (f', Some e)
      end
  end.

Definition export (palette_name filepath : string) (palette_rgb : list rgb_t)
    (palette_hex : list string) : written :=
  let nb := Z.of_nat (List.length palette_rgb) in
  let nb_1 := nb / 255 in
  let nb_2 := nb mod 255 in
  let '(f, e) :=
    match f_write [] (bytearray [0; 1]) with
    | (f, None) =>
        match f_write f (bytearray [nb_1; nb_2]) with
        | (f, None) => write_colors f palette_rgb
        | (f, Some e) => (f, Some e)
        end
    | (f, Some e) => (f, Some e)
    end in
  mkWritten (BinaryFile f) e.

End ExportToACO.

(** The four concrete exporters. *)
Definition ExportToJSon : Exporter := mkExporter ExportToJSon.export.
Definition ExportToCSV : Exporter := mkExporter ExportToCSV.export.
Definition ExportToGPL : Exporter := mkExporter ExportToGPL.export.
Definition ExportToACO : Exporter := mkExporter ExportToACO.export.

(** ** [src/main.py]: exporting the stored palettes *)

(** The loop of the function [export] of [main.py] over the selected
    palettes: the files written, in order, each with its path, and the
    exception that ended the loop, if any. *)
Fixpoint export_each (config : Config) (exporter : Exporter) (extension : string)
    (palettes : list PaletteObject) : list (string * file_content) * option exn :=
  match palettes with
  | [] => ([], None)
  | palette_object :: rest =>
      let image_name := palette_base_name (image_path palette_object) in
      let file_name := image_name ++ "_palette." ++ extension in
      let file_path := PosixPath.join (save_path config) file_name in
      let palette_rgb := palette_to_rgb (palette palette_object) in
      let palette_hex := map (fun color => convert_rgb_to_hex (rgb color))
                             (colors (palette palette_object)) in
      let w := Exporter_export exporter image_name file_path palette_rgb palette_hex in
      match raised w with
      | Some e => ([(file_path, content w)], Some e)
      | None =>
          let '(files, e) := export_each config exporter extension rest in
          ((file_path, content w) :: files, e)
      end
  end.

(** The function [export]: every palette for the index [-1], the
    palette of index [indice] otherwise. *)
Definition export (config : Config) (exporter : Exporter) (palettes_list : PaletteList)
    (indice : Z) (extension : string) : list (string * file_content) * option exn :=
  let selected :=
    if indice =? -1 then Ok (palettes palettes_list)
    else do p <- py_getitem (palettes palettes_list) (indice - 1); Ok [p] in
  match selected with
  | Raise e => ([], Some e)
  | Ok palettes => export_each config exporter extension palettes
  end.

Definition export_csv (config : Config) (palettes_list : PaletteList) (indice : Z) :=
  export config ExportToCSV palettes_list indice "csv".

Definition export_json (config : Config) (palettes_list : PaletteList) (indice : Z) :=
  export config ExportToJSon palettes_list indice "json".

Definition export_gpl (config : Config) (palettes_list : PaletteList) (indice : Z) :=
  export config ExportToGPL palettes_list indice "gpl".

Definition export_aco (config : Config) (palettes_list : PaletteList) (indice : Z) :=
  export config ExportToACO palettes_list indice "aco".

(** ** Reference notions used by the statements *)

(** Reference notions for a ["#RRGGBB"] string: its digits and the
    decoding of such a string. *)
Module HexColor.

Definition digit (d : Z) : ascii :=
  nth (Z.to_nat d)
      ["0"; "1"; "2"; "3"; "4"; "5"; "6"; "7"; "8"; "9"; "A"; "B"; "C"; "D"; "E"; "F"]%char
      "0"%char.

(** The two upper-case digits of a channel, high digit first. *)
Definition pair (v : Z) : string := String (digit (v / 16)) (String (digit (v mod 16)) "").

Definition is_upper_hex (c : ascii) : bool := in_range 48 57 c || in_range 65 70 c.

Definition all_upper_hex (s : string) : bool := forall_chars is_upper_hex s.

Definition digit_value (c : ascii) : option Z :=
  if in_range 48 57 c then Some (Z.of_N (code c) - 48)
  else if in_range 65 70 c then Some (Z.of_N (code c) - 55)
  else if in_range 97 102 c then Some (Z.of_N (code c) - 87)
  else None.

Definition pair_value (h l : ascii) : option Z :=
  match digit_value h, digit_value l with
  | Some x, Some y => Some (16 * x + y)
  | _, _ => None
  end.

(** Decoding ["#RRGGBB"] into its triple. *)
Definition decode (s : string) : option rgb_t :=
  match s with
  | String "#" (String r1 (String r2 (String g1 (String g2 (String b1 (String b2 "")))))) =>
      match pair_value r1 r2, pair_value g1 g2, pair_value b1 b2 with
      | Some r, Some g, Some b => Some (r, g, b)
      | _, _, _ => None
      end
  | _ => None
  end.

End HexColor.

(** The path of the file written for an image, with an extension. *)
Definition palette_file_path (config : Config) (image_path extension : string) : string :=
  PosixPath.join (save_path config)
                 (before_first "." (PosixPath.basename image_path) ++ "_palette." ++ extension).

(** The digits of an unsigned decimal numeral. *)
Definition digits_of (d : Decimal.uint) : string :=
  DecimalString.NilEmpty.string_of_uint d.

(** The integers [0, 1, ..., n - 1]. *)
Definition range (n : nat) : list Z := map Z.of_nat (seq 0 n).

(** A colour line of a GIMP palette, without its line end. *)
Definition gpl_color_line (i : Z) (color : rgb_t) : string :=
  let '(r, g, b) := color in
  str_int r ++ " " ++ str_int g ++ " " ++ str_int b ++ " Index " ++ str_int i.

(** The six header lines of a GIMP palette. *)
Definition gpl_header (palette_name : string) (count : Z) : list string :=
  [ "GIMP Palette"; "Name: " ++ palette_name; "Columns: 5"; "#";
    "# Number : " ++ str_int count; "#" ].

(** A word: a non-empty string without white space. *)
Definition word (s : string) : Prop :=
  s <> "" /\ forall_chars (fun c => negb (is_space c)) s = true.

(** The result of resolving the index 1 against [n] palettes. *)
Definition first_index (n : Z) : option Z := if 1 <=? n then Some 1 else None.

(** The spellings of "all" in mixed case. *)
Definition mixed_case_all : list string := ["All"; "aLl"; "alL"; "ALl"; "AlL"; "aLL"].

(** A collection of [n] palettes. *)
Definition sample_palettes (n : nat) : PaletteList :=
  mkPaletteList (repeat (mkPaletteObject (mkPalette []) "a.png" "a_palette.png") n).

Section BatchReference.

Variable config : Config.
Variable title_getlength subtitle_getlength : string -> Q.
Variable format_2f : Q -> string.
Variable enough_memory : Z -> Z -> bool.
Variable image_save : string -> Image -> result unit.
Variable extract_colors : string -> result Palette.

(** What one image contributes to the collection and to the log when it
    is processed on its own: its record when extraction and rendering
    succeed, a log entry when rendering fails. *)
Definition processed (image_path : string) : list PaletteObject * list log_entry :=
  match extract_colors image_path with
  | Ok palette =>
      match save_palette config title_getlength subtitle_getlength format_2f
          enough_memory image_save
                         palette (palette_to_rgb palette) image_path with
      | Ok palette_path => ([mkPaletteObject palette image_path palette_path], [])
      | Raise e => ([], [GenerationError image_path e])
      end
  | Raise _ => ([], [])
  end.

Definition records_of (images : list string) : list PaletteObject :=
  flat_map (fun image_path => fst (processed image_path)) images.

Definition log_of (images : list string) : list log_entry :=
  flat_map (fun image_path => snd (processed image_path)) images.

End BatchReference.

(** A file system on which writing succeeds except at the given path. *)
Definition save_except (bad : string) (file_path : string) (image : Image) : result unit :=
  if String.eqb file_path bad then Raise (OSError "Permission denied") else Ok tt.

(** An extraction that yields a one-colour palette except for the given
    image. *)
Definition extract_except (bad : string) (image_path : string) : result Palette :=
  if String.eqb image_path bad then Raise (OSError "cannot identify image file")
  else Ok (mkPalette [mkColor (0, 0, 0) 1 0]).

(** The ten bytes of a colour. *)
Definition aco_block (c : rgb_t) : list Z :=
  let '(r, g, b) := c in [0; 0; r; r; g; g; b; b; 0; 0].

(** Re-reading an exported CSV file: the records of the text, the first
    of which must be the header; every other record gives a colour, its
    three channels read with [int], and a hexadecimal string. *)
Fixpoint palette_of_records (records : list (list string))
    : option (list rgb_t * list string) :=
  match records with
  | [] => Some ([], [])
  | [r; g; b; hex] :: records' =>
      match int_of_str r, int_of_str g, int_of_str b, palette_of_records records' with
      | Some r', Some g', Some b', Some (palette_rgb, palette_hex) =>
          Some ((r', g', b') :: palette_rgb, hex :: palette_hex)
      | _, _, _, _ => None
      end
  | _ => None
  end.

Definition parse_palette_csv (text : string) : option (list rgb_t * list string) :=
  match Csv.read text Csv.START_RECORD "" [] with
  | header :: records =>
      if list_eq_dec string_dec header ExportToCSV.header then palette_of_records records
      else None
  | [] => None
  end.

(** The line of a colour in the CSV file, without its line end, when no
    field needs quoting. *)
Definition csv_line (rgb : rgb_t) (hex : string) : string :=
  let '(r, g, b) := rgb in
  str_int r ++ "," ++ str_int g ++ "," ++ str_int b ++ "," ++ hex.

(** Reading an exported JSON file: the text must be one object; its
    member [name] must be a string, [rgb] a list of lists of three
    integers and [hex] a list of strings. *)
Definition json_str (v : Json.value) : option string :=
  match v with
  | Json.JStr s => Some s
  | _ => None
  end.

Definition json_rgb (v : Json.value) : option rgb_t :=
  match v with
  | Json.JList [Json.JInt r; Json.JInt g; Json.JInt b] => Some (r, g, b)
  | _ => None
  end.

Fixpoint json_list {A : Type} (item : Json.value -> option A) (l : list Json.value)
    : option (list A) :=
  match l with
  | [] => Some []
  | v :: l' =>
      match item v, json_list item l' with
      | Some a, Some r => Some (a :: r)
      | _, _ => None
      end
  end.

Definition parse_palette_json (text : string) : option (string * list rgb_t * list string) :=
  match Json.loads text with
  | Some (Json.JDict items) =>
      match Json.dict_get items "name", Json.dict_get items "rgb", Json.dict_get items "hex" with
      | Some (Json.JStr name), Some (Json.JList rgb), Some (Json.JList hex) =>
          match json_list json_rgb rgb, json_list json_str hex with
          | Some palette_rgb, Some palette_hex => Some (name, palette_rgb, palette_hex)
          | _, _ => None
          end
      | _, _, _ => None
      end
  | _ => None
  end.

(** ** [src/main.py]: the other option parsers *)

(** The test [s in ["-d", "--display"]]. *)
Definition is_display_flag (s : string) : bool :=
  String.eqb s "-d" || String.eqb s "--display".

Definition get_display_from_option (image_path : string) : bool :=
  let option_split := split " " (strip image_path) in
  let len := Z.of_nat (List.length option_split) in
  if (1 <? len) && is_display_flag (nth 1 option_split "") then true
  else if (2 <? len) && is_display_flag (nth 2 option_split "") then true
  else false.

(** [s[1:]]. *)
Definition drop_first (s : string) : string :=
  match s with
  | EmptyString => ""
  | String _ s' => s'
  end.

Definition get_action_from_option (image_path : string) : string :=
  let option_split := split " " (strip image_path) in
  drop_first (nth 0 option_split "").

(** ** Reading an ACO file back *)

(** The colours of a sequence of ten-byte blocks: the third, fifth and
    seventh byte of each block. *)
Fixpoint aco_colors (blocks : list Z) : list rgb_t :=
  match blocks with
  | _ :: _ :: r :: _ :: g :: _ :: b :: _ :: _ :: _ :: rest => (r, g, b) :: aco_colors rest
  | _ => []
  end.

(** The version, the count announced by the two count bytes as the
    exporter writes them, and the colours of an ACO file. *)
Definition aco_read (bytes : list Z) : option (Z * Z * list rgb_t) :=
  match bytes with
  | v1 :: v2 :: n1 :: n2 :: blocks => Some (256 * v1 + v2, 255 * n1 + n2, aco_colors blocks)
  | _ => None
  end.

Definition valid_rgbb (c : rgb_t) : bool :=
  let '(r, g, b) := c in
  (0 <=? r) && (r <=? 255) && (0 <=? g) && (g <=? 255) && (0 <=? b) && (b <=? 255).

Definition written_bytes (w : written) : list Z :=
  match content w with
  | BinaryFile bytes => bytes
  | TextFile _ => []
  end.

(** The characters from the space to the tilde. *)
Definition printable (c : ascii) : bool := in_range 32 126 c.

(** The top-left corner of a rectangle drawn on the canvas. *)
Definition rectangle_origin (op : draw_op) : option (Z * Z) :=
  match op with
  | Rectangle x0 y0 _ _ _ _ _ => Some (x0, y0)
  | Text _ _ _ _ _ => None
  end.

(** The pixels of a canvas: the columns from 0 to [width - 1], the
    rows from 0 to [height - 1]. *)
Definition pixel_of_canvas (width height x y : Z) : Prop :=
  0 <= x < width /\ 0 <= y < height.

(** The pixels that a drawn rectangle asks for: those between its two
    corners, both corners included, as [ImageDraw.rectangle] defines
    it.  Nothing is said of a text. *)
Definition covered (op : draw_op) (x y : Z) : Prop :=
  match op with
  | Rectangle x0 y0 x1 y1 _ _ _ => x0 <= x <= x1 /\ y0 <= y <= y1
  | Text _ _ _ _ _ => False
  end.

(** The images of a batch that precede the first one whose extraction
    raises, and what that extraction raises. *)
Fixpoint before_extraction_failure (extract_colors : string -> result Palette)
    (images : list string) : list string * option exn :=
  match images with
  | [] => ([], None)
  | image_path :: rest =>
      match extract_colors image_path with
      | Raise e => ([], Some e)
      | Ok _ =>
          let '(done, e) := before_extraction_failure extract_colors rest in
          (image_path :: done, e)
      end
  end.

(** ** [src/modules/image_selector.py] *)

Module ImageSelector.

(** What the user selected: one path, or a list of paths. *)
Inductive selection : Type :=
| One (path : string)
| Many (paths : list string).

(** The class [DialogResult]. *)
Record DialogResult : Type := mkDialogResult {
  success : bool;
  cancelled : bool;
  data : option selection
}.

(** What a selection method returns: a [DialogResult] for four of
    them; [select_images_applescript] returns the selection itself, or
    [None]. *)
Inductive method_return : Type :=
| Dialog (r : DialogResult)
| Bare (d : option selection).

(** The exceptions of this module.  [except Exception] catches all of
    them but [KeyboardInterrupt]. *)
Inductive raised : Type :=
| ImportError
| TimeoutExpired
| CalledProcessError
| FileNotFoundError
| AttributeError (msg : string)
| OtherError (msg : string)
| KeyboardInterrupt.

Definition is_Exception (e : raised) : bool :=
  match e with
  | KeyboardInterrupt => false
  | _ => true
  end.

Inductive outcome (A : Type) : Type :=
| Returns (a : A)
| Raises (e : raised).
Arguments Returns {A} a.
Arguments Raises {A} e.

(** A selection method, called with [multiple] and [title]. *)
Definition method : Type := bool -> string -> outcome method_return.

(** What is printed on the standard error stream. *)
Inductive stderr_line : Type :=
| MethodError (method_name : string) (e : raised)
| NoSelector.

(** Reading the attribute [success] of what a method returned: a
    string, a list and [None] have no such attribute. *)
Definition get_success (r : method_return) : outcome DialogResult :=
  match r with
  | Dialog d => Returns d
  | Bare (Some (One _)) => Raises (AttributeError "'str' object has no attribute 'success'")
  | Bare (Some (Many _)) => Raises (AttributeError "'list' object has no attribute 'success'")
  | Bare None => Raises (AttributeError "'NoneType' object has no attribute 'success'")
  end.

(** The loop of [select_images] over the methods, each with its name:
    what is printed, and what is returned or raised. *)
Fixpoint try_methods (methods : list (string * method)) (multiple : bool) (title : string)
    : list stderr_line * outcome (option selection) :=
  match methods with
  | [] => ([NoSelector], Returns None)
  | (name, m) :: rest =>
      let attempt :=
        match m multiple title with
        | Returns r =>
            match get_success r with
            | Returns d => Returns d
            | Raises e => Raises e
            end
        | Raises e => Raises e
        end in
      match attempt with
      | Returns d =>
          if success d then
            if cancelled d then ([], Returns None) else ([], Returns (data d))
          else try_methods rest multiple title
      | Raises e =>
          if is_Exception e then
            let '(log, r) := try_methods rest multiple title in
            (MethodError name e :: log, r)
          else ([], Raises e)
      end
  end.

(** The platform: [sys.platform == 'darwin'], else [os.name == 'posix'],
    else Windows. *)
Inductive platform : Type := Darwin | Posix | Windows.

Section SelectImages.

Variable the_platform : platform.
Variable select_images_applescript select_images_tkinter select_images_qt
         select_images_windows_native : method.

(** The external program: [subprocess.run(cmd, ...)] gives a return
    code and the text of the standard output, or raises. *)
Variable subprocess_run : list string -> outcome (Z * string).

Definition select_images_zenity (multiple : bool) (title : string) : outcome method_return :=
  match the_platform with
  | Windows => Returns (Dialog (mkDialogResult false false None))
  | _ =>
      let cmd := [ "zenity"; "--file-selection"; "--title=" ++ title;
                   "--file-filter=Images | *.jpg *.jpeg *.png *.gif *.bmp *.tiff *.webp" ] in
      let cmd := if multiple then (cmd ++ ["--multiple"; "--separator=|"])%list else cmd in
      match subprocess_run cmd with
      | Returns (returncode, stdout) =>
          if returncode =? 0 then
            let output := strip stdout in
            if multiple then
              let files := if String.eqb output "" then [] else split "|" output in
              Returns (Dialog (mkDialogResult true false
                                 (match files with [] => None | _ => Some (Many files) end)))
            else
              Returns (Dialog (mkDialogResult true false
                                 (if String.eqb output "" then None else Some (One output))))
          else if returncode =? 1 then Returns (Dialog (mkDialogResult true true None))
          else Returns (Dialog (mkDialogResult false false None))
      | Raises TimeoutExpired | Raises CalledProcessError | Raises FileNotFoundError =>
          Returns (Dialog (mkDialogResult false false None))
      | Raises e => Raises e
      end
  end.

Definition select_images (multiple : bool) (title : string)
    : list stderr_line * outcome (option selection) :=
  let methods :=
    match the_platform with
    | Darwin => [ ("select_images_applescript", select_images_applescript);
                  ("select_images_tkinter", select_images_tkinter);
                  ("select_images_qt", select_images_qt) ]
    | Posix => [ ("select_images_zenity", select_images_zenity);
                 ("select_images_tkinter", select_images_tkinter);
                 ("select_images_qt", select_images_qt) ]
    | Windows => [ ("select_images_windows_native", select_images_windows_native);
                   ("select_images_tkinter", select_images_tkinter);
                   ("select_images_qt", select_images_qt) ]
    end in
  try_methods methods multiple title.

End SelectImages.

(** A string that starts, or ends, with a character that is not white
    space. *)
Definition starts_solid (s : string) : bool :=
  match s with
  | EmptyString => false
  | String c _ => negb (is_space c)
  end.

Definition ends_solid (s : string) : bool := starts_solid (rev_string s).

(** A method that fails technically, or raises an exception that
    [select_images] catches, or returns something that is not a
    [DialogResult]. *)
Definition gives_way (m : method) (multiple : bool) (title : string) : Prop :=
  match m multiple title with
  | Returns (Dialog d) => success d = false
  | Returns (Bare _) => True
  | Raises e => is_Exception e = true
  end.

(** What a method that gives way prints on the standard error stream:
    the exception it raised, if any. *)
Definition error_printed (name : string) (m : method) (multiple : bool) (title : string)
    : list stderr_line :=
  match m multiple title with
  | Returns r =>
      match get_success r with
      | Returns _ => []
      | Raises e => [MethodError name e]
      end
  | Raises e => [MethodError name e]
  end.

Definition errors_printed (methods : list (string * method)) (multiple : bool)
    (title : string) : list stderr_line :=
  flat_map (fun nm => error_printed (fst nm) (snd nm) multiple title) methods.

End ImageSelector.

(** ** [src/main.py]: the loop of [main] *)

(** What the prompt loop decides for one line of input: the program
    ends, or a message is printed and the prompt comes again, or the loop
    is left with an action, an index, a display flag and the image path,
    which is the line itself or what the file selector returned. *)
Inductive prompt : Type :=
| Exit
| Again (message : string)
| Proceed (action : string) (indice : Z) (display : option bool)
          (image_path : ImageSelector.selection).

(** What one turn of the outer loop does once the prompt loop is left;
    printing and the image viewer are left out. *)
Inductive turn : Type :=
| Instructions
| Configuration
| PaletteInfo (shown : result PaletteObject) (indice : Z) (display : option bool)
| Exported (files : list (string * file_content)) (e : option exn)
| PaletteNames (names : list string)
| Extracted (log : list log_entry) (e : option exn).

(** How one line of input ends: the program ends, or a message is
    printed and the prompt comes again, or the action of the line was
    run. *)
Inductive line_end : Type :=
| ProgramEnds
| PromptAgain (message : string)
| ActionDone (t : turn).

Section MainLoop.

Variable config : Config.
Variable title_getlength subtitle_getlength : string -> Q.
Variable format_2f : Q -> string.
Variable enough_memory : Z -> Z -> bool.
Variable image_save : string -> Image -> result unit.
Variable extract_colors : string -> result Palette.

(** The file system as the prompt loop reads it, and the file selector
    for this prompt. *)
Variable path_exists path_isfile : string -> bool.
Variable select_images :
  bool -> string ->
  list ImageSelector.stderr_line * ImageSelector.outcome (option ImageSelector.selection).

(** The body of the loop [while True] that reads an option. *)
Definition read_option (palettes_list : PaletteList) (image_path : string) : prompt :=
  let typed := ImageSelector.One image_path in
  if String.eqb image_path "/exit" then Exit
  else if String.eqb image_path "/h" || String.eqb image_path "/help" then
    Proceed "help" 0 None typed
  else if String.eqb image_path "/c" || String.eqb image_path "/config" then
    Proceed "config" 0 None typed
  else if startswith "/s" image_path || startswith "/show" image_path then
    match get_indice_from_option image_path palettes_list false with
    | Some indice =>
        if indice =? 0 then Again "Invalid palette index."
        else Proceed "show" indice (Some (get_display_from_option image_path)) typed
    | None => Again "Invalid palette index."
    end
  else if startswith "/csv" image_path || startswith "/json" image_path
          || startswith "/gpl" image_path || startswith "/aco" image_path then
    let action := get_action_from_option image_path in
    match get_indice_from_option image_path palettes_list true with
    | Some indice =>
        if indice =? 0 then Again "Invalid palette index."
        else Proceed action indice None typed
    | None => Again "Invalid palette index."
    end
  else if startswith "/l" image_path || startswith "/list" image_path then
    if Z.of_nat (List.length (palettes palettes_list)) =? 0 then Again "No palette available."
    else Proceed "list" 0 None typed
  else if path_exists image_path then
    if path_isfile image_path then Proceed "generate" 0 None typed
    else Again "Only files are allowed."
  else if String.eqb image_path "1" || String.eqb image_path "/select" then
    match snd (select_images false "Choose an image") with
    | ImageSelector.Returns (Some selected) => Proceed "generate" 0 None selected
    | ImageSelector.Returns None => Again "No file has been selected."
    | ImageSelector.Raises _ => Exit
    end
  else if String.eqb image_path "2" || String.eqb image_path "/multi" then
    match snd (select_images true "Choose one or more images") with
    | ImageSelector.Returns (Some selected) => Proceed "generate" 0 None selected
    | ImageSelector.Returns None => Again "No file has been selected."
    | ImageSelector.Raises _ => Exit
    end
  else Again "Please enter a valid path.".

(** The tests [action == ...] that follow the prompt loop, and the
    extraction when none of them holds: the collection afterwards and
    what the turn did. *)
Definition run_action (palettes_list : PaletteList) (action : string) (indice : Z)
    (display : option bool) (image_path : ImageSelector.selection) : PaletteList * turn :=
  if String.eqb action "help" then (palettes_list, Instructions)
  else if String.eqb action "config" then (palettes_list, Configuration)
  else if String.eqb action "show" then
    (palettes_list, PaletteInfo (py_getitem (palettes palettes_list) (indice - 1)) indice display)
  else if String.eqb action "csv" then
    let '(files, e) := export_csv config palettes_list indice in
    (palettes_list, Exported files e)
  else if String.eqb action "json" then
    let '(files, e) := export_json config palettes_list indice in
    (palettes_list, Exported files e)
  else if String.eqb action "gpl" then
    let '(files, e) := export_gpl config palettes_list indice in
    (palettes_list, Exported files e)
  else if String.eqb action "aco" then
    let '(files, e) := export_aco config palettes_list indice in
    (palettes_list, Exported files e)
  else if String.eqb action "list" then
    (palettes_list,
     PaletteNames (map (fun '(mkPaletteObject _ path _) => get_image_info path)
                       (palettes palettes_list)))
  else
    let images :=
      match image_path with
      | ImageSelector.One path => [path]
      | ImageSelector.Many paths => paths
      end in
    let '(st, e) := extract config title_getlength subtitle_getlength format_2f enough_memory
                            image_save extract_colors images in
    (mkPaletteList (batch_palettes st), Extracted (batch_log st) e).

(** One line of input, from the prompt to the end of the turn. *)
Definition main_turn (palettes_list : PaletteList) (line : string)
    : PaletteList * line_end :=
  match read_option palettes_list line with
  | Exit => (palettes_list, ProgramEnds)
  | Again message => (palettes_list, PromptAgain message)
  | Proceed action indice display image_path =>
      let '(palettes_list', t) := run_action palettes_list action indice display image_path in
      (palettes_list', ActionDone t)
  end.

End MainLoop.

(** The four export commands, with the exporter and the file extension
    that [main] uses for each. *)
Definition export_commands : list (string * Exporter * string) :=
  [ ("/csv", ExportToCSV, "csv"); ("/json", ExportToJSon, "json");
    ("/gpl", ExportToGPL, "gpl"); ("/aco", ExportToACO, "aco") ].

(** The actions that [main] handles before the extraction. *)
Definition handled_actions : list string :=
  ["help"; "config"; "show"; "csv"; "json"; "gpl"; "aco"; "list"].

(** The lines that the prompt of [main] takes as a command before it
    looks at the file system. *)
Definition taken_as_command (line : string) : bool :=
  existsb (String.eqb line) ["/exit"; "/h"; "/help"; "/c"; "/config"] ||
  existsb (fun p => startswith p line) ["/s"; "/csv"; "/json"; "/gpl"; "/aco"; "/l"].

(** * Properties *)

(** ** Strings *)

Lemma append_nil_r (s : string) : s ++ "" = s.
Proof. induction s as [|c s IH]; simpl; [reflexivity | now rewrite IH]. Qed.

Lemma append_assoc (s t u : string) : (s ++ t) ++ u = s ++ (t ++ u).
Proof. induction s as [|c s IH]; simpl; [reflexivity | now rewrite IH]. Qed.

Lemma length_append (s t : string) :
  String.length (s ++ t) = (String.length s + String.length t)%nat.
Proof. induction s as [|c s IH]; simpl; [reflexivity | now rewrite IH]. Qed.

Lemma rev_string_acc_append (s acc : string) :
  rev_string_acc s acc = rev_string s ++ acc.
Proof.
  unfold rev_string. revert acc.
  induction s as [|c s IH]; intros acc; simpl; [reflexivity|].
  rewrite IH, (IH (String c "")), append_assoc. reflexivity.
Qed.

Lemma rev_string_cons (c : ascii) (s : string) :
  rev_string (String c s) = rev_string s ++ String c "".
Proof. unfold rev_string at 1. simpl. apply rev_string_acc_append. Qed.

(** Appends are nested to the right and literal prefixes are pushed
    outwards. *)
Ltac string_norm :=
  repeat first [ rewrite append_assoc | rewrite append_nil_r
               | progress cbn [String.append] ].

Lemma upper_append (s t : string) : upper (s ++ t) = upper s ++ upper t.
Proof. induction s as [|c s IH]; simpl; [reflexivity | now rewrite IH]. Qed.

(** A property of the integers of [0, n), checked by running over them. *)
Lemma below_forallb (n : nat) (P : Z -> bool) :
  forallb (fun k => P (Z.of_nat k)) (seq 0 n) = true ->
  forall v, 0 <= v < Z.of_nat n -> P v = true.
Proof.
  intros H v Hv.
  rewrite forallb_forall in H.
  specialize (H (Z.to_nat v)).
  rewrite Z2Nat.id in H by lia.
  apply H, in_seq. lia.
Qed.

(** ** Hexadecimal colour strings *)

Lemma format_channel (v : Z) :
  valid_channel v -> upper (format_0x 2 v) = HexColor.pair v.
Proof.
  intros Hv.
  apply String.eqb_eq.
  apply (below_forallb 256 (fun v => String.eqb (upper (format_0x 2 v)) (HexColor.pair v))).
  - vm_compute. reflexivity.
  - unfold valid_channel in Hv. lia.
Qed.

Lemma pair_decodes (v : Z) :
  valid_channel v ->
  HexColor.all_upper_hex (HexColor.pair v) = true /\
  (let '(h, l) := (HexColor.digit (v / 16), HexColor.digit (v mod 16)) in
   HexColor.pair_value h l = Some v).
Proof.
  intros Hv.
  assert (H : (HexColor.all_upper_hex (HexColor.pair v) &&
               match HexColor.pair_value (HexColor.digit (v / 16)) (HexColor.digit (v mod 16)) with
               | Some w => w =? v
               | None => false
               end) = true).
  { apply (below_forallb 256 (fun v =>
       HexColor.all_upper_hex (HexColor.pair v) &&
       match HexColor.pair_value (HexColor.digit (v / 16)) (HexColor.digit (v mod 16)) with
       | Some w => w =? v
       | None => false
       end)).
    - vm_compute. reflexivity.
    - unfold valid_channel in Hv. lia. }
  apply andb_true_iff in H. destruct H as [H1 H2].
  split; [exact H1|].
  destruct (HexColor.pair_value _ _) as [w|]; [|discriminate].
  apply Z.eqb_eq in H2. now subst.
Qed.

Lemma convert_rgb_to_hex_pairs (r g b : Z) :
  valid_rgb (r, g, b) ->
  convert_rgb_to_hex (r, g, b) =
  String "#" (HexColor.pair r ++ HexColor.pair g ++ HexColor.pair b).
Proof.
  intros (Hr & Hg & Hb).
  unfold convert_rgb_to_hex.
  rewrite !upper_append, (format_channel r Hr), (format_channel g Hg), (format_channel b Hb).
  reflexivity.
Qed.

(** C7.  For a valid RGB triple, [convert_rgb_to_hex] returns seven
    characters: ['#'] followed by the two upper-case hexadecimal digits of
    each channel, zero-padded, and decoding the string gives the triple
    back. *)
Theorem convert_rgb_to_hex_roundtrip (c : rgb_t) :
  valid_rgb c ->
  let s := convert_rgb_to_hex c in
  String.length s = 7%nat /\
  (exists body, s = String "#" body /\ String.length body = 6%nat /\
                HexColor.all_upper_hex body = true) /\
  (let '(r, g, b) := c in
   s = String "#" (HexColor.pair r ++ HexColor.pair g ++ HexColor.pair b)) /\
  HexColor.decode s = Some c.
Proof.
  destruct c as [[r g] b]. intros Hc. cbv zeta.
  rewrite (convert_rgb_to_hex_pairs r g b Hc).
  destruct Hc as (Hr & Hg & Hb).
  destruct (pair_decodes r Hr) as [Ur Dr], (pair_decodes g Hg) as [Ug Dg],
           (pair_decodes b Hb) as [Ub Db].
  unfold HexColor.pair, HexColor.all_upper_hex in *.
  cbn [String.append String.length forall_chars] in *.
  repeat split.
  - eexists. split; [reflexivity|]. split; [reflexivity|].
    cbn [String.length forall_chars].
    rewrite !andb_true_r in *.
    apply andb_true_iff in Ur, Ug, Ub.
    destruct Ur as [-> ->], Ug as [-> ->], Ub as [-> ->]. reflexivity.
  - unfold HexColor.decode. rewrite Dr, Dg, Db. reflexivity.
Qed.

(** The triple (255, 0, 10) is valid and is rendered as ["#FF000A"]. *)
Lemma convert_rgb_to_hex_roundtrip_witness :
  valid_rgb (255, 0, 10) /\ HexColor.decode (convert_rgb_to_hex (255, 0, 10)) = Some (255, 0, 10).
Proof.
  split.
  - unfold valid_rgb, valid_channel. lia.
  - apply (convert_rgb_to_hex_roundtrip (255, 0, 10)).
    unfold valid_rgb, valid_channel. lia.
Defined.

(** ** Decimal numerals *)

Lemma forall_chars_append (P : ascii -> bool) (s t : string) :
  forall_chars P (s ++ t) = forall_chars P s && forall_chars P t.
Proof.
  induction s as [|c s IH]; simpl; [reflexivity|].
  now rewrite IH, andb_assoc.
Qed.

Lemma forall_chars_impl (P Q : ascii -> bool) (s : string) :
  (forall c, P c = true -> Q c = true) ->
  forall_chars P s = true -> forall_chars Q s = true.
Proof.
  intros HPQ. induction s as [|c s IH]; simpl; [reflexivity|].
  intros H. apply andb_true_iff in H. destruct H as [Hc Hs].
  now rewrite (HPQ c Hc), IH.
Qed.

Lemma rev_string_append (s t : string) :
  rev_string (s ++ t) = rev_string t ++ rev_string s.
Proof.
  induction s as [|c s IH]; simpl.
  - now rewrite append_nil_r.
  - now rewrite !rev_string_cons, IH, append_assoc.
Qed.

Lemma rev_string_involutive (s : string) : rev_string (rev_string s) = s.
Proof.
  induction s as [|c s IH]; [reflexivity|].
  now rewrite rev_string_cons, rev_string_append, IH.
Qed.

Lemma forall_chars_rev (P : ascii -> bool) (s : string) :
  forall_chars P (rev_string s) = forall_chars P s.
Proof.
  induction s as [|c s IH]; [reflexivity|].
  rewrite rev_string_cons, forall_chars_append, IH. simpl.
  now rewrite andb_true_r, andb_comm.
Qed.

Lemma digits_of_are_digits (d : Decimal.uint) : forall_chars is_digit (digits_of d) = true.
Proof. unfold digits_of. induction d; simpl; auto. Qed.

(** The numeral of a positive number: not empty, no leading zero. *)
Lemma to_uint_head (p : positive) :
  exists c s, digits_of (Pos.to_uint p) = String c s /\
              is_digit c = true /\ c <> "0"%char.
Proof.
  pose proof (DecimalPos.Unsigned.to_uint_nonnil p) as Hnil.
  assert (Hnorm : Decimal.unorm (Pos.to_uint p) = Pos.to_uint p).
  { change (Pos.to_uint p) with (N.to_uint (N.pos p)) at 2.
    rewrite <- (DecimalPos.Unsigned.of_to p). symmetry. apply DecimalPos.Unsigned.to_of. }
  unfold digits_of.
  destruct (Pos.to_uint p) as [|u|u|u|u|u|u|u|u|u|u] eqn:E;
    try congruence;
    try (simpl; do 2 eexists; split; [reflexivity|split; [reflexivity|discriminate]]).
  exfalso.
  rewrite DecimalFacts.unorm_D0 in Hnorm.
  unfold Decimal.unorm in Hnorm.
  pose proof (DecimalFacts.nzhead_nonzero u u) as Hnz.
  destruct (Decimal.nzhead u); try congruence.
  injection Hnorm as <-.
  apply (DecimalPos.Unsigned.to_uint_nonzero p). exact E.
Qed.

Lemma str_int_cases (n : Z) :
  (n = 0 /\ str_int n = "0") \/
  (exists p, n = Z.pos p /\ str_int n = digits_of (Pos.to_uint p)) \/
  (exists p, n = Z.neg p /\ str_int n = String "-" (digits_of (Pos.to_uint p))).
Proof.
  destruct n as [|p|p]; [left|right; left|right; right].
  - split; reflexivity.
  - exists p. split; [reflexivity|]. unfold str_int. simpl.
    pose proof (DecimalPos.Unsigned.to_uint_nonnil p).
    destruct (Pos.to_uint p); [congruence|reflexivity..].
  - exists p. split; [reflexivity|]. unfold str_int. simpl. f_equal.
    pose proof (DecimalPos.Unsigned.to_uint_nonnil p).
    destruct (Pos.to_uint p); [congruence|reflexivity..].
Qed.

(** The characters of [str(n)] are digits and the minus sign. *)
Lemma str_int_chars (P : ascii -> bool) (n : Z) :
  (forall c, is_digit c = true -> P c = true) -> P "-"%char = true ->
  forall_chars P (str_int n) = true.
Proof.
  intros Hd Hm.
  destruct (str_int_cases n) as [[_ ->]|[(p & _ & ->)|(p & _ & ->)]].
  - simpl. rewrite Hd; reflexivity.
  - apply (forall_chars_impl is_digit); [exact Hd | apply digits_of_are_digits].
  - simpl. rewrite Hm. simpl.
    apply (forall_chars_impl is_digit); [exact Hd | apply digits_of_are_digits].
Qed.

Lemma uint_value_digits (p : positive) :
  Json.uint_value (digits_of (Pos.to_uint p)) = Some (Z.pos p).
Proof.
  unfold Json.uint_value, digits_of. rewrite DecimalString.NilEmpty.usu.
  unfold Z.of_uint. now rewrite DecimalPos.Unsigned.of_to.
Qed.

Lemma lstrip_int_id (s : string) :
  forall_chars (fun c => negb (is_int_space c)) s = true -> lstrip_int s = s.
Proof.
  destruct s as [|c s]; simpl; [reflexivity|].
  intros H. apply andb_true_iff in H. destruct H as [Hc _].
  apply negb_true_iff in Hc. now rewrite Hc.
Qed.

Lemma strip_int_id (s : string) :
  forall_chars (fun c => negb (is_int_space c)) s = true -> strip_int s = s.
Proof.
  intros H. unfold strip_int.
  rewrite (lstrip_int_id s H), lstrip_int_id, rev_string_involutive; [reflexivity|].
  now rewrite forall_chars_rev.
Qed.

Lemma ungroup_digits (s : string) (after_digit : bool) :
  forall_chars is_digit s = true -> s <> "" \/ after_digit = true ->
  ungroup s after_digit = Some s.
Proof.
  revert after_digit. induction s as [|c s IH]; intros after_digit Hd Hne; simpl in *.
  - destruct Hne as [Hne| ->]; [congruence|reflexivity].
  - apply andb_true_iff in Hd. destruct Hd as [Hc Hs].
    rewrite Hc, IH; auto.
Qed.

Lemma digits_value_digits (p : positive) :
  digits_value (digits_of (Pos.to_uint p)) = Some (Z.pos p).
Proof.
  unfold digits_value.
  destruct (to_uint_head p) as (c & s & E & _ & _).
  rewrite ungroup_digits.
  - apply uint_value_digits.
  - apply digits_of_are_digits.
  - left. rewrite E. discriminate.
Qed.

(** [int(str(n)) == n]. *)
Lemma int_of_str_str_int (n : Z) : int_of_str (str_int n) = Some n.
Proof.
  unfold int_of_str.
  rewrite strip_int_id by (apply str_int_chars; [intros c Hc|reflexivity];
    unfold is_digit, is_int_space, in_range in *;
    destruct (code c) as [|q]; [discriminate|];
    repeat (destruct q as [q|q|]; try discriminate; try reflexivity)).
  destruct (str_int_cases n) as [[-> ->]|[(p & -> & ->)|(p & -> & ->)]].
  - reflexivity.
  - destruct (to_uint_head p) as (c & s & E & Hc & Hz).
    pose proof (digits_value_digits p) as Hv. rewrite E in *.
    destruct (Ascii.eqb_spec c "-") as [->|_]; [discriminate Hc|].
    destruct (Ascii.eqb_spec c "+") as [->|_]; [discriminate Hc|].
    exact Hv.
  - rewrite Ascii.eqb_refl, digits_value_digits. reflexivity.
Qed.

(** ** The ACO exporter *)

Section ACO.

Import ExportToACO.

Lemma bytearray_ok (l : list Z) :
  Forall (fun v => 0 <= v < 256) l -> bytearray l = Ok l.
Proof.
  intros H. unfold bytearray.
  replace (forallb _ l) with true; [reflexivity|].
  symmetry. apply forallb_forall. intros v Hv.
  rewrite Forall_forall in H. specialize (H v Hv). lia.
Qed.

Lemma bytearray_block (c : rgb_t) :
  valid_rgb c -> (let '(r, g, b) := c in bytearray [0; 0; r; r; g; g; b; b; 0; 0]) = Ok (aco_block c).
Proof.
  destruct c as [[r g] b]. intros (Hr & Hg & Hb). unfold valid_channel in *.
  apply bytearray_ok. repeat constructor; lia.
Qed.

Lemma write_colors_valid (l : list rgb_t) :
  Forall valid_rgb l ->
  forall f, write_colors f l = ((f ++ List.concat (map aco_block l))%list, None).
Proof.
  induction 1 as [|c l Hc Hl IH]; intros f; simpl.
  - now rewrite app_nil_r.
  - pose proof (bytearray_block c Hc) as Hb.
    destruct c as [[r g] b]. rewrite Hb. simpl f_write. cbv iota.
    rewrite IH, <- app_assoc. reflexivity.
Qed.

Lemma length_concat_blocks (l : list rgb_t) :
  List.length (List.concat (map aco_block l)) = (10 * List.length l)%nat.
Proof.
  induction l as [|[[r g] b] l IH]; [reflexivity|].
  cbn [map List.concat]. rewrite length_app, IH. simpl. lia.
Qed.

Lemma block_at (l : list rgb_t) (i : nat) (c : rgb_t) (tail : list Z) :
  nth_error l i = Some c ->
  firstn 10 (skipn (10 * i) (List.concat (map aco_block l) ++ tail)) = aco_block c.
Proof.
  revert i. induction l as [|c' l IH]; intros [|i] H; simpl in H; try discriminate.
  - injection H as ->. destruct c as [[r g] b]. reflexivity.
  - replace (10 * S i)%nat with (10 * i + 10)%nat by lia.
    destruct c' as [[r' g'] b']. cbn [map List.concat aco_block].
    rewrite <- skipn_skipn. cbn [List.app skipn]. apply IH, H.
Qed.

End ACO.

(** C3, as amended.  For a list of [N] valid colours, [N] below 65280,
    the ACO exporter ends normally and the file holds [4 + 10 * N] bytes:
    [0; 1], then [N / 255; N mod 255], then for each colour, in order, the
    ten bytes [0; 0; R; R; G; G; B; B; 0; 0]. *)
Theorem aco_export_layout (palette_name filepath : string) (palette_rgb : list rgb_t)
    (palette_hex : list string) :
  Forall valid_rgb palette_rgb ->
  Z.of_nat (List.length palette_rgb) < 65280 ->
  let N := Z.of_nat (List.length palette_rgb) in
  exists bytes,
    ExportToACO.export palette_name filepath palette_rgb palette_hex
      = mkWritten (BinaryFile bytes) None /\
    bytes = ([0; 1] ++ [N / 255; N mod 255] ++ List.concat (map aco_block palette_rgb))%list /\
    Z.of_nat (List.length bytes) = 4 + 10 * N /\
    firstn 2 bytes = [0; 1] /\
    firstn 2 (skipn 2 bytes) = [N / 255; N mod 255] /\
    (forall i r g b, nth_error palette_rgb i = Some (r, g, b) ->
       firstn 10 (skipn (4 + 10 * i) bytes) = [0; 0; r; r; g; g; b; b; 0; 0]).
Proof.
  intros Hvalid HN N.
  eexists. split; [|split; [reflexivity|]].
  - unfold ExportToACO.export. fold N.
    rewrite (bytearray_ok [0; 1]) by (repeat constructor; lia).
    cbn [ExportToACO.f_write List.app].
    rewrite (bytearray_ok [N / 255; N mod 255]).
    + cbn [ExportToACO.f_write List.app].
      rewrite (write_colors_valid _ Hvalid). reflexivity.
    + assert (0 <= N) by (unfold N; lia).
      repeat constructor.
      * apply Z.div_pos; lia.
      * apply Z.div_lt_upper_bound; lia.
      * apply Z.mod_pos_bound; lia.
      * pose proof (Z.mod_pos_bound N 255). lia.
  - repeat split.
    + cbn [List.app List.length]. rewrite length_concat_blocks. unfold N. lia.
    + intros i r g b Hi.
      replace (4 + 10 * i)%nat with (S (S (S (S (10 * i))))) by lia.
      cbn [List.app skipn].
      rewrite <- (app_nil_r (List.concat _)).
      apply (block_at palette_rgb i (r, g, b) [] Hi).
Qed.

(** Two valid colours give twenty-four bytes. *)
Lemma aco_export_layout_witness :
  exists bytes,
    ExportToACO.export "a" "a_palette.aco" [(255, 0, 10); (1, 2, 3)] ["#FF000A"; "#010203"]
      = mkWritten (BinaryFile bytes) None /\
    Z.of_nat (List.length bytes) = 24.
Proof.
  destruct (aco_export_layout "a" "a_palette.aco" [(255, 0, 10); (1, 2, 3)]
              ["#FF000A"; "#010203"]) as (bytes & He & _ & Hl & _).
  - repeat constructor; unfold valid_channel; lia.
  - simpl. lia.
  - exists bytes. split; [exact He | exact Hl].
Defined.

(** Against C3 as first stated: with 65280 colours the count byte
    [N / 255] is 256, [bytearray] raises, and the file holds the two
    version bytes only. *)
Lemma aco_export_65280_colors :
  let palette_rgb := repeat (0, 0, 0) (Z.to_nat 65280) in
  let N := Z.of_nat (List.length palette_rgb) in
  Forall valid_rgb palette_rgb /\
  ExportToACO.export "a" "a_palette.aco" palette_rgb (repeat "#000000" (Z.to_nat 65280))
    = mkWritten (BinaryFile [0; 1]) (Some (ValueError "byte must be in range(0, 256)")) /\
  Z.of_nat (List.length [0; 1]) <> 4 + 10 * N.
Proof.
  split; [|split].
  - apply Forall_forall. intros c Hc. apply repeat_spec in Hc. subst c.
    unfold valid_rgb, valid_channel. lia.
  - vm_compute. reflexivity.
  - rewrite repeat_length. simpl List.length. lia.
Qed.

(** C10.  The ACO exporter reads neither the palette name, nor the file
    path, nor the list of hexadecimal strings: two calls on the same RGB
    list write the same bytes and end the same way. *)
Theorem aco_export_depends_on_rgb_only (palette_rgb : list rgb_t)
    (name1 name2 path1 path2 : string) (hex1 hex2 : list string) :
  let w1 := ExportToACO.export name1 path1 palette_rgb hex1 in
  let w2 := ExportToACO.export name2 path2 palette_rgb hex2 in
  content w1 = content w2 /\ raised w1 = raised w2 /\ w1 = w2.
Proof.
  intros w1 w2. unfold w1, w2, ExportToACO.export.
  destruct (ExportToACO.f_write [] (ExportToACO.bytearray [0; 1])) as [f [e|]].
  - repeat split.
  - destruct (ExportToACO.f_write f _) as [f' [e|]]; repeat split.
Qed.

(** ** The drawing calls that are accepted *)

Lemma pair_hex_digits (v : Z) :
  valid_channel v -> forall_chars is_hex_digit (HexColor.pair v) = true.
Proof.
  intros Hv.
  apply (below_forallb 256 (fun v => forall_chars is_hex_digit (HexColor.pair v))).
  - vm_compute. reflexivity.
  - unfold valid_channel in Hv. lia.
Qed.

(** The hexadecimal string of a valid colour is a colour that
    [ImageDraw] reads. *)
Lemma color_specifier_of_valid (rgb : rgb_t) :
  valid_rgb rgb -> is_color_specifier (convert_rgb_to_hex rgb) = true.
Proof.
  destruct rgb as [[r g] b]. intros Hc.
  rewrite (convert_rgb_to_hex_pairs r g b Hc).
  destruct Hc as (Hr & Hg & Hb).
  unfold is_color_specifier.
  rewrite !forall_chars_append, (pair_hex_digits r Hr), (pair_hex_digits g Hg),
    (pair_hex_digits b Hb).
  reflexivity.
Qed.

Lemma draw_accepted (ops : list draw_op) :
  Forall (fun op => refused op = None) ops -> draw ops = Ok ops.
Proof.
  induction 1 as [|op ops Hop _ IH]; [reflexivity|].
  cbn [draw]. now rewrite Hop, IH.
Qed.

Lemma draw_swatch_accepted (config : Config) (tl sl : string -> Q) (f2 : Q -> string)
    (i : Z) (color : Color) (rgb : rgb_t) :
  0 <= square_x config -> 0 <= square_y config -> valid_rgb rgb ->
  Forall (fun op => refused op = None) (draw_swatch config tl sl f2 i color rgb).
Proof.
  intros Hw Hh Hc. unfold draw_swatch.
  repeat constructor. cbn [refused].
  rewrite (color_specifier_of_valid rgb Hc). cbn [negb].
  destruct (Z.ltb_spec (i mod columns config * square_x config + square_x config)
                       (i mod columns config * square_x config)); [lia|].
  destruct (Z.ltb_spec (i / columns config * square_y config + square_y config)
                       (i / columns config * square_y config)); [lia|].
  reflexivity.
Qed.

Lemma draw_swatches_accepted (config : Config) (tl sl : string -> Q) (f2 : Q -> string)
    (items : list (Z * (Color * rgb_t))) :
  0 <= square_x config -> 0 <= square_y config ->
  Forall (fun item => valid_rgb (snd (snd item))) items ->
  draw (List.concat (map (fun '(i, (color, rgb)) => draw_swatch config tl sl f2 i color rgb)
                         items))
  = Ok (List.concat (map (fun '(i, (color, rgb)) => draw_swatch config tl sl f2 i color rgb)
                         items)).
Proof.
  intros Hw Hh Hv. apply draw_accepted.
  induction Hv as [|[i [color rgb]] items Hc _ IH]; [constructor|].
  cbn [map List.concat]. apply Forall_app. split; [|exact IH].
  now apply draw_swatch_accepted.
Qed.

(** What the drawing calls raise is caught by [except Exception]. *)
Lemma draw_raises (ops : list draw_op) (e : exn) :
  draw ops = Raise e -> is_Exception e = true.
Proof.
  induction ops as [|op ops IH]; cbn [draw]; [discriminate|].
  destruct (refused op) as [e'|] eqn:E.
  - intros [= <-]. destruct op; cbn [refused] in E; [|discriminate].
    destruct (negb _); [now injection E as <-|].
    destruct (_ <? _); [now injection E as <-|].
    destruct (_ <? _); [now injection E as <-|discriminate].
  - destruct (draw ops); cbn [bind]; [discriminate|]. intros [= <-]. now apply IH.
Qed.

Lemma create_palette_image_raises (config : Config) (tl sl : string -> Q) (f2 : Q -> string)
    (memory : Z -> Z -> bool) (pal : Palette) (pal_rgb : list rgb_t) (image : string) (e : exn) :
  create_palette_image config tl sl f2 memory pal pal_rgb image = Raise e ->
  is_Exception e = true.
Proof.
  unfold create_palette_image, Image_new.
  destruct (columns config =? 0); [intros [= <-]; reflexivity|].
  destruct (_ || _); cbn [bind]; [intros [= <-]; reflexivity|].
  destruct (_ || _); cbn [bind]; [intros [= <-]; reflexivity|].
  destruct (negb _); cbn [bind]; [intros [= <-]; reflexivity|].
  destruct (draw _) as [ops|e'] eqn:E; cbn [bind]; [discriminate|].
  intros [= <-]. exact (draw_raises _ _ E).
Qed.

(** ** File names *)

Lemma hd_split_acc (sep : ascii) (s field : string) :
  hd "" (split_acc sep s field) = rev_string field ++ before_first sep s.
Proof.
  revert field. induction s as [|c s IH]; intros field; simpl.
  - now rewrite append_nil_r.
  - destruct (Ascii.eqb c sep); simpl.
    + now rewrite append_nil_r.
    + rewrite IH, rev_string_cons, append_assoc. reflexivity.
Qed.

Lemma palette_base_name_spec (image_path : string) :
  palette_base_name image_path = before_first "." (PosixPath.basename image_path).
Proof. unfold palette_base_name, get_image_info, split. now rewrite hd_split_acc. Qed.




(** ** The layout of the swatch image *)

Lemma nth_error_enumerate_from {A : Type} (l : list A) (start : Z) (i : nat) (a : A) :
  nth_error l i = Some a ->
  nth_error (enumerate_from start l) i = Some (start + Z.of_nat i, a).
Proof.
  revert start i. induction l as [|x l IH]; intros start [|i] H; simpl in *; try discriminate.
  - injection H as ->. now rewrite Z.add_0_r.
  - rewrite (IH (start + 1) i H). do 2 f_equal. lia.
Qed.

Lemma map_fst_enumerate_from {A : Type} (l : list A) (start : Z) :
  map fst (enumerate_from start l)
  = map (fun k => start + Z.of_nat k) (seq 0 (List.length l)).
Proof.
  revert start. induction l as [|x l IH]; intros start; simpl; [reflexivity|].
  rewrite IH, <- seq_shift, map_map. f_equal; [lia|].
  apply map_ext. intros k. lia.
Qed.

Lemma nth_error_combine_map {A B : Type} (f : A -> B) (l : list A) (i : nat) (a : A) :
  nth_error l i = Some a ->
  nth_error (combine l (map f l)) i = Some (a, f a).
Proof.
  revert i. induction l as [|x l IH]; intros [|i] H; simpl in *; try discriminate.
  - now injection H as ->.
  - now apply IH.
Qed.

(** In a concatenation of blocks of three, block [i] starts at [3 * i]. *)
Lemma nth_error_concat_triples {A B : Type} (f : A -> list B) (l : list A) (i : nat)
    (a : A) (x y z : B) :
  (forall a', List.length (f a') = 3%nat) ->
  nth_error l i = Some a ->
  f a = [x; y; z] ->
  nth_error (List.concat (map f l)) (3 * i) = Some x.
Proof.
  intros Hlen. revert i. induction l as [|a' l IH]; intros [|i] H Hf; simpl in H; try discriminate.
  - injection H as ->. cbn [map List.concat]. now rewrite Hf.
  - cbn [map List.concat]. specialize (Hlen a').
    destruct (f a') as [|b1 [|b2 [|b3 [|? ?]]]]; try discriminate.
    replace (3 * S i)%nat with (S (S (S (3 * i)))) by lia.
    cbn [List.app nth_error]. now apply IH.
Qed.

Lemma ceil_div_spec (n c : Z) :
  0 < c -> (ceil_div n c - 1) * c < n <= ceil_div n c * c.
Proof.
  intros Hc. unfold ceil_div.
  pose proof (Z.div_mod (- n) c ltac:(lia)) as Hdm.
  pose proof (Z.mod_pos_bound (- n) c Hc) as Hb.
  nia.
Qed.

Lemma Forall_enumerate_combine {A B : Type} (P : B -> Prop) (l1 : list A) (l2 : list B)
    (start : Z) :
  Forall P l2 ->
  Forall (fun item => P (snd (snd item))) (enumerate_from start (combine l1 l2)).
Proof.
  revert l2 start. induction l1 as [|a l1 IH]; intros [|b l2] start H; cbn; try constructor.
  - inversion H; assumption.
  - apply IH. inversion H; assumption.
Qed.

Section Layout.

Variable config : Config.
Variable title_getlength subtitle_getlength : string -> Q.
Variable format_2f : Q -> string.
Variable enough_memory : Z -> Z -> bool.

Let c := columns config.
Let w := square_x config.
Let h := square_y config.

(** C8, as amended.  Take a number of columns [c] that is positive,
    squares of width [w] and height [h] that are not negative, and a
    palette of [N] colours whose channels are bytes; let [L] be the
    ceiling of [N / c], the least integer with [N <= L * c].  When the
    sides [c * w] and [L * h] of the canvas are below [2 ^ 31] and the
    canvas can be allocated, the image is [c * w] wide and [L * h] high,
    and the square of the colour of index [i] is the rectangle whose
    top-left corner is [((i mod c) * w, (i / c) * h)]. *)
Theorem swatch_layout (pal : Palette) (image : string) :
  let N := Z.of_nat (List.length (colors pal)) in
  let L := ceil_div N c in
  0 < c < 2 ^ 53 -> N < 2 ^ 53 -> 0 <= w -> 0 <= h ->
  Forall valid_rgb (palette_to_rgb pal) ->
  c * w < 2 ^ 31 -> L * h < 2 ^ 31 -> enough_memory (c * w) (L * h) = true ->
  exists img,
    create_palette_image config title_getlength subtitle_getlength format_2f enough_memory
                         pal (palette_to_rgb pal) image = Ok img /\
    im_width img = c * w /\
    im_height img = L * h /\
    (L - 1) * c < N <= L * c /\
    forall (i : nat) (color : Color),
      nth_error (colors pal) i = Some color ->
      let x := (Z.of_nat i mod c) * w in
      let y := (Z.of_nat i / c) * h in
      nth_error (im_ops img) (3 * i)
      = Some (Rectangle x y (x + w) (y + h) (rgb color) (convert_rgb_to_hex (rgb color)) 5).
Proof.
  intros N L [Hc _] _ Hw Hh Hv Hwide Hhigh Hmem.
  pose proof (ceil_div_spec N c Hc) as HL. fold L in HL.
  assert (0 <= L) by (assert (0 <= N) by (unfold N; lia); nia).
  unfold create_palette_image. fold c w h N.
  destruct (Z.eqb_spec c 0) as [E|_]; [lia|]. fold L.
  unfold Image_new.
  destruct (Z.ltb_spec (c * w) 0) as [E|_]; [nia|].
  destruct (Z.ltb_spec (L * h) 0) as [E|_]; [nia|].
  destruct (Z.leb_spec (2 ^ 31) (c * w)) as [E|_]; [lia|].
  destruct (Z.leb_spec (2 ^ 31) (L * h)) as [E|_]; [lia|].
  rewrite Hmem.
  cbn [orb negb bind im_width im_height im_background].
  rewrite draw_swatches_accepted;
    [|exact Hw|exact Hh|apply Forall_enumerate_combine; exact Hv].
  cbn [bind].
  eexists. split; [reflexivity|].
  cbn [im_width im_height im_ops].
  split; [reflexivity|]. split; [reflexivity|]. split; [lia|].
  intros i color Hi.
  unfold palette_to_rgb, enumerate.
  eapply (nth_error_concat_triples _ _ i (Z.of_nat i, (color, rgb color))).
  - intros [k [col r]]. reflexivity.
  - rewrite (nth_error_enumerate_from _ 0 i (color, rgb color)); [reflexivity|].
    now apply nth_error_combine_map.
  - unfold draw_swatch. fold c w h. reflexivity.
Qed.

End Layout.

(** The default configuration, three columns of squares of 100 by 100,
    and a palette of four colours: a canvas of 300 by 200, the fourth
    square at (0, 100). *)
Lemma swatch_layout_witness :
  let pal := mkPalette [mkColor (255, 255, 255) 0.4 255; mkColor (0, 0, 0) 0.3 0;
                        mkColor (255, 0, 0) 0.2 54; mkColor (0, 255, 0) 0.1 182] in
  exists img,
    create_palette_image (default_config "/out") (fun _ => 70%Q) (fun _ => 40%Q)
                         (fun _ => "0.00") (fun _ _ => true)
                         pal (palette_to_rgb pal) "/home/user/a.png" = Ok img /\
    im_width img = 300 /\ im_height img = 200 /\
    nth_error (im_ops img) 9 = Some (Rectangle 0 100 100 200 (0, 255, 0) "#00FF00" 5).
Proof.
  intros pal.
  destruct (swatch_layout (default_config "/out") (fun _ => 70%Q) (fun _ => 40%Q)
              (fun _ => "0.00") (fun _ _ => true) pal "/home/user/a.png")
    as (img & Hi & Hw & Hh & HL & Hops).
  - simpl. lia.
  - simpl. lia.
  - simpl. lia.
  - simpl. lia.
  - repeat constructor; simpl; lia.
  - simpl. lia.
  - vm_compute. reflexivity.
  - reflexivity.
  - exists img. split; [exact Hi|]. split; [exact Hw|]. split; [exact Hh|].
    exact (Hops 3%nat (mkColor (0, 255, 0) 0.1 182) eq_refl).
Defined.

(** Against C8 as first stated, for a palette of one colour.  Without
    columns the division raises; with a negative number of columns or a
    negative square width, with a square width of [2 ^ 31], and with a
    canvas for which the memory lacks, [Image.new] raises; with a channel
    above 255 the outline of the square is not a colour and the drawing
    raises: in each case there is no image. *)
Lemma swatch_layout_no_canvas :
  let render (columns square_x : Z) (enough_memory : Z -> Z -> bool) (color : rgb_t) :=
    let pal := mkPalette [mkColor color 1 54] in
    create_palette_image (mkConfig 9 square_x 100 columns 18 14 "/out")
                         (fun _ => 70%Q) (fun _ => 40%Q) (fun _ => "100.00") enough_memory
                         pal (palette_to_rgb pal) "/home/user/a.png" in
  render 0 100 (fun _ _ => true) (255, 0, 0) = Raise ZeroDivisionError /\
  render (-3) 100 (fun _ _ => true) (255, 0, 0)
    = Raise (ValueError "Width and height must be >= 0") /\
  render 3 (-100) (fun _ _ => true) (255, 0, 0)
    = Raise (ValueError "Width and height must be >= 0") /\
  render 1 (2 ^ 31) (fun _ _ => true) (255, 0, 0) = Raise OverflowError /\
  render 3 100 (fun _ _ => false) (255, 0, 0) = Raise MemoryError /\
  render 3 100 (fun _ _ => true) (256, 0, 0) = Raise (ValueError "unknown color specifier").
Proof. repeat split. Qed.

(** ** The GPL exporter *)

Lemma terminated_app (t : string) (l1 l2 : list string) :
  terminated t (l1 ++ l2) = terminated t l1 ++ terminated t l2.
Proof.
  induction l1 as [|l l1 IH]; simpl; [reflexivity|].
  now rewrite IH, !append_assoc.
Qed.

Lemma enumerate_combine_range {A : Type} (l : list A) :
  enumerate l = combine (range (List.length l)) l.
Proof.
  unfold enumerate, range.
  assert (H : forall start, enumerate_from start l
                = combine (map (fun k => start + Z.of_nat k) (seq 0 (List.length l))) l).
  { induction l as [|a l IH]; intros start; simpl; [reflexivity|].
    rewrite IH, <- seq_shift, map_map. f_equal; [f_equal; lia|].
    f_equal. apply map_ext. intros k. lia. }
  rewrite H. f_equal.
Qed.

Lemma gpl_fold_lines (l : list (Z * rgb_t)) (output : string) :
  fold_left (fun output '(i, color) => output ++ ExportToGPL.color_line i color) l output
  = output ++ terminated ExportToGPL.nl (map (fun '(i, color) => gpl_color_line i color) l).
Proof.
  revert output. induction l as [|[i [[r g] b]] l IH]; intros output; simpl.
  - now rewrite append_nil_r.
  - rewrite IH. unfold ExportToGPL.color_line, gpl_color_line, ExportToGPL.nl.
    now string_norm.
Qed.

Lemma map_combine_same_length {A B : Type} (l : list A) (l' : list B) :
  List.length l = List.length l' ->
  map fst (combine l l') = l /\ map snd (combine l l') = l'.
Proof.
  revert l'. induction l as [|a l IH]; intros [|b l'] H; simpl in *; try discriminate; auto.
  destruct (IH l') as [-> ->]; [lia | auto].
Qed.

Lemma count_char_append (c : ascii) (s t : string) :
  count_char c (s ++ t) = (count_char c s + count_char c t)%nat.
Proof. induction s as [|a s IH]; simpl; [reflexivity|]. rewrite IH. lia. Qed.

Lemma count_char_absent (c : ascii) (s : string) :
  forall_chars (fun a => negb (Ascii.eqb a c)) s = true -> count_char c s = 0%nat.
Proof.
  induction s as [|a s IH]; simpl; [reflexivity|].
  intros H. apply andb_true_iff in H. destruct H as [Ha Hs].
  apply negb_true_iff in Ha. now rewrite Ha, IH.
Qed.

Lemma str_int_no_line_feed (n : Z) : count_char "010" (str_int n) = 0%nat.
Proof.
  apply count_char_absent, str_int_chars; [|reflexivity].
  intros c Hc. unfold is_digit, in_range in Hc.
  destruct (Ascii.eqb_spec c "010") as [->|_]; [discriminate Hc|reflexivity].
Qed.

Lemma count_terminated (ls : list string) :
  count_char "010" (terminated ExportToGPL.nl ls)
  = (List.length ls + list_sum (map (count_char "010") ls))%nat.
Proof.
  induction ls as [|l ls IH]; [reflexivity|].
  cbn [terminated map list_sum List.length].
  rewrite !count_char_append, IH. unfold ExportToGPL.nl, list_sum. cbn [fold_right].
  change (count_char "010" (String "010" "")) with 1%nat. lia.
Qed.

Lemma gpl_color_lines_no_line_feed (l : list (Z * rgb_t)) :
  list_sum (map (count_char "010") (map (fun '(i, color) => gpl_color_line i color) l)) = 0%nat.
Proof.
  induction l as [|[i [[r g] b]] l IH]; [reflexivity|].
  cbn [map]. unfold list_sum in *. cbn [fold_right]. rewrite IH. unfold gpl_color_line.
  rewrite !count_char_append, !str_int_no_line_feed. reflexivity.
Qed.

(** C6.  The GPL exporter writes, each followed by a line feed, the six
    header lines [GIMP Palette], [Name: {palette_name}], [Columns: 5],
    [#], [# Number : {N}], [#], then one line [{R} {G} {B} Index {i}] per
    colour, in the order of the palette, [i] running over 0, ..., N - 1.
    The text holds [6 + N] line feeds besides those of the palette name:
    it has exactly [6 + N] lines when the name is on one line. *)
Theorem gpl_export_lines (palette_name filepath : string) (palette_rgb : list rgb_t)
    (palette_hex : list string) :
  let N := List.length palette_rgb in
  let header := gpl_header palette_name (Z.of_nat N) in
  let color_lines :=
    map (fun '(i, color) => gpl_color_line i color) (combine (range N) palette_rgb) in
  ExportToGPL.export palette_name filepath palette_rgb palette_hex
    = mkWritten (TextFile (terminated ExportToGPL.nl (header ++ color_lines))) None /\
  List.length header = 6%nat /\
  List.length color_lines = N /\
  map fst (combine (range N) palette_rgb) = range N /\
  map snd (combine (range N) palette_rgb) = palette_rgb /\
  count_char "010" (terminated ExportToGPL.nl (header ++ color_lines))
  = (6 + N + count_char "010" palette_name)%nat.
Proof.
  cbv zeta.
  assert (Hr : List.length (range (List.length palette_rgb)) = List.length palette_rgb).
  { unfold range. now rewrite length_map, length_seq. }
  assert (Hn : List.length (map (fun '(i, color) => gpl_color_line i color)
                              (combine (range (List.length palette_rgb)) palette_rgb))
               = List.length palette_rgb)
    by (rewrite length_map, length_combine, Hr; apply Nat.min_id).
  split; [|split; [reflexivity|split; [|split; [|split]]]].
  - unfold ExportToGPL.export. rewrite gpl_fold_lines, enumerate_combine_range.
    rewrite terminated_app. unfold gpl_header, ExportToGPL.nl. cbn [terminated].
    now string_norm.
  - exact Hn.
  - now apply map_combine_same_length.
  - now apply map_combine_same_length.
  - rewrite count_terminated, length_app, map_app, list_sum_app, Hn.
    rewrite gpl_color_lines_no_line_feed. unfold gpl_header.
    cbn [List.length map]. unfold list_sum. cbn [fold_right].
    rewrite !count_char_append, str_int_no_line_feed.
    simpl count_char. lia.
Qed.

(** ** Index resolution *)

Lemma lstrip_word_append (s t : string) :
  word s -> lstrip (s ++ t) = s ++ t.
Proof.
  intros [Hne Hs]. destruct s as [|c s]; [congruence|]. simpl in *.
  apply andb_true_iff in Hs. destruct Hs as [Hc _].
  apply negb_true_iff in Hc. now rewrite Hc.
Qed.

Lemma word_rev (s : string) : word s -> word (rev_string s).
Proof.
  intros [Hne Hs]. split.
  - intros E. apply Hne. rewrite <- (rev_string_involutive s), E. reflexivity.
  - now rewrite forall_chars_rev.
Qed.

Lemma strip_words (s t u : string) :
  word s -> word u -> strip (s ++ t ++ u) = s ++ t ++ u.
Proof.
  intros Hs Hu. unfold strip, rstrip.
  rewrite (lstrip_word_append s _ Hs).
  replace (s ++ t ++ u) with ((s ++ t) ++ u) by apply append_assoc.
  rewrite rev_string_append.
  rewrite (lstrip_word_append _ _ (word_rev u Hu)).
  now rewrite <- rev_string_append, rev_string_involutive.
Qed.

Lemma strip_word (s : string) : word s -> strip s = s.
Proof.
  intros Hs. rewrite <- (append_nil_r s) at 1.
  unfold strip, rstrip.
  rewrite (lstrip_word_append s _ Hs), append_nil_r.
  rewrite <- (append_nil_r (rev_string s)).
  rewrite (lstrip_word_append _ _ (word_rev s Hs)), append_nil_r.
  apply rev_string_involutive.
Qed.

Lemma word_no_space (s : string) :
  word s -> forall_chars (fun c => negb (Ascii.eqb c " ")) s = true.
Proof.
  intros [_ Hs]. revert Hs. apply forall_chars_impl.
  intros c Hc. apply negb_true_iff in Hc. apply negb_true_iff.
  destruct (Ascii.eqb_spec c " ") as [->|]; [discriminate Hc|reflexivity].
Qed.

Lemma split_acc_field (sep : ascii) (s field : string) :
  forall_chars (fun c => negb (Ascii.eqb c sep)) s = true ->
  (forall t, split_acc sep (s ++ String sep t) field
             = (rev_string field ++ s) :: split_acc sep t "") /\
  split_acc sep s field = [rev_string field ++ s].
Proof.
  revert field. induction s as [|c s IH]; intros field Hs; simpl in *.
  - rewrite Ascii.eqb_refl, append_nil_r. auto.
  - apply andb_true_iff in Hs. destruct Hs as [Hc Hs].
    apply negb_true_iff in Hc. rewrite Hc.
    destruct (IH (String c field) Hs) as [IH1 IH2].
    rewrite IH2. split; [intros t; rewrite IH1|];
      now rewrite rev_string_cons, append_assoc.
Qed.

(** The fields of a command followed by one token, and of a command
    alone. *)
Lemma split_command_token (cmd tok : string) :
  word cmd -> word tok ->
  split " " (strip (cmd ++ " " ++ tok)) = [cmd; tok].
Proof.
  intros Hc Ht. rewrite (strip_words cmd " " tok Hc Ht). unfold split.
  change (" " ++ tok) with (String " " tok).
  destruct (split_acc_field " " cmd "" (word_no_space cmd Hc)) as [-> _].
  destruct (split_acc_field " " tok "" (word_no_space tok Ht)) as [_ ->].
  reflexivity.
Qed.

Lemma split_command (cmd : string) :
  word cmd -> split " " (strip cmd) = [cmd].
Proof.
  intros Hc. rewrite (strip_word cmd Hc). unfold split.
  now destruct (split_acc_field " " cmd "" (word_no_space cmd Hc)) as [_ ->].
Qed.

(** How a command followed by one token is resolved. *)
Lemma get_indice_command_token (cmd tok : string) (pl : PaletteList) (all : bool) :
  word cmd -> word tok ->
  get_indice_from_option (cmd ++ " " ++ tok) pl all =
  let n := Z.of_nat (List.length (palettes pl)) in
  if startswith "-" tok then first_index n
  else if all && (String.eqb tok "all" || String.eqb tok "ALL") then Some (-1)
  else
    match int_of_str tok with
    | Some k => if (1 <=? k) && (k <=? n) then Some k else None
    | None => None
    end.
Proof.
  intros Hc Ht. unfold get_indice_from_option.
  rewrite (split_command_token cmd tok Hc Ht). cbn [List.length Z.of_nat nth].
  change (1 <? Z.pos (Pos.of_succ_nat 1)) with true. cbv iota zeta.
  assert (Hdash : startswith "--" tok = true -> startswith "-" tok = true).
  { destruct tok as [|c tok]; cbn [startswith]; [discriminate|].
    destruct (Ascii.eqb "-" c); [reflexivity|discriminate]. }
  destruct (startswith "-" tok) eqn:E1.
  - simpl. unfold first_index.
    destruct (Z.leb_spec 1 (Z.of_nat (List.length (palettes pl))));
      destruct (Z.ltb_spec (Z.of_nat (List.length (palettes pl))) 1); try lia; reflexivity.
  - destruct (startswith "--" tok) eqn:E2; [specialize (Hdash eq_refl); discriminate|].
    cbn [orb].
    destruct (all && _); [reflexivity|].
    destruct (int_of_str tok) as [k|]; [|reflexivity].
    destruct (Z.leb_spec 1 k); destruct (Z.ltb_spec k 1); try lia; simpl; try reflexivity.
    destruct (Z.leb_spec k (Z.of_nat (List.length (palettes pl))));
      destruct (Z.ltb_spec (Z.of_nat (List.length (palettes pl))) k); try lia; reflexivity.
Qed.

Lemma get_indice_command (cmd : string) (pl : PaletteList) (all : bool) :
  word cmd ->
  get_indice_from_option cmd pl all = first_index (Z.of_nat (List.length (palettes pl))).
Proof.
  intros Hc. unfold get_indice_from_option.
  rewrite (split_command cmd Hc). cbn [List.length Z.of_nat].
  change (1 <? Z.pos (Pos.of_succ_nat 0)) with false. cbv iota zeta.
  unfold first_index.
  destruct (Z.leb_spec 1 (Z.of_nat (List.length (palettes pl))));
    destruct (Z.ltb_spec (Z.of_nat (List.length (palettes pl))) 1); try lia; reflexivity.
Qed.

Lemma occurs_append (c : ascii) (s t : string) :
  occurs c (s ++ t) = occurs c s || occurs c t.
Proof.
  induction s as [|a s IH]; simpl; [reflexivity|]. now rewrite IH, orb_assoc.
Qed.

Lemma occurs_rev (c : ascii) (s : string) : occurs c (rev_string s) = occurs c s.
Proof.
  induction s as [|a s IH]; [reflexivity|].
  rewrite rev_string_cons, occurs_append, IH. simpl.
  now rewrite orb_false_r, orb_comm.
Qed.

Lemma occurs_lstrip_int (c : ascii) (s : string) :
  is_int_space c = false -> occurs c (lstrip_int s) = occurs c s.
Proof.
  intros Hc. induction s as [|a s IH]; simpl; [reflexivity|].
  destruct (is_int_space a) eqn:Ea; [|reflexivity].
  rewrite IH. destruct (Ascii.eqb_spec a c) as [->|]; [congruence|reflexivity].
Qed.

Lemma ungroup_rejects (c : ascii) (s : string) (after_digit : bool) :
  occurs c s = true -> is_digit c = false -> c <> "_"%char ->
  ungroup s after_digit = None.
Proof.
  intros Ho Hd Hu. revert after_digit Ho.
  induction s as [|a s IH]; intros after_digit Ho; simpl in *; [discriminate|].
  destruct (Ascii.eqb_spec a c) as [->|Hne].
  - rewrite Hd. destruct (Ascii.eqb_spec c "_"); [contradiction|reflexivity].
  - simpl in Ho. destruct (is_digit a).
    + now rewrite IH.
    + destruct (Ascii.eqb a "_"); [|reflexivity].
      destruct after_digit; [now apply IH|reflexivity].
Qed.

(** A token with a character that is neither a digit, nor a sign, nor
    an underscore, nor white space is not the text of an integer. *)
Lemma int_of_str_rejects (c : ascii) (tok : string) :
  occurs c tok = true ->
  is_digit c = false -> c <> "_"%char -> c <> "-"%char -> c <> "+"%char ->
  is_int_space c = false ->
  int_of_str tok = None.
Proof.
  intros Ho Hd Hu Hm Hp Hs. unfold int_of_str.
  assert (Ho' : occurs c (strip_int tok) = true).
  { unfold strip_int. now rewrite occurs_rev, occurs_lstrip_int, occurs_rev, occurs_lstrip_int. }
  destruct (strip_int tok) as [|a s]; [reflexivity|].
  assert (Hv : forall s', occurs c s' = true -> digits_value s' = None).
  { intros s' H. unfold digits_value. now rewrite (ungroup_rejects c s' false H Hd Hu). }
  simpl in Ho'.
  destruct (Ascii.eqb_spec a "-") as [->|_].
  - destruct (Ascii.eqb_spec "-"%char c); [congruence|]. now rewrite Hv.
  - destruct (Ascii.eqb_spec a "+") as [->|_].
    + destruct (Ascii.eqb_spec "+"%char c); [congruence|]. now rewrite Hv.
    + now apply Hv.
Qed.

(** C1, as amended.  A command followed by a token is resolved against
    a collection of [n] palettes as follows.  The token [all] or [ALL],
    when [all] is allowed, gives the wildcard [-1]; no other spelling of
    "all" does.  A token that starts with ['-'] is an option, not an index:
    like a command without token it gives index 1, which is valid when the
    collection is not empty.  Any other token is read as an integer [k]:
    the result is [k] when [1 <= k <= n] and invalid otherwise, so ["0"]
    and the numeral of [n + 1] are invalid; a token that is not the text
    of an integer is invalid. *)
Theorem index_resolution (cmd : string) (pl : PaletteList) (all : bool) :
  word cmd ->
  let n := Z.of_nat (List.length (palettes pl)) in
  let resolve (tok : string) := get_indice_from_option (cmd ++ " " ++ tok) pl all in
  (* the wildcard *)
  (all = true -> resolve "all" = Some (-1) /\ resolve "ALL" = Some (-1)) /\
  (forall tok, In tok mixed_case_all -> resolve tok = None) /\
  (all = false -> resolve "all" = None /\ resolve "ALL" = None) /\
  (* integers *)
  (forall k, 1 <= k <= n -> resolve (str_int k) = Some k) /\
  resolve "0" = None /\
  resolve (str_int (n + 1)) = None /\
  (forall tok k, word tok -> startswith "-" tok = false -> int_of_str tok = Some k ->
     resolve tok = if (1 <=? k) && (k <=? n) then Some k else None) /\
  (* other tokens *)
  (forall tok, word tok -> startswith "-" tok = false -> int_of_str tok = None ->
     all = false \/ (tok <> "all" /\ tok <> "ALL") -> resolve tok = None) /\
  (* options and the omitted token *)
  (forall tok, word tok -> startswith "-" tok = true -> resolve tok = first_index n) /\
  get_indice_from_option cmd pl all = first_index n /\
  (1 <= n -> get_indice_from_option cmd pl all = Some 1).
Proof.
  intros Hcmd n resolve.
  assert (Hword_lit : forall s, s <> "" ->
            forall_chars (fun c => negb (is_space c)) s = true -> word s) by (intros; split; auto).
  assert (Hstr : forall k, word (str_int k)).
  { intros k. split.
    - destruct (str_int_cases k) as [[_ ->]|[(p & _ & ->)|(p & _ & ->)]]; try discriminate.
      destruct (to_uint_head p) as (c & s & -> & _). discriminate.
    - apply str_int_chars; [intros c Hc|reflexivity].
      unfold is_digit, is_space, in_range in *.
      destruct (code c) as [|q]; [discriminate|].
      repeat (destruct q as [q|q|]; try discriminate; try reflexivity). }
  assert (Hnum : forall tok k, word tok -> startswith "-" tok = false -> int_of_str tok = Some k ->
            resolve tok = if (1 <=? k) && (k <=? n) then Some k else None).
  { intros tok k Ht Hd Hk. unfold resolve.
    rewrite (get_indice_command_token cmd tok pl all Hcmd Ht). cbv zeta. fold n.
    rewrite Hd, Hk.
    destruct all; [|reflexivity]. cbn [andb].
    destruct (String.eqb_spec tok "all") as [->|_]; [discriminate Hk|].
    destruct (String.eqb_spec tok "ALL") as [->|_]; [discriminate Hk|reflexivity]. }
  assert (Hpos : forall k, 0 <= k -> startswith "-" (str_int k) = false).
  { intros k Hk.
    destruct (str_int_cases k) as [[_ ->]|[(p & _ & ->)|(p & -> & _)]]; [reflexivity| |lia].
    destruct (to_uint_head p) as (c & s & -> & Hc & _). cbn [startswith].
    destruct (Ascii.eqb_spec "-"%char c) as [<-|]; [discriminate Hc|reflexivity]. }
  repeat match goal with |- _ /\ _ => split end.
  - intros ->. unfold resolve.
    rewrite !get_indice_command_token by first [exact Hcmd | apply Hword_lit; [discriminate|reflexivity]].
    split; reflexivity.
  - intros tok Hin. unfold resolve.
    rewrite get_indice_command_token;
      [|exact Hcmd|simpl in Hin; intuition (subst tok; apply Hword_lit; [discriminate|reflexivity])].
    simpl in Hin. intuition (subst tok; try reflexivity; now destruct all).
  - intros ->. unfold resolve.
    rewrite !get_indice_command_token by first [exact Hcmd | apply Hword_lit; [discriminate|reflexivity]].
    split; reflexivity.
  - intros k Hk. assert (Hk0 : 0 <= k) by lia.
    rewrite (Hnum (str_int k) k (Hstr k) (Hpos k Hk0) (int_of_str_str_int k)).
    destruct (Z.leb_spec 1 k); destruct (Z.leb_spec k n); try lia. reflexivity.
  - change "0" with (str_int 0).
    rewrite (Hnum (str_int 0) 0 (Hstr 0) (Hpos 0 (Z.le_refl 0)) (int_of_str_str_int 0)). reflexivity.
  - assert (Hn0 : 0 <= n + 1) by (unfold n; lia).
    rewrite (Hnum _ (n + 1) (Hstr _) (Hpos _ Hn0) (int_of_str_str_int _)).
    destruct (Z.leb_spec (n + 1) n); [lia|]. now rewrite andb_false_r.
  - exact Hnum.
  - intros tok Ht Hd Hk Hall. unfold resolve.
    rewrite (get_indice_command_token cmd tok pl all Hcmd Ht). cbv zeta.
    rewrite Hd, Hk.
    destruct Hall as [->|[H1 H2]]; [reflexivity|].
    destruct (String.eqb_spec tok "all"); [contradiction|].
    destruct (String.eqb_spec tok "ALL"); [contradiction|].
    now rewrite andb_false_r.
  - intros tok Ht Hd. unfold resolve.
    rewrite (get_indice_command_token cmd tok pl all Hcmd Ht). cbv zeta. now rewrite Hd.
  - apply (get_indice_command cmd pl all Hcmd).
  - intros Hn. rewrite (get_indice_command cmd pl all Hcmd). unfold first_index. fold n.
    destruct (Z.leb_spec 1 n); [reflexivity|lia].
Qed.

(** On five palettes, after the command [/csv]: [ALL] is the wildcard,
    [3] is the third palette, [6] is invalid. *)
Lemma index_resolution_witness :
  word "/csv" /\
  get_indice_from_option "/csv ALL" (sample_palettes 5) true = Some (-1) /\
  get_indice_from_option "/csv 3" (sample_palettes 5) true = Some 3 /\
  get_indice_from_option "/csv 6" (sample_palettes 5) true = None.
Proof.
  assert (H : word "/csv") by (split; [discriminate|reflexivity]).
  split; [exact H|].
  destruct (index_resolution "/csv" (sample_palettes 5) true H)
    as (Hall & _ & _ & Hk & _ & Hn & _).
  split; [exact (proj2 (Hall eq_refl))|].
  split; [apply (Hk 3); simpl; lia | exact Hn].
Defined.

(** Against C1 as first stated: on five palettes, with [all]
    allowed, the spelling [All] is invalid; the token [-d], which is
    neither an integer nor "all", gives index 1; and on an empty collection
    a command without token is invalid. *)
Lemma index_resolution_not_case_insensitive :
  get_indice_from_option "/csv All" (sample_palettes 5) true = None /\
  get_indice_from_option "/csv -d" (sample_palettes 5) true = Some 1 /\
  get_indice_from_option "/csv" (sample_palettes 0) true = None.
Proof. repeat split. Qed.

(** ** The extraction batch *)

Section Batch.

Variable config : Config.
Variable title_getlength subtitle_getlength : string -> Q.
Variable format_2f : Q -> string.
Variable enough_memory : Z -> Z -> bool.
Variable image_save : string -> Image -> result unit.
Variable extract_colors : string -> result Palette.

Let run := extract config title_getlength subtitle_getlength format_2f
    enough_memory image_save extract_colors.
Let loop :=
  extract_loop config title_getlength subtitle_getlength format_2f
      enough_memory image_save extract_colors.
Let save := save_palette config title_getlength subtitle_getlength format_2f
    enough_memory image_save.
Let records := records_of config title_getlength subtitle_getlength format_2f
    enough_memory image_save
                          extract_colors.
Let logged := log_of config title_getlength subtitle_getlength format_2f enough_memory image_save
                     extract_colors.

(** Rendering raises what [Image.new], the drawing calls or the file
    system raise. *)
Lemma save_palette_raises (pal : Palette) (pal_rgb : list rgb_t) (image : string) (e : exn) :
  (forall p img, image_save p img <> Raise KeyboardInterrupt) ->
  save pal pal_rgb image = Raise e -> is_Exception e = true.
Proof.
  intros Hfs. unfold save, save_palette.
  destruct (create_palette_image _ _ _ _ _ _ _ _) as [img|e'] eqn:Ec; cbn [bind].
  - destruct (image_save _ _) as [u|e'] eqn:E; cbn [bind]; [discriminate|].
    intros [= <-]. destruct e'; try reflexivity. exfalso. exact (Hfs _ _ E).
  - intros [= <-]. exact (create_palette_image_raises _ _ _ _ _ _ _ _ _ Ec).
Qed.

Lemma extract_loop_all_extracted (images : list string) (st : batch_state) :
  (forall p img, image_save p img <> Raise KeyboardInterrupt) ->
  (forall image, In image images -> exists pal, extract_colors image = Ok pal) ->
  loop images st
  = (mkBatch (batch_palettes st ++ records images) (batch_log st ++ logged images), None).
Proof.
  intros Hfs. revert st.
  induction images as [|image images IH]; intros st Hex.
  - simpl. unfold records, logged, records_of, log_of. simpl.
    rewrite !app_nil_r. now destruct st.
  - destruct (Hex image (or_introl eq_refl)) as [pal Hpal].
    assert (Hex' : forall i, In i images -> exists pal, extract_colors i = Ok pal)
      by (intros i Hi; apply Hex; now right).
    unfold loop in *. cbn [extract_loop]. unfold get_palette. rewrite Hpal. cbn [bind].
    unfold records, logged, records_of, log_of in *. cbn [flat_map].
    unfold processed at 1 3. rewrite Hpal.
    fold save.
    destruct (save pal (palette_to_rgb pal) image) as [path|e] eqn:Es.
    + rewrite (IH _ Hex'). cbn [batch_palettes batch_log fst snd].
      now rewrite <- !app_assoc.
    + rewrite (save_palette_raises _ _ _ _ Hfs Es).
      rewrite (IH _ Hex'). cbn [batch_palettes batch_log fst snd List.app].
      now rewrite <- !app_assoc.
Qed.

(** X26.  When the extraction of every path of the batch succeeds, the
    loop runs to its end: a path whose rendering or saving fails is logged
    and skipped, and the collection holds, in the order of the input, one
    record for each path that was rendered and saved. *)
Theorem batch_skips_render_failures (images : list string) :
  (forall p img, image_save p img <> Raise KeyboardInterrupt) ->
  (forall image, In image images -> exists pal, extract_colors image = Ok pal) ->
  run images = (mkBatch (records images) (logged images), None) /\
  (forall image pal,
     In image images -> extract_colors image = Ok pal ->
     match save pal (palette_to_rgb pal) image with
     | Ok path =>
         In (mkPaletteObject pal image path) (records images)
     | Raise e =>
         In (GenerationError image e) (logged images) /\
         forall path, ~ In (mkPaletteObject pal image path) (records images)
     end) /\
  map image_path (records images)
  = filter (fun image => match fst (processed config title_getlength subtitle_getlength
                                      format_2f enough_memory image_save extract_colors image) with
                         | [] => false
                         | _ => true
                         end) images.
Proof.
  intros Hfs Hex. split; [|split].
  - unfold run, extract. fold loop.
    now rewrite (extract_loop_all_extracted images _ Hfs Hex).
  - intros image pal Hin Hpal.
    assert (Hproc : processed config title_getlength subtitle_getlength format_2f
        enough_memory image_save
                      extract_colors image
                    = match save pal (palette_to_rgb pal) image with
                      | Ok path => ([mkPaletteObject pal image path], [])
                      | Raise e => ([], [GenerationError image e])
                      end)
      by (unfold processed; now rewrite Hpal).
    unfold records, logged, records_of, log_of.
    destruct (save pal (palette_to_rgb pal) image) as [path|e] eqn:Es.
    + apply in_flat_map. exists image. split; [exact Hin|]. rewrite Hproc. now left.
    + split.
      * apply in_flat_map. exists image. split; [exact Hin|]. rewrite Hproc. now left.
      * intros path Hrec. apply in_flat_map in Hrec. destruct Hrec as (image' & _ & Hrec).
        unfold processed in Hrec.
        destruct (extract_colors image') as [pal'|] eqn:Epal'; [|contradiction].
        fold save in Hrec.
        destruct (save pal' (palette_to_rgb pal') image') as [path'|] eqn:Es'; [|contradiction].
        destruct Hrec as [Hrec|[]]. injection Hrec as -> -> ->.
        rewrite Es in Es'. discriminate.
  - unfold records, records_of. clear Hex.
    induction images as [|image images IH]; [reflexivity|].
    cbn [flat_map filter]. rewrite map_app, IH.
    unfold processed at 1 3.
    destruct (extract_colors image) as [pal|]; [|reflexivity].
    destruct (save_palette _ _ _ _ _ _ _ _); reflexivity.
Qed.

End Batch.

(** Three images are extracted; the file of the second cannot be
    written: the first and the third are in the collection, the second is
    logged. *)
Lemma batch_skips_render_failures_witness :
  let config := default_config "/out" in
  let extract_colors := extract_except "" in
  let image_save := save_except "/out/b_palette.png" in
  let pal := mkPalette [mkColor (0, 0, 0) 1 0] in
  extract config (fun _ => 70%Q) (fun _ => 40%Q) (fun _ => "100.00")
      (fun _ _ => true) image_save extract_colors
          ["/in/a.png"; "/in/b.png"; "/in/c.png"]
  = (mkBatch [mkPaletteObject pal "/in/a.png" "/out/a_palette.png";
              mkPaletteObject pal "/in/c.png" "/out/c_palette.png"]
             [GenerationError "/in/b.png" (OSError "Permission denied")],
     None).
Proof.
  intros config extract_colors image_save pal.
  refine (eq_trans
            (proj1 (batch_skips_render_failures config (fun _ => 70%Q) (fun _ => 40%Q)
                      (fun _ => "100.00") (fun _ _ => true) image_save extract_colors
                      ["/in/a.png"; "/in/b.png"; "/in/c.png"] _ _)) _).
  - intros p img. unfold image_save, save_except. destruct (String.eqb p _); discriminate.
  - intros image Hin. exists pal. simpl in Hin.
    destruct Hin as [<-|[<-|[<-|[]]]]; reflexivity.
  - reflexivity.
Defined.

(** C2.  The program at a batch of two images, the extraction of the
    first of which raises: the loop stops there and the exception leaves
    it; nothing is logged, and the second image, which extracts and
    renders well on its own, gets no record.  Skipping the first image
    and going on, as is done for a rendering that fails, would give the
    record of the second image. *)
Lemma batch_aborted_by_extraction_failure :
  let config := default_config "/out" in
  let extract_colors := extract_except "/in/bad.png" in
  let image_save := save_except "" in
  let run := extract config (fun _ => 70%Q) (fun _ => 40%Q) (fun _ => "100.00") (fun _ _ => true)
                     image_save extract_colors in
  run ["/in/bad.png"; "/in/good.png"]
    = (mkBatch [] [], Some (OSError "cannot identify image file")) /\
  run ["/in/good.png"]
    = (mkBatch [mkPaletteObject (mkPalette [mkColor (0, 0, 0) 1 0]) "/in/good.png"
                                "/out/good_palette.png"] [], None).
Proof. split; reflexivity. Qed.

(** ** The CSV exporter *)

Section CsvReader.

Import Csv.

Lemma has_special_forall (s : string) :
  has_special s = negb (forall_chars (fun c => negb (special c)) s).
Proof.
  induction s as [|c s IH]; simpl; [reflexivity|].
  rewrite IH. now destruct (special c).
Qed.

Lemma str_int_not_special (n : Z) : has_special (str_int n) = false.
Proof.
  rewrite has_special_forall, str_int_chars; [reflexivity| |reflexivity].
  intros c Hc. unfold is_digit, in_range in Hc. unfold special.
  destruct (Ascii.eqb_spec c delimiter) as [->|_]; [discriminate Hc|].
  destruct (Ascii.eqb_spec c quotechar) as [->|_]; [discriminate Hc|].
  destruct (Ascii.eqb_spec c CR) as [->|_]; [discriminate Hc|].
  destruct (Ascii.eqb_spec c LF) as [->|_]; [discriminate Hc|reflexivity].
Qed.

Lemma special_cases (c : ascii) :
  special c = false ->
  Ascii.eqb c delimiter = false /\ Ascii.eqb c quotechar = false /\
  Ascii.eqb c CR = false /\ Ascii.eqb c LF = false.
Proof.
  unfold special. intros H.
  destruct (Ascii.eqb c delimiter), (Ascii.eqb c quotechar), (Ascii.eqb c CR),
    (Ascii.eqb c LF); try discriminate H; auto.
Qed.

(** Reading the characters of an unquoted field. *)
Lemma read_unquoted (s K field : string) (fields : list string) :
  has_special s = false ->
  read (s ++ K) IN_FIELD field fields = read K IN_FIELD (rev_string s ++ field) fields.
Proof.
  revert field. induction s as [|c s IH]; intros field Hs; [reflexivity|].
  simpl in Hs. apply orb_false_iff in Hs. destruct Hs as [Hc Hs].
  destruct (special_cases c Hc) as (Hd & Hq & Hcr & Hlf).
  cbn [String.append read]. rewrite Hd, Hcr, Hlf. cbn [orb].
  rewrite (IH _ Hs), rev_string_cons, append_assoc. reflexivity.
Qed.

(** Reading the inside of a quoted field, up to the closing quote. *)
Lemma read_quoted (s K field : string) (fields : list string) :
  read (double_quotes s ++ String quotechar K) IN_QUOTED_FIELD field fields
  = read K QUOTE_IN_QUOTED_FIELD (rev_string s ++ field) fields.
Proof.
  revert field. induction s as [|c s IH]; intros field.
  - cbn [double_quotes String.append read]. now rewrite Ascii.eqb_refl.
  - cbn [double_quotes]. rewrite rev_string_cons, append_assoc.
    destruct (Ascii.eqb_spec c quotechar) as [->|Hne].
    + cbn [String.append read]. rewrite !Ascii.eqb_refl. apply IH.
    + apply Ascii.eqb_neq in Hne. cbn [String.append read]. rewrite Hne. apply IH.
Qed.

Lemma read_delimiter (st : state) (f field K : string) (fields : list string) :
  field_read st f field ->
  read (String delimiter K) st field fields = read K START_FIELD "" (f :: fields).
Proof.
  intros [<- [->|[->|[-> _]]]]; reflexivity.
Qed.

Lemma read_line_end (st : state) (f field K : string) (fields : list string) :
  field_read st f field ->
  read (lineterminator ++ K) st field fields
  = List.rev (f :: fields) :: read K START_RECORD "" [].
Proof.
  intros [<- [->|[->|[-> _]]]]; reflexivity.
Qed.

(** Reading a written field from the start of a field or of a record
    leaves the reader in one of these states. *)
Lemma read_field (st : state) (f K : string) (fields : list string) :
  st = START_FIELD \/ (st = START_RECORD /\ f <> "") ->
  exists st' field,
    field_read st' f field /\
    read (write_field f ++ K) st "" fields = read K st' field fields.
Proof.
  intros Hst. unfold write_field.
  destruct (has_special f) eqn:Hf.
  - exists QUOTE_IN_QUOTED_FIELD, (rev_string f ++ "").
    split.
    + split; [|auto]. now rewrite append_nil_r, rev_string_involutive.
    + rewrite <- read_quoted.
      replace (String quotechar (double_quotes f ++ String quotechar "") ++ K)
        with (String quotechar (double_quotes f ++ String quotechar K))
        by (cbn [String.append]; now rewrite append_assoc).
      destruct Hst as [->|[-> _]]; reflexivity.
  - destruct f as [|c f].
    + destruct Hst as [->|[_ Hne]]; [|congruence].
      exists START_FIELD, "". split; [|reflexivity]. split; auto.
    + exists IN_FIELD, (rev_string f ++ String c "").
      split.
      * split; [|auto].
        now rewrite rev_string_append, rev_string_involutive.
      * simpl in Hf. apply orb_false_iff in Hf. destruct Hf as [Hc Hf].
        destruct (special_cases c Hc) as (Hd & Hq & Hcr & Hlf).
        rewrite <- (read_unquoted f K _ _ Hf).
        destruct Hst as [->|[-> _]]; cbn [String.append read];
          rewrite Hd, Hq, Hcr, Hlf; reflexivity.
Qed.

(** Reading a written row of four fields, the first of which is not
    empty: one record, then the records of the rest of the text. *)
Lemma read_row4 (a b c d K : string) :
  a <> "" ->
  read (writerow [a; b; c; d] ++ K) START_RECORD "" []
  = [a; b; c; d] :: read K START_RECORD "" [].
Proof.
  intros Ha.
  assert (Hrow : writerow [a; b; c; d] ++ K
                 = write_field a ++ String delimiter (write_field b ++ String delimiter
                     (write_field c ++ String delimiter (write_field d ++ lineterminator ++ K)))).
  { unfold writerow. destruct a; [congruence|].
    cbn [map String.concat]. now string_norm. }
  rewrite Hrow.
  destruct (read_field START_RECORD a (String delimiter
              (write_field b ++ String delimiter
                 (write_field c ++ String delimiter (write_field d ++ lineterminator ++ K)))) [])
    as (s1 & f1 & H1 & ->); [right; auto|].
  rewrite (read_delimiter _ _ _ _ _ H1).
  destruct (read_field START_FIELD b (String delimiter
              (write_field c ++ String delimiter (write_field d ++ lineterminator ++ K))) [a])
    as (s2 & f2 & H2 & ->); [left; auto|].
  rewrite (read_delimiter _ _ _ _ _ H2).
  destruct (read_field START_FIELD c (String delimiter (write_field d ++ lineterminator ++ K))
              [b; a])
    as (s3 & f3 & H3 & ->); [left; auto|].
  rewrite (read_delimiter _ _ _ _ _ H3).
  destruct (read_field START_FIELD d (lineterminator ++ K) [c; b; a])
    as (s4 & f4 & H4 & ->); [left; auto|].
  rewrite (read_line_end _ _ _ _ _ H4). reflexivity.
Qed.

End CsvReader.

Lemma concat_empty_cons (x : string) (l : list string) :
  String.concat "" (x :: l) = x ++ String.concat "" l.
Proof. destruct l; simpl; [now rewrite append_nil_r|reflexivity]. Qed.

Lemma str_int_nonempty (n : Z) : str_int n <> "".
Proof.
  destruct (str_int_cases n) as [[_ ->]|[(p & _ & ->)|(p & _ & ->)]]; try discriminate.
  destruct (to_uint_head p) as (c & s & -> & _). discriminate.
Qed.

(** The reader gives back the rows of the colours. *)
Lemma read_color_rows (pairs : list (rgb_t * string)) :
  Csv.read (String.concat ""
              (map (fun '(rgb, hex) => Csv.writerow (ExportToCSV.row rgb hex)) pairs))
           Csv.START_RECORD "" []
  = map (fun '(rgb, hex) => ExportToCSV.row rgb hex) pairs.
Proof.
  induction pairs as [|[[[r g] b] hex] pairs IH]; [reflexivity|].
  cbn [map]. rewrite concat_empty_cons. unfold ExportToCSV.row at 1 3.
  rewrite read_row4 by apply str_int_nonempty.
  now rewrite IH.
Qed.

Lemma palette_of_color_rows (pairs : list (rgb_t * string)) :
  palette_of_records (map (fun '(rgb, hex) => ExportToCSV.row rgb hex) pairs)
  = Some (List.split pairs).
Proof.
  induction pairs as [|[[[r g] b] hex] pairs IH]; [reflexivity|].
  cbn [map ExportToCSV.row palette_of_records List.split].
  rewrite !int_of_str_str_int, IH.
  now destruct (List.split pairs).
Qed.

Lemma write_field_plain (s : string) : Csv.has_special s = false -> Csv.write_field s = s.
Proof. intros H. unfold Csv.write_field. now rewrite H. Qed.

Lemma plain_color_rows (palette_rgb : list rgb_t) (palette_hex : list string) :
  Forall (fun hex => Csv.has_special hex = false) palette_hex ->
  String.concat ""
    (map (fun '(rgb, hex) => Csv.writerow (ExportToCSV.row rgb hex))
         (combine palette_rgb palette_hex))
  = terminated Csv.lineterminator
      (map (fun '(rgb, hex) => csv_line rgb hex) (combine palette_rgb palette_hex)).
Proof.
  intros Hplain. revert palette_rgb.
  induction Hplain as [|hex l Hhex Hl IH]; intros [|[[r g] b] palette_rgb]; try reflexivity.
  cbn [combine map terminated]. rewrite concat_empty_cons, IH.
  unfold ExportToCSV.row, Csv.writerow, csv_line.
  pose proof (str_int_nonempty r) as Hr.
  destruct (str_int r) eqn:Er; [congruence|]. rewrite <- Er.
  cbn [map String.concat].
  rewrite !write_field_plain by (try apply str_int_not_special; exact Hhex).
  unfold Csv.delimiter. now string_norm.
Qed.

Lemma count_double_quotes (s : string) :
  count_char Csv.LF (Csv.double_quotes s) = count_char Csv.LF s.
Proof.
  induction s as [|c s IH]; [reflexivity|]. cbn [Csv.double_quotes].
  destruct (Ascii.eqb_spec c Csv.quotechar) as [->|_]; cbn [count_char]; rewrite IH.
  - reflexivity.
  - reflexivity.
Qed.

Lemma count_write_field (s : string) :
  count_char Csv.LF (Csv.write_field s) = count_char Csv.LF s.
Proof.
  unfold Csv.write_field. destruct (Csv.has_special s); [|reflexivity].
  cbn [count_char]. rewrite count_char_append, count_double_quotes.
  change (Ascii.eqb Csv.quotechar Csv.LF) with false. cbn [count_char].
  change (Ascii.eqb Csv.quotechar Csv.LF) with false. cbv iota. lia.
Qed.

(** The line feeds of the rows of the colours: one per row, and those
    of the hexadecimal strings. *)
Lemma count_color_rows (pairs : list (rgb_t * string)) :
  count_char Csv.LF
    (String.concat "" (map (fun '(rgb, hex) => Csv.writerow (ExportToCSV.row rgb hex)) pairs))
  = (List.length pairs + list_sum (map (fun p => count_char Csv.LF (snd p)) pairs))%nat.
Proof.
  induction pairs as [|[[[r g] b] hex] pairs IH]; [reflexivity|].
  cbn [map]. rewrite concat_empty_cons, count_char_append, IH.
  unfold ExportToCSV.row, Csv.writerow.
  pose proof (str_int_nonempty r) as Hr.
  destruct (str_int r) eqn:Er; [congruence|]. rewrite <- Er.
  cbn [map String.concat].
  rewrite !count_char_append, !count_write_field.
  change Csv.LF with "010"%char. rewrite !str_int_no_line_feed.
  unfold list_sum. cbn [List.length fold_right snd].
  change (count_char "010" (String Csv.delimiter "")) with 0%nat.
  change (count_char "010" Csv.lineterminator) with 1%nat. lia.
Qed.

(** C4.  For RGB and hexadecimal lists of the same length [N], the CSV
    exporter writes the header row [R,G,B,HEX] followed by one row per
    colour, in order: a CSV reader finds [N + 1] records, the header then
    the fields [R], [G], [B], [HEX] of each colour, and reading the
    channels back as integers gives the two lists again.  When no
    hexadecimal string holds a comma, a quote, a carriage return or a line
    feed, nothing is quoted and the text is made of the [N + 1] lines
    [R,G,B,HEX] and [{R},{G},{B},{HEX}], each ended by CR LF.  In every
    case the text holds [N + 1] line feeds besides those of the
    hexadecimal strings. *)
Theorem csv_export_roundtrip (palette_name filepath : string) (palette_rgb : list rgb_t)
    (palette_hex : list string) :
  List.length palette_rgb = List.length palette_hex ->
  let N := List.length palette_rgb in
  let colors := combine palette_rgb palette_hex in
  exists text,
    ExportToCSV.export palette_name filepath palette_rgb palette_hex
      = mkWritten (TextFile text) None /\
    Csv.read text Csv.START_RECORD "" []
      = ["R"; "G"; "B"; "HEX"] :: map (fun '(rgb, hex) => ExportToCSV.row rgb hex) colors /\
    List.length (Csv.read text Csv.START_RECORD "" []) = S N /\
    map fst colors = palette_rgb /\ map snd colors = palette_hex /\
    parse_palette_csv text = Some (palette_rgb, palette_hex) /\
    count_char Csv.LF text
      = (S N + list_sum (map (count_char Csv.LF) palette_hex))%nat /\
    (Forall (fun hex => Csv.has_special hex = false) palette_hex ->
     text = terminated Csv.lineterminator
              ("R,G,B,HEX" :: map (fun '(rgb, hex) => csv_line rgb hex) colors)).
Proof.
  intros Hlen N colors.
  assert (Hread : Csv.read (Csv.writerow ExportToCSV.header ++
                    String.concat ""
                      (map (fun '(rgb, hex) => Csv.writerow (ExportToCSV.row rgb hex)) colors))
                    Csv.START_RECORD "" []
                  = ["R"; "G"; "B"; "HEX"]
                      :: map (fun '(rgb, hex) => ExportToCSV.row rgb hex) colors).
  { unfold ExportToCSV.header. rewrite read_row4 by discriminate.
    now rewrite read_color_rows. }
  exists (Csv.writerow ExportToCSV.header ++
            String.concat ""
              (map (fun '(rgb, hex) => Csv.writerow (ExportToCSV.row rgb hex)) colors)).
  split; [reflexivity|].
  split; [exact Hread|].
  assert (Hn : List.length colors = N)
    by (unfold colors, N; now rewrite length_combine, <- Hlen, Nat.min_id).
  split; [|split; [|split; [|split; [|split]]]].
  - rewrite Hread. cbn [List.length]. now rewrite length_map, Hn.
  - now apply map_combine_same_length.
  - now apply map_combine_same_length.
  - unfold parse_palette_csv. rewrite Hread.
    destruct (list_eq_dec string_dec _ _) as [_|Hne]; [|now elim Hne].
    rewrite palette_of_color_rows. unfold colors.
    now rewrite combine_split.
  - rewrite count_char_append, count_color_rows, Hn.
    rewrite <- (map_map snd (count_char Csv.LF)).
    replace (map snd colors) with palette_hex
      by (symmetry; now apply map_combine_same_length).
    change (count_char Csv.LF (Csv.writerow ExportToCSV.header)) with 1%nat. lia.
  - intros Hplain. unfold colors. rewrite (plain_color_rows _ _ Hplain). reflexivity.
Qed.

(** The four colours of the specification's scenario. *)
Lemma csv_export_roundtrip_witness :
  let palette_rgb := [(255, 255, 255); (0, 0, 0); (255, 0, 0); (0, 255, 0)] in
  let palette_hex := map convert_rgb_to_hex palette_rgb in
  exists text,
    ExportToCSV.export "a" "/out/a_palette.csv" palette_rgb palette_hex
      = mkWritten (TextFile text) None /\
    text = terminated Csv.lineterminator
             ["R,G,B,HEX"; "255,255,255,#FFFFFF"; "0,0,0,#000000"; "255,0,0,#FF0000";
              "0,255,0,#00FF00"] /\
    parse_palette_csv text = Some (palette_rgb, palette_hex).
Proof.
  intros palette_rgb palette_hex.
  destruct (csv_export_roundtrip "a" "/out/a_palette.csv" palette_rgb palette_hex eq_refl)
    as (text & He & _ & _ & _ & _ & Hp & _ & Hplain).
  exists text. split; [exact He|]. split; [|exact Hp].
  apply Hplain. repeat constructor.
Defined.

(** The hexadecimal string of a valid colour needs no quoting. *)
Lemma convert_rgb_to_hex_plain (c : rgb_t) :
  valid_rgb c -> Csv.has_special (convert_rgb_to_hex c) = false.
Proof.
  destruct c as [[r g] b]. intros Hc.
  rewrite (convert_rgb_to_hex_pairs r g b Hc). destruct Hc as (Hr & Hg & Hb).
  rewrite has_special_forall. cbn [forall_chars].
  rewrite (forall_chars_impl HexColor.is_upper_hex (fun c => negb (Csv.special c)));
    [reflexivity| |].
  2:{ rewrite !forall_chars_append.
      destruct (pair_decodes r Hr) as [Ur _], (pair_decodes g Hg) as [Ug _],
               (pair_decodes b Hb) as [Ub _].
      unfold HexColor.all_upper_hex in *. now rewrite Ur, Ug, Ub. }
  intros a Ha. unfold HexColor.is_upper_hex, in_range in Ha. unfold Csv.special.
  destruct (Ascii.eqb_spec a Csv.delimiter) as [->|_]; [discriminate Ha|].
  destruct (Ascii.eqb_spec a Csv.quotechar) as [->|_]; [discriminate Ha|].
  destruct (Ascii.eqb_spec a Csv.CR) as [->|_]; [discriminate Ha|].
  destruct (Ascii.eqb_spec a Csv.LF) as [->|_]; [discriminate Ha|reflexivity].
Qed.

(** ** The JSON exporter *)

Section JsonReader.

Import Json.

(** Reading back one escaped character. *)
Lemma scan_escape_char (c : ascii) (K : string) :
  scan_string (escape_char c ++ K)
  = match scan_string K with
    | Some (t, rest) => Some (String c t, rest)
    | None => None
    end.
Proof.
  destruct c as [[] [] [] [] [] [] [] []]; reflexivity.
Qed.

(** Reading back a string literal. *)
Lemma scan_escape (s rest : string) :
  scan_string (escape s ++ String quote rest) = Some (s, rest).
Proof.
  induction s as [|c s IH].
  - reflexivity.
  - cbn [escape]. rewrite append_assoc, scan_escape_char, IH. reflexivity.
Qed.

Lemma span_digits_all (d rest : string) :
  forall_chars is_digit d = true -> follows rest = true ->
  span_digits (d ++ rest) = (d, rest).
Proof.
  intros Hd Hr. induction d as [|c d IH]; cbn [String.append span_digits forall_chars] in *.
  - destruct rest as [|c rest]; [reflexivity|]. cbn [follows span_digits] in *.
    apply andb_true_iff in Hr. destruct Hr as [Hc _].
    apply negb_true_iff in Hc. now rewrite Hc.
  - apply andb_true_iff in Hd. destruct Hd as [Hc Hd].
    now rewrite Hc, (IH Hd).
Qed.

Lemma follows_not_float (rest : string) :
  follows rest = true -> starts_float_part rest = false.
Proof.
  destruct rest as [|c rest]; [reflexivity|]. unfold follows.
  intros H. apply andb_true_iff in H. destruct H as [_ H]. now apply negb_true_iff.
Qed.

Lemma scan_uint_digits (p : positive) (rest : string) :
  follows rest = true ->
  scan_uint (digits_of (Pos.to_uint p) ++ rest) = Some (Z.pos p, rest).
Proof.
  intros Hr.
  pose proof (uint_value_digits p) as Hv.
  pose proof (digits_of_are_digits (Pos.to_uint p)) as Hd.
  pose proof (span_digits_all _ rest Hd Hr) as Hspan.
  destruct (to_uint_head p) as (c & s & E & _ & Hz). rewrite E in *.
  unfold scan_uint. cbn [String.append] in *.
  destruct (Ascii.eqb_spec c "0"); [contradiction|].
  rewrite Hspan, (follows_not_float rest Hr), Hv. reflexivity.
Qed.

(** Reading back an integer. *)
Lemma scan_int_str_int (n : Z) (rest : string) :
  follows rest = true ->
  scan_int (str_int n ++ rest) = Some (n, rest).
Proof.
  intros Hr.
  destruct (str_int_cases n) as [[-> ->]|[(p & -> & ->)|(p & -> & ->)]].
  - cbn. now rewrite (follows_not_float rest Hr).
  - pose proof (scan_uint_digits p rest Hr) as Hs.
    destruct (to_uint_head p) as (c & s & E & Hc & _). rewrite E in *.
    unfold scan_int. cbn [String.append] in *.
    destruct (Ascii.eqb_spec c "-") as [->|_]; [discriminate Hc|exact Hs].
  - unfold scan_int. cbn [String.append]. rewrite Ascii.eqb_refl.
    now rewrite (scan_uint_digits p rest Hr).
Qed.

Lemma str_int_head (n : Z) :
  exists c s, str_int n = String c s /\ (is_digit c = true \/ c = "-"%char).
Proof.
  destruct (str_int_cases n) as [[_ ->]|[(p & _ & ->)|(p & _ & ->)]].
  - do 2 eexists. split; [reflexivity|]. now left.
  - destruct (to_uint_head p) as (c & s & -> & Hc & _). eauto.
  - do 2 eexists. split; [reflexivity|]. now right.
Qed.

Lemma digit_or_minus_cases (c : ascii) :
  is_digit c = true \/ c = "-"%char ->
  opens_value c = true /\ Ascii.eqb c quote = false /\
  Ascii.eqb c "[" = false /\ Ascii.eqb c "{" = false.
Proof.
  intros [Hc| ->]; [|repeat split].
  unfold is_digit, in_range in Hc. unfold opens_value, is_ws.
  destruct (Ascii.eqb_spec c " ") as [->|_]; [discriminate Hc|].
  destruct (Ascii.eqb_spec c TAB) as [->|_]; [discriminate Hc|].
  destruct (Ascii.eqb_spec c LF) as [->|_]; [discriminate Hc|].
  destruct (Ascii.eqb_spec c CR) as [->|_]; [discriminate Hc|].
  destruct (Ascii.eqb_spec c "]") as [->|_]; [discriminate Hc|].
  destruct (Ascii.eqb_spec c "}") as [->|_]; [discriminate Hc|].
  destruct (Ascii.eqb_spec c quote) as [->|_]; [discriminate Hc|].
  destruct (Ascii.eqb_spec c "[") as [->|_]; [discriminate Hc|].
  destruct (Ascii.eqb_spec c "{") as [->|_]; [discriminate Hc|].
  repeat split.
Qed.

Lemma dumps_head (v : value) :
  exists c s, dumps v = String c s /\ opens_value c = true.
Proof.
  destruct v as [n|s|l|items]; cbn [dumps].
  - destruct (str_int_head n) as (c & s & -> & Hc).
    exists c, s. split; [reflexivity|]. now apply digit_or_minus_cases.
  - do 2 eexists. split; reflexivity.
  - do 2 eexists. split; reflexivity.
  - do 2 eexists. split; reflexivity.
Qed.

Lemma skip_ws_opens (c : ascii) (s : string) :
  opens_value c = true -> skip_ws (String c s) = String c s.
Proof.
  unfold opens_value. intros H. cbn [skip_ws].
  destruct (is_ws c); [discriminate H|reflexivity].
Qed.

Lemma skip_ws_space (s : string) : skip_ws (String " " s) = skip_ws s.
Proof. reflexivity. Qed.

Lemma dumps_length_pos (v : value) : (1 <= String.length (dumps v))%nat.
Proof. destruct (dumps_head v) as (c & s & -> & _). simpl. lia. Qed.

Lemma reads_back_int (n : Z) : reads_back (JInt n).
Proof.
  intros fuel rest Hf Hr. pose proof (dumps_length_pos (JInt n)).
  destruct fuel as [|fuel]; [lia|]. cbn [dumps] in *.
  pose proof (scan_int_str_int n rest Hr) as Hs.
  destruct (str_int_head n) as (c & s & E & Hc). rewrite E in *.
  destruct (digit_or_minus_cases c Hc) as (_ & Hq & Hl & Hd).
  cbn [scan_value String.append] in *. now rewrite Hq, Hl, Hd, Hs.
Qed.

Lemma reads_back_str (s : string) : reads_back (JStr s).
Proof.
  intros fuel rest Hf Hr. pose proof (dumps_length_pos (JStr s)).
  destruct fuel as [|fuel]; [lia|]. cbn [dumps] in *. unfold encode_str.
  cbn [scan_value String.append]. rewrite Ascii.eqb_refl.
  rewrite append_assoc. cbn [String.append]. now rewrite scan_escape.
Qed.

Lemma follows_literal (c : ascii) (s : string) :
  is_digit c = false -> starts_float_part (String c s) = false ->
  follows (String c s) = true.
Proof. intros H1 H2. unfold follows. now rewrite H1, H2. Qed.

(** Reading back the elements of a list that is not empty. *)
Lemma scan_elements_reads_back (l : list value) :
  Forall reads_back l -> l <> [] ->
  forall fuel rest acc,
    (2 * String.length (String.concat ", " (map dumps l)) + 1 <= fuel)%nat ->
    scan_elements fuel (String.concat ", " (map dumps l) ++ String "]" rest) acc
    = Some ((acc ++ l)%list, rest).
Proof.
  induction 1 as [|x l Hx Hl IH]; intros Hne fuel rest acc Hf; [congruence|].
  destruct fuel as [|fuel]; [lia|].
  destruct l as [|y l].
  - cbn [map String.concat] in *. cbn [scan_elements].
    rewrite (Hx fuel (String "]" rest)) by (try reflexivity; lia).
    reflexivity.
  - assert (Hcat : String.concat ", " (map dumps (x :: y :: l))
                   = dumps x ++ String "," (String " " (String.concat ", " (map dumps (y :: l)))))
      by reflexivity.
    rewrite Hcat in *. clear Hcat.
    rewrite length_append in Hf. cbn [String.length] in Hf.
    rewrite append_assoc. cbn [String.append scan_elements].
    rewrite (Hx fuel) by (try reflexivity; lia).
    rewrite (skip_ws_opens "," _ eq_refl).
    change (Ascii.eqb "," "]") with false. change (Ascii.eqb "," ",") with true. cbv iota.
    rewrite skip_ws_space.
    destruct (dumps_head y) as (c & s & E & Hc).
    assert (Hskip : forall t, skip_ws (String.concat ", " (map dumps (y :: l)) ++ t)
                              = String.concat ", " (map dumps (y :: l)) ++ t).
    { intros t. cbn [map].
      destruct l; cbn [String.concat map]; rewrite E; cbn [String.append];
        now rewrite skip_ws_opens. }
    rewrite Hskip, IH by (try discriminate; lia).
    now rewrite <- app_assoc.
Qed.

Lemma reads_back_list (l : list value) : Forall reads_back l -> reads_back (JList l).
Proof.
  intros Hl fuel rest Hf Hr.
  assert (Hlen : String.length (dumps (JList l))
                 = S (String.length (String.concat ", " (map dumps l)) + 1)).
  { cbn [dumps String.append String.length]. now rewrite length_append. }
  rewrite Hlen in Hf. clear Hlen.
  destruct fuel as [|fuel]; [lia|].
  cbn [dumps]. cbn [String.append scan_value].
  change (Ascii.eqb "[" quote) with false. change (Ascii.eqb "[" "[") with true. cbv iota.
  rewrite append_assoc. cbn [String.append].
  destruct l as [|x l].
  - reflexivity.
  - assert (Hhead : exists c s, String.concat ", " (map dumps (x :: l)) = String c s
                                /\ opens_value c = true).
    { destruct (dumps_head x) as (c & s & E & Hc). cbn [map].
      destruct l; cbn [String.concat map]; rewrite E; cbn [String.append]; eauto. }
    destruct Hhead as (c & s & E & Hc).
    assert (Hne : x :: l <> []) by discriminate.
    assert (Hfuel : (2 * String.length (String.concat ", " (map dumps (x :: l))) + 1 <= fuel)%nat)
      by lia.
    pose proof (scan_elements_reads_back (x :: l) Hl Hne fuel rest [] Hfuel) as Hs.
    rewrite E in *. cbn [String.append] in *.
    rewrite (skip_ws_opens c _ Hc).
    unfold opens_value in Hc. apply andb_true_iff in Hc. destruct Hc as [Hc _].
    apply andb_true_iff in Hc. destruct Hc as [_ Hc]. apply negb_true_iff in Hc.
    rewrite Hc, Hs. reflexivity.
Qed.

Lemma dict_set_fresh (items : list (string * value)) (k : string) (x : value) :
  ~ In k (map fst items) -> dict_set items k x = (items ++ [(k, x)])%list.
Proof.
  induction items as [|[k' x'] items IH]; intros Hk; [reflexivity|].
  cbn [dict_set map fst In List.app] in *.
  destruct (String.eqb_spec k' k) as [->|_]; [tauto|].
  rewrite IH by tauto. reflexivity.
Qed.

Lemma dict_of_items (items acc : list (string * value)) :
  NoDup (map fst (acc ++ items)) ->
  fold_left (fun acc '(k, x) => dict_set acc k x) items acc = (acc ++ items)%list.
Proof.
  revert acc. induction items as [|[k x] items IH]; intros acc Hnd; cbn [fold_left].
  - now rewrite app_nil_r.
  - rewrite dict_set_fresh.
    + rewrite IH; rewrite <- app_assoc; [reflexivity|exact Hnd].
    + rewrite map_app in Hnd. cbn [map fst] in Hnd.
      apply NoDup_remove_2 in Hnd. intros Hin. apply Hnd, in_or_app. now left.
Qed.

Lemma dumps_item_head (item : string * value) :
  exists s, dumps_item item = String quote s.
Proof. destruct item as [k x]. unfold dumps_item, encode_str. cbn [String.append]. eauto. Qed.

Lemma items_head (item : string * value) (items : list (string * value)) :
  exists s, String.concat ", " (map dumps_item (item :: items)) = String quote s.
Proof.
  destruct (dumps_item_head item) as (s & E). cbn [map].
  destruct items; cbn [String.concat map]; rewrite E; cbn [String.append]; eauto.
Qed.

Lemma dumps_item_length (k : string) (x : value) :
  (String.length (dumps x) + 4 <= String.length (dumps_item (k, x)))%nat.
Proof.
  unfold dumps_item, encode_str. cbn [String.append String.length].
  rewrite !length_append. cbn [String.append String.length]. lia.
Qed.

(** Reading back the members of a dictionary that is not empty. *)
Lemma scan_members_reads_back (items : list (string * value)) :
  Forall (fun item => reads_back (snd item)) items -> items <> [] ->
  forall fuel rest acc,
    (2 * String.length (String.concat ", " (map dumps_item items)) + 1 <= fuel)%nat ->
    scan_members fuel (String.concat ", " (map dumps_item items) ++ String "}" rest) acc
    = Some (fold_left (fun acc '(k, x) => dict_set acc k x) items acc, rest).
Proof.
  induction 1 as [|[k x] items Hx Hitems IH]; intros Hne fuel rest acc Hf; [congruence|].
  destruct fuel as [|fuel]; [lia|].
  cbn [snd] in Hx.
  pose proof (dumps_item_length k x) as Hkx.
  assert (Hitem : forall K, follows K = true ->
            (2 * String.length (dumps x) <= fuel)%nat ->
            forall T, dumps_item (k, x) ++ K = T ->
            scan_members (S fuel) T acc
            = match skip_ws K with
              | EmptyString => None
              | String c rest3 =>
                  if Ascii.eqb c "}" then Some (dict_set acc k x, rest3)
                  else if Ascii.eqb c "," then
                    scan_members fuel (skip_ws rest3) (dict_set acc k x)
                  else None
              end).
  { intros K HK Hlen T <-. unfold dumps_item, encode_str.
    cbn [String.append scan_members]. rewrite Ascii.eqb_refl.
    rewrite !append_assoc. cbn [String.append]. rewrite scan_escape.
    rewrite (skip_ws_opens ":" _ eq_refl). change (Ascii.eqb ":" ":") with true. cbv iota.
    rewrite skip_ws_space.
    destruct (dumps_head x) as (c & s & E & Hc).
    replace (skip_ws (dumps x ++ K)) with (dumps x ++ K)
      by (rewrite E; cbn [String.append]; now rewrite skip_ws_opens).
    rewrite (Hx fuel K Hlen HK).
    reflexivity. }
  destruct items as [|item items].
  - cbn [map String.concat fold_left] in *.
    rewrite (Hitem (String "}" rest) eq_refl) by (try reflexivity; lia).
    reflexivity.
  - assert (Hcat : String.concat ", " (map dumps_item ((k, x) :: item :: items))
                   = dumps_item (k, x)
                     ++ String "," (String " " (String.concat ", " (map dumps_item (item :: items)))))
      by reflexivity.
    rewrite Hcat in *. clear Hcat.
    rewrite length_append in Hf. cbn [String.length] in Hf.
    rewrite (Hitem (String "," (String " "
               (String.concat ", " (map dumps_item (item :: items)) ++ String "}" rest))) eq_refl)
      by (try lia; rewrite append_assoc; reflexivity).
    rewrite (skip_ws_opens "," _ eq_refl).
    change (Ascii.eqb "," "}") with false. change (Ascii.eqb "," ",") with true. cbv iota.
    rewrite skip_ws_space.
    destruct (items_head item items) as (s & E).
    replace (skip_ws (String.concat ", " (map dumps_item (item :: items)) ++ String "}" rest))
      with (String.concat ", " (map dumps_item (item :: items)) ++ String "}" rest)
      by (rewrite E; reflexivity).
    rewrite IH by (try discriminate; lia).
    reflexivity.
Qed.

Lemma reads_back_dict (items : list (string * value)) :
  Forall (fun item => reads_back (snd item)) items ->
  NoDup (map fst items) ->
  reads_back (JDict items).
Proof.
  intros Hitems Hnd fuel rest Hf Hr.
  assert (Hdumps : dumps (JDict items)
                   = String "{" (String.concat ", " (map dumps_item items) ++ "}")).
  { cbn [dumps]. cbn [String.append].
    rewrite (map_ext _ dumps_item); [reflexivity | now intros [k x]]. }
  rewrite Hdumps in *. clear Hdumps.
  cbn [String.length] in Hf. rewrite length_append in Hf. cbn [String.length] in Hf.
  destruct fuel as [|fuel]; [lia|].
  cbn [String.append scan_value].
  change (Ascii.eqb "{" quote) with false. change (Ascii.eqb "{" "[") with false.
  change (Ascii.eqb "{" "{") with true. cbv iota.
  rewrite append_assoc. cbn [String.append].
  destruct items as [|item items].
  - reflexivity.
  - destruct (items_head item items) as (s & E).
    assert (Hne : item :: items <> []) by discriminate.
    assert (Hfuel : (2 * String.length (String.concat ", " (map dumps_item (item :: items))) + 1
                     <= fuel)%nat) by lia.
    pose proof (scan_members_reads_back (item :: items) Hitems Hne fuel rest [] Hfuel) as Hs.
    rewrite (dict_of_items (item :: items) [] Hnd) in Hs.
    rewrite E in *. cbn [String.append] in *.
    rewrite (skip_ws_opens quote _ eq_refl).
    change (Ascii.eqb quote "}") with false. cbv iota.
    rewrite Hs. reflexivity.
Qed.

(** [json.loads(json.dumps(v)) == v] for a value that is read back. *)
Lemma loads_dumps (v : value) : reads_back v -> loads (dumps v) = Some v.
Proof.
  intros Hv. unfold loads.
  destruct (dumps_head v) as (c & s & E & Hc).
  replace (skip_ws (dumps v)) with (dumps v ++ "")
    by (rewrite append_nil_r, E; now rewrite skip_ws_opens).
  rewrite (Hv _ "") by (try reflexivity; lia).
  reflexivity.
Qed.

(** Every value whose dictionaries have distinct keys is read back. *)
Lemma reads_back_value : forall v : value, distinct_keys v -> reads_back v.
Proof.
  fix IH 1. intros [n|s|l|items] Hv.
  - apply reads_back_int.
  - apply reads_back_str.
  - apply reads_back_list. cbn [distinct_keys] in Hv.
    induction l as [|x l IHl]; constructor.
    + apply IH, Hv.
    + apply IHl, Hv.
  - cbn [distinct_keys] in Hv. destruct Hv as [Hnd Hv].
    apply reads_back_dict; [|exact Hnd]. clear Hnd.
    induction items as [|[k x] items IHitems]; constructor.
    + apply IH, Hv.
    + apply IHitems, Hv.
Qed.

Lemma loads_dumps_value (v : value) : distinct_keys v -> loads (dumps v) = Some v.
Proof. intros Hv. apply loads_dumps, reads_back_value, Hv. Qed.

End JsonReader.

Lemma output_reads_back (palette_name : string) (palette_rgb : list rgb_t)
    (palette_hex : list string) :
  Json.reads_back (ExportToJSon.output palette_name palette_rgb palette_hex).
Proof.
  unfold ExportToJSon.output. apply reads_back_dict.
  - repeat constructor; cbn [snd].
    + apply reads_back_str.
    + apply reads_back_list, Forall_forall. intros v Hv.
      apply in_map_iff in Hv. destruct Hv as ([[r g] b] & <- & _).
      apply reads_back_list. repeat constructor; apply reads_back_int.
    + apply reads_back_list, Forall_forall. intros v Hv.
      apply in_map_iff in Hv. destruct Hv as (s & <- & _). apply reads_back_str.
  - cbn [map fst]. repeat constructor; cbn [In]; intuition discriminate.
Qed.

Lemma json_list_rgb (palette_rgb : list rgb_t) :
  json_list json_rgb (map (fun '(r, g, b) => Json.JList [Json.JInt r; Json.JInt g; Json.JInt b])
                          palette_rgb)
  = Some palette_rgb.
Proof.
  induction palette_rgb as [|[[r g] b] l IH]; [reflexivity|].
  cbn [map json_list json_rgb]. now rewrite IH.
Qed.

Lemma json_list_str (palette_hex : list string) :
  json_list json_str (map Json.JStr palette_hex) = Some palette_hex.
Proof.
  induction palette_hex as [|s l IH]; [reflexivity|].
  cbn [map json_list json_str]. now rewrite IH.
Qed.

(** C5.  The JSON exporter writes one object; parsing the text gives the
    object back: its [name] is the palette name, its [rgb] is the list of
    the colours, each a list of three integers, and its [hex] is the list
    of the hexadecimal strings, in the same order and of the same
    length. *)
Theorem json_export_roundtrip (palette_name filepath : string) (palette_rgb : list rgb_t)
    (palette_hex : list string) :
  exists text,
    ExportToJSon.export palette_name filepath palette_rgb palette_hex
      = mkWritten (TextFile text) None /\
    Json.loads text
      = Some (Json.JDict
                [ ("name", Json.JStr palette_name);
                  ("rgb", Json.JList
                            (map (fun '(r, g, b) =>
                                    Json.JList [Json.JInt r; Json.JInt g; Json.JInt b])
                                 palette_rgb));
                  ("hex", Json.JList (map Json.JStr palette_hex)) ]) /\
    parse_palette_json text = Some (palette_name, palette_rgb, palette_hex).
Proof.
  exists (Json.dumps (ExportToJSon.output palette_name palette_rgb palette_hex)).
  pose proof (loads_dumps _ (output_reads_back palette_name palette_rgb palette_hex)) as Hl.
  split; [reflexivity|]. split; [exact Hl|].
  unfold parse_palette_json. rewrite Hl. unfold ExportToJSon.output.
  cbn [Json.dict_get String.eqb Ascii.eqb Bool.eqb].
  now rewrite json_list_rgb, json_list_str.
Qed.

(** * Further properties *)

(** ** The option parsers *)

(** What a line made of a command, a second field and more text is
    split into. *)
Lemma split_command_field_more (cmd a more u : string) :
  word cmd -> forall_chars (fun c => negb (Ascii.eqb c " ")) a = true -> word u ->
  split " " (strip (cmd ++ " " ++ a ++ " " ++ more ++ u))
  = cmd :: a :: split " " (more ++ u).
Proof.
  intros Hc Ha Hu.
  replace (cmd ++ " " ++ a ++ " " ++ more ++ u)
    with (cmd ++ (" " ++ a ++ " " ++ more) ++ u) by now string_norm.
  rewrite (strip_words cmd _ u Hc Hu).
  replace (cmd ++ (" " ++ a ++ " " ++ more) ++ u)
    with (cmd ++ String " " (a ++ String " " (more ++ u))) by now string_norm.
  unfold split.
  destruct (split_acc_field " " cmd "" (word_no_space cmd Hc)) as [-> _].
  destruct (split_acc_field " " a "" Ha) as [-> _].
  reflexivity.
Qed.

Lemma split_nonempty (sep : ascii) (s field : string) :
  exists f fs, split_acc sep s field = f :: fs.
Proof.
  revert field. induction s as [|c s IH]; intros field; simpl; [eauto|].
  destruct (Ascii.eqb c sep); [eauto|apply IH].
Qed.

(** The resolution of a token, as [get_indice_from_option] does it once
    the line is split. *)
Lemma get_indice_second_field (line cmd tok : string) (fields : list string)
    (pl : PaletteList) (all : bool) :
  split " " (strip line) = cmd :: tok :: fields ->
  get_indice_from_option line pl all
  = let n := Z.of_nat (List.length (palettes pl)) in
    if startswith "-" tok then first_index n
    else if all && (String.eqb tok "all" || String.eqb tok "ALL") then Some (-1)
    else
      match int_of_str tok with
      | Some k => if (1 <=? k) && (k <=? n) then Some k else None
      | None => None
      end.
Proof.
  intros Hsplit. unfold get_indice_from_option. rewrite Hsplit.
  replace (1 <? Z.of_nat (List.length (cmd :: tok :: fields))) with true
    by (symmetry; apply Z.ltb_lt; cbn [List.length]; lia).
  cbn [nth]. cbv zeta.
  set (n := Z.of_nat (List.length (palettes pl))).
  assert (Hdash : startswith "--" tok = true -> startswith "-" tok = true).
  { destruct tok as [|c tok]; cbn [startswith]; [discriminate|].
    destruct (Ascii.eqb "-" c); [reflexivity|discriminate]. }
  assert (Hrange : forall k, (if (k <? 1) || (n <? k) then None else Some k)
                             = if (1 <=? k) && (k <=? n) then Some k else None).
  { intros k. destruct (Z.ltb_spec k 1), (Z.ltb_spec n k), (Z.leb_spec 1 k), (Z.leb_spec k n);
      try lia; reflexivity. }
  destruct (startswith "-" tok) eqn:E1.
  - cbn [orb]. rewrite Hrange. unfold first_index.
    destruct (1 <=? n); reflexivity.
  - destruct (startswith "--" tok) eqn:E2; [specialize (Hdash eq_refl); discriminate|].
    cbn [orb]. destruct (all && _); [reflexivity|].
    destruct (int_of_str tok) as [k|]; [apply Hrange|reflexivity].
Qed.

(** X1.  What follows the second field of a line is not read: the index is
    resolved as if the line stopped after it. *)
Theorem index_ignores_later_fields (cmd tok more u : string) (pl : PaletteList) (all : bool) :
  word cmd -> word tok -> word u ->
  get_indice_from_option (cmd ++ " " ++ tok ++ " " ++ more ++ u) pl all
  = get_indice_from_option (cmd ++ " " ++ tok) pl all.
Proof.
  intros Hc Ht Hu.
  rewrite (get_indice_second_field _ cmd tok (split " " (more ++ u)) pl all
             (split_command_field_more cmd tok more u Hc (word_no_space tok Ht) Hu)).
  rewrite (get_indice_second_field _ cmd tok [] pl all (split_command_token cmd tok Hc Ht)).
  reflexivity.
Qed.

(** [/s -d 3] on five palettes shows the first one, as [/s -d] does. *)
Lemma index_ignores_later_fields_witness :
  get_indice_from_option "/s -d 3" (sample_palettes 5) false = Some 1
  /\ get_indice_from_option "/s 2 -d" (sample_palettes 5) false = Some 2.
Proof.
  assert (W : forall s, s <> "" -> forall_chars (fun c => negb (is_space c)) s = true -> word s)
    by (intros; split; assumption).
  split.
  - refine (eq_trans (index_ignores_later_fields "/s" "-d" "" "3" (sample_palettes 5) false
                         _ _ _) _);
      try (apply W; [discriminate|reflexivity]). reflexivity.
  - refine (eq_trans (index_ignores_later_fields "/s" "2" "" "-d" (sample_palettes 5) false
                         _ _ _) _);
      try (apply W; [discriminate|reflexivity]). reflexivity.
Defined.

(** X2.  Two spaces after the command leave an empty second field, which is
    not the text of an integer: the index is invalid, whatever follows. *)
Theorem index_invalid_after_two_spaces (cmd more u : string) (pl : PaletteList) (all : bool) :
  word cmd -> word u ->
  get_indice_from_option (cmd ++ "  " ++ more ++ u) pl all = None.
Proof.
  intros Hc Hu.
  assert (Hsplit := split_command_field_more cmd "" more u Hc eq_refl Hu).
  cbn [String.append] in Hsplit.
  replace (cmd ++ "  " ++ more ++ u) with (cmd ++ String " " (String " " (more ++ u)))
    by reflexivity.
  rewrite (get_indice_second_field _ cmd "" (split " " (more ++ u)) pl all Hsplit).
  cbv zeta. cbn [startswith]. destruct all; reflexivity.
Qed.

Lemma index_invalid_after_two_spaces_witness :
  get_indice_from_option "/csv  2" (sample_palettes 5) true = None.
Proof.
  apply (index_invalid_after_two_spaces "/csv" "" "2" (sample_palettes 5) true);
    (split; [discriminate|reflexivity]).
Defined.

(** Whatever the line, the result is invalid, or the wildcard (only
    when [all] is allowed), or an index of the collection. *)
Lemma get_indice_bounds (line : string) (pl : PaletteList) (all : bool) :
  match get_indice_from_option line pl all with
  | None => True
  | Some k =>
      (k = -1 /\ all = true) \/ 1 <= k <= Z.of_nat (List.length (palettes pl))
  end.
Proof.
  unfold get_indice_from_option.
  set (n := Z.of_nat (List.length (palettes pl))).
  assert (Hrange : forall k,
            match (if (k <? 1) || (n <? k) then None else Some k) with
            | None => True
            | Some k' => (k' = -1 /\ all = true) \/ 1 <= k' <= n
            end).
  { intros k. destruct (Z.ltb_spec k 1), (Z.ltb_spec n k); cbn [orb]; try exact I.
    right. lia. }
  destruct (1 <? _); [|apply Hrange].
  destruct (_ || _); [apply Hrange|].
  destruct all; cbn [andb].
  - destruct (_ || _); [left; auto|].
    destruct (int_of_str _); [apply Hrange|exact I].
  - destruct (int_of_str _); [apply Hrange|exact I].
Qed.

(** X3.  A resolved index can be used as it is, whatever the line it comes
    from.  It is the wildcard [-1], which only appears when [all] is
    allowed, or it lies between 1 and the size of the collection; it is
    never 0.  The wildcard makes [export] run over the whole collection;
    any other result [k] is the position of a palette, so that neither
    [palettes[k - 1]] in the show action nor [export] raises [IndexError],
    and [export] runs over that palette alone. *)
Theorem resolved_index_is_usable (line : string) (pl : PaletteList) (all : bool) (k : Z) :
  get_indice_from_option line pl all = Some k ->
  ((k = -1 /\ all = true) \/ 1 <= k <= Z.of_nat (List.length (palettes pl))) /\
  (k = -1 ->
   forall config exporter extension,
     export config exporter pl k extension
     = export_each config exporter extension (palettes pl)) /\
  (k <> -1 ->
   exists p,
     nth_error (palettes pl) (Z.to_nat (k - 1)) = Some p /\
     py_getitem (palettes pl) (k - 1) = Ok p /\
     forall config exporter extension,
       export config exporter pl k extension = export_each config exporter extension [p]).
Proof.
  intros Hk. pose proof (get_indice_bounds line pl all) as Hb. rewrite Hk in Hb.
  split; [exact Hb|]. split.
  - intros ->. reflexivity.
  - intros Hne. destruct Hb as [[? _]|Hb]; [contradiction|].
    destruct (nth_error (palettes pl) (Z.to_nat (k - 1))) as [p|] eqn:Ep.
    + exists p. split; [reflexivity|].
      assert (Hget : py_getitem (palettes pl) (k - 1) = Ok p).
      { unfold py_getitem.
        destruct (Z.ltb_spec (k - 1) 0); [lia|].
        destruct (Z.ltb_spec (k - 1) 0); [lia|].
        destruct (Z.leb_spec (Z.of_nat (List.length (palettes pl))) (k - 1)); [lia|].
        cbn [orb]. now rewrite Ep. }
      split; [exact Hget|].
      intros config exporter extension. unfold export.
      destruct (Z.eqb_spec k (-1)); [contradiction|]. now rewrite Hget.
    + apply nth_error_None in Ep. lia.
Qed.

Lemma resolved_index_is_usable_witness :
  get_indice_from_option "/csv 2" (sample_palettes 3) true = Some 2 /\
  exists p, py_getitem (palettes (sample_palettes 3)) (2 - 1) = Ok p.
Proof.
  split; [reflexivity|].
  destruct (proj2 (proj2 (resolved_index_is_usable "/csv 2" (sample_palettes 3) true 2 eq_refl)))
    as (p & _ & Hp & _); [discriminate|].
  exists p. exact Hp.
Defined.

Lemma get_display_fields (line cmd : string) (fields : list string) :
  split " " (strip line) = cmd :: fields ->
  get_display_from_option line
  = is_display_flag (nth 0 fields "x") || is_display_flag (nth 1 fields "x").
Proof.
  intros Hsplit. unfold get_display_from_option. rewrite Hsplit.
  destruct fields as [|a [|b fields]]; cbn [List.length nth].
  - reflexivity.
  - change (1 <? Z.of_nat 2) with true. change (2 <? Z.of_nat 2) with false.
    cbn [andb]. destruct (is_display_flag a); reflexivity.
  - replace (1 <? Z.of_nat (S (S (S (List.length fields))))) with true
      by (symmetry; apply Z.ltb_lt; lia).
    replace (2 <? Z.of_nat (S (S (S (List.length fields))))) with true
      by (symmetry; apply Z.ltb_lt; lia).
    cbn [andb]. destruct (is_display_flag a), (is_display_flag b); reflexivity.
Qed.

(** X4.  The display flag is looked for in the second and in the third field
    only: a command alone does not display, and a flag in fourth position
    is not seen. *)
Theorem display_flag_positions (cmd a b c : string) :
  word cmd -> word a -> word b -> word c ->
  get_display_from_option cmd = false /\
  get_display_from_option (cmd ++ " " ++ a) = is_display_flag a /\
  get_display_from_option (cmd ++ " " ++ a ++ " " ++ b)
    = is_display_flag a || is_display_flag b /\
  get_display_from_option (cmd ++ " " ++ a ++ " " ++ b ++ " " ++ c)
    = is_display_flag a || is_display_flag b.
Proof.
  intros Hc Ha Hb Hcc.
  assert (Hb' := split_acc_field " " b "" (word_no_space b Hb)).
  assert (Hc' := split_acc_field " " c "" (word_no_space c Hcc)).
  split; [|split; [|split]].
  - now rewrite (get_display_fields cmd cmd [] (split_command cmd Hc)).
  - rewrite (get_display_fields _ cmd [a] (split_command_token cmd a Hc Ha)).
    cbn [nth]. apply orb_false_r.
  - pose proof (split_command_field_more cmd a "" b Hc (word_no_space a Ha) Hb) as Hs.
    replace (split " " ("" ++ b)) with [b] in Hs
      by (unfold split; cbn [String.append]; now rewrite (proj2 Hb')).
    exact (get_display_fields _ cmd [a; b] Hs).
  - pose proof (split_command_field_more cmd a (b ++ " ") c Hc (word_no_space a Ha) Hcc) as Hs.
    replace (split " " ((b ++ " ") ++ c)) with [b; c] in Hs.
    + replace (cmd ++ " " ++ a ++ " " ++ (b ++ " ") ++ c)
        with (cmd ++ " " ++ a ++ " " ++ b ++ " " ++ c) in Hs by now string_norm.
      exact (get_display_fields _ cmd [a; b; c] Hs).
    + replace ((b ++ " ") ++ c) with (b ++ String " " c) by now string_norm.
      unfold split. now rewrite (proj1 Hb'), (proj2 Hc').
Qed.

Lemma display_flag_positions_witness :
  get_display_from_option "/s" = false /\
  get_display_from_option "/s 2 -d" = true /\
  get_display_from_option "/s 2 x -d" = false.
Proof.
  assert (W : forall s, s <> "" -> forall_chars (fun c => negb (is_space c)) s = true -> word s)
    by (intros; split; assumption).
  destruct (display_flag_positions "/s" "2" "-d" "-d") as (H1 & _ & H3 & _);
    try (apply W; [discriminate|reflexivity]).
  destruct (display_flag_positions "/s" "2" "x" "-d") as (_ & _ & _ & H4);
    try (apply W; [discriminate|reflexivity]).
  split; [exact H1|]. split; [exact H3|exact H4].
Defined.

(** ** The ACO exporter: reading back, errors *)

Lemma valid_rgbb_spec (c : rgb_t) : valid_rgbb c = true <-> valid_rgb c.
Proof.
  destruct c as [[r g] b]. unfold valid_rgbb, valid_rgb, valid_channel.
  rewrite !andb_true_iff, !Z.leb_le. tauto.
Qed.

Lemma aco_colors_blocks (l : list rgb_t) :
  aco_colors (List.concat (map aco_block l)) = l.
Proof.
  induction l as [|[[r g] b] l IH]; [reflexivity|].
  cbn [map List.concat aco_block List.app aco_colors]. now rewrite IH.
Qed.

Lemma aco_count_bytes (N : Z) :
  0 <= N < 65280 -> Forall (fun v => 0 <= v < 256) [N / 255; N mod 255].
Proof.
  intros HN. repeat constructor.
  - apply Z.div_pos; lia.
  - apply Z.div_lt_upper_bound; lia.
  - apply Z.mod_pos_bound; lia.
  - pose proof (Z.mod_pos_bound N 255). lia.
Qed.

(** X5.  Reading back the file written for valid colours, fewer than 65280:
    version 1, the number of colours, and the colours in order. *)
Theorem aco_export_read_back (palette_name filepath : string) (palette_rgb : list rgb_t)
    (palette_hex : list string) :
  Forall valid_rgb palette_rgb ->
  Z.of_nat (List.length palette_rgb) < 65280 ->
  aco_read (written_bytes (ExportToACO.export palette_name filepath palette_rgb palette_hex))
  = Some (1, Z.of_nat (List.length palette_rgb), palette_rgb).
Proof.
  intros Hvalid HN. set (N := Z.of_nat (List.length palette_rgb)) in *.
  unfold ExportToACO.export. fold N.
  rewrite (bytearray_ok [0; 1]) by (repeat constructor; lia).
  cbn [ExportToACO.f_write List.app].
  rewrite (bytearray_ok [N / 255; N mod 255]) by (apply aco_count_bytes; unfold N; lia).
  cbn [ExportToACO.f_write List.app].
  rewrite (write_colors_valid _ Hvalid).
  cbn [written_bytes content List.app aco_read]. rewrite aco_colors_blocks.
  do 2 f_equal. f_equal. rewrite (Z.div_mod N 255) at 3 by lia. lia.
Qed.

Lemma aco_export_read_back_witness :
  aco_read (written_bytes (ExportToACO.export "a" "a.aco" [(255, 0, 10); (1, 2, 3)] []))
  = Some (1, 2, [(255, 0, 10); (1, 2, 3)]).
Proof.
  apply (aco_export_read_back "a" "a.aco" [(255, 0, 10); (1, 2, 3)] []).
  - repeat constructor; unfold valid_channel; lia.
  - simpl. lia.
Defined.

Lemma bytearray_block_invalid (r g b : Z) :
  ~ valid_rgb (r, g, b) ->
  ExportToACO.bytearray [0; 0; r; r; g; g; b; b; 0; 0]
  = Raise (ValueError "byte must be in range(0, 256)").
Proof.
  intros Hbad. unfold ExportToACO.bytearray.
  destruct (forallb _ _) eqn:E; [|reflexivity].
  exfalso. apply Hbad. rewrite forallb_forall in E.
  assert (H : forall v, In v [r; g; b] -> 0 <= v <= 255).
  { intros v Hv. specialize (E v). cbn [In] in *.
    assert (Hin : 0 = v \/ 0 = v \/ r = v \/ r = v \/ g = v \/ g = v \/ b = v \/ b = v
                  \/ 0 = v \/ 0 = v \/ False) by tauto.
    specialize (E Hin). lia. }
  unfold valid_rgb, valid_channel.
  repeat split; apply H; cbn [In]; tauto.
Qed.

Lemma write_colors_invalid (good rest : list rgb_t) (bad : rgb_t) :
  Forall valid_rgb good -> ~ valid_rgb bad ->
  forall f, ExportToACO.write_colors f (good ++ bad :: rest)
            = ((f ++ List.concat (map aco_block good))%list,
               Some (ValueError "byte must be in range(0, 256)")).
Proof.
  induction 1 as [|c l Hc Hl IH]; intros Hbad f.
  - destruct bad as [[r g] b]. cbn [List.app ExportToACO.write_colors].
    rewrite (bytearray_block_invalid r g b Hbad).
    cbn [ExportToACO.f_write map List.concat]. now rewrite app_nil_r.
  - pose proof (bytearray_block c Hc) as Hb.
    destruct c as [[r g] b]. cbn [List.app ExportToACO.write_colors]. rewrite Hb.
    cbn [ExportToACO.f_write]. rewrite (IH Hbad).
    cbn [map List.concat]. now rewrite <- app_assoc.
Qed.

(** X6.  A colour with a channel outside [0, 255] ends the export with a
    [ValueError]: the file keeps the header, whose count announces all the
    colours, and the blocks of the colours that precede the first invalid
    one only. *)
Theorem aco_export_stops_at_invalid_color (palette_name filepath : string)
    (good rest : list rgb_t) (bad : rgb_t) (palette_hex : list string) :
  Forall valid_rgb good -> ~ valid_rgb bad ->
  let N := Z.of_nat (List.length (good ++ bad :: rest)) in
  N < 65280 ->
  ExportToACO.export palette_name filepath (good ++ bad :: rest) palette_hex
  = mkWritten
      (BinaryFile ([0; 1; N / 255; N mod 255] ++ List.concat (map aco_block good)))
      (Some (ValueError "byte must be in range(0, 256)")).
Proof.
  intros Hgood Hbad N HN.
  unfold ExportToACO.export. fold N.
  rewrite (bytearray_ok [0; 1]) by (repeat constructor; lia).
  cbn [ExportToACO.f_write List.app].
  rewrite (bytearray_ok [N / 255; N mod 255]) by (apply aco_count_bytes; unfold N; lia).
  cbn [ExportToACO.f_write List.app].
  now rewrite (write_colors_invalid good rest bad Hgood Hbad).
Qed.

Lemma aco_export_stops_at_invalid_color_witness :
  ExportToACO.export "a" "a.aco" ([(1, 2, 3)] ++ (1, 256, 3) :: [(4, 5, 6)]) []
  = mkWritten (BinaryFile [0; 1; 0; 3; 0; 0; 1; 1; 2; 2; 3; 3; 0; 0])
              (Some (ValueError "byte must be in range(0, 256)")).
Proof.
  apply (aco_export_stops_at_invalid_color "a" "a.aco" [(1, 2, 3)] [(4, 5, 6)] (1, 256, 3) []).
  - repeat constructor; unfold valid_channel; lia.
  - unfold valid_rgb, valid_channel. lia.
  - simpl. lia.
Defined.

Lemma f_write_bytes (f : ExportToACO.file) (l : list Z) :
  Forall (fun v => 0 <= v <= 255) f ->
  Forall (fun v => 0 <= v <= 255) (fst (ExportToACO.f_write f (ExportToACO.bytearray l))).
Proof.
  intros Hf. unfold ExportToACO.bytearray.
  destruct (forallb _ l) eqn:E; cbn [ExportToACO.f_write fst]; [|exact Hf].
  apply Forall_app. split; [exact Hf|].
  apply Forall_forall. intros v Hv. rewrite forallb_forall in E. specialize (E v Hv). lia.
Qed.

Lemma write_colors_bytes (l : list rgb_t) (f : ExportToACO.file) :
  Forall (fun v => 0 <= v <= 255) f ->
  Forall (fun v => 0 <= v <= 255) (fst (ExportToACO.write_colors f l)).
Proof.
  revert f. induction l as [|[[r g] b] l IH]; intros f Hf; [exact Hf|].
  cbn [ExportToACO.write_colors].
  pose proof (f_write_bytes f [0; 0; r; r; g; g; b; b; 0; 0] Hf) as Hw.
  destruct (ExportToACO.f_write f _) as [f' [e|]]; cbn [fst] in *; [exact Hw|].
  now apply IH.
Qed.

(** X7.  Whatever the colours, and however the export ends, what is written
    is a sequence of bytes: every item is in [0, 255]. *)
Theorem aco_export_writes_bytes (palette_name filepath : string) (palette_rgb : list rgb_t)
    (palette_hex : list string) :
  Forall (fun v => 0 <= v <= 255)
         (written_bytes (ExportToACO.export palette_name filepath palette_rgb palette_hex)).
Proof.
  unfold ExportToACO.export.
  pose proof (f_write_bytes [] [0; 1] (Forall_nil _)) as H1.
  destruct (ExportToACO.f_write [] _) as [f1 [e|]]; cbn [fst] in H1; [exact H1|].
  pose proof (f_write_bytes f1 [Z.of_nat (List.length palette_rgb) / 255;
                                Z.of_nat (List.length palette_rgb) mod 255] H1) as H2.
  destruct (ExportToACO.f_write f1 _) as [f2 [e|]]; cbn [fst] in H2; [exact H2|].
  pose proof (write_colors_bytes palette_rgb f2 H2) as H3.
  destruct (ExportToACO.write_colors f2 palette_rgb) as [f3 e]. exact H3.
Qed.

(** X8.  The two count bytes are the big-endian 16-bit count of the ACO
    format exactly when there are fewer than 255 colours. *)
Theorem aco_count_is_big_endian_below_255 (palette_name filepath : string)
    (palette_rgb : list rgb_t) (palette_hex : list string) :
  Forall valid_rgb palette_rgb ->
  let N := Z.of_nat (List.length palette_rgb) in
  N < 65280 ->
  let bytes :=
    written_bytes (ExportToACO.export palette_name filepath palette_rgb palette_hex) in
  firstn 2 (skipn 2 bytes) = [N / 256; N mod 256] <-> N < 255.
Proof.
  intros Hvalid N HN bytes.
  assert (Hb : firstn 2 (skipn 2 bytes) = [N / 255; N mod 255]).
  { unfold bytes, ExportToACO.export. fold N.
    rewrite (bytearray_ok [0; 1]) by (repeat constructor; lia).
    cbn [ExportToACO.f_write List.app].
    rewrite (bytearray_ok [N / 255; N mod 255]) by (apply aco_count_bytes; unfold N; lia).
    cbn [ExportToACO.f_write List.app].
    now rewrite (write_colors_valid _ Hvalid). }
  rewrite Hb. assert (HN0 : 0 <= N) by (unfold N; lia).
  assert (Hd5 := Z.div_mod N 255 ltac:(lia)). assert (Hd6 := Z.div_mod N 256 ltac:(lia)).
  assert (Hm5 := Z.mod_pos_bound N 255 ltac:(lia)).
  assert (Hm6 := Z.mod_pos_bound N 256 ltac:(lia)).
  split.
  - intros [= E1 E2].
    assert (Hq : N / 255 = 0) by nia.
    rewrite Hq in Hd5. lia.
  - intros Hlt. rewrite !Z.div_small, !Z.mod_small by lia. reflexivity.
Qed.

Lemma aco_count_is_big_endian_below_255_witness :
  let bytes := written_bytes (ExportToACO.export "a" "a.aco" (repeat (0, 0, 0) 255) []) in
  firstn 2 (skipn 2 bytes) = [1; 0] /\ firstn 2 (skipn 2 bytes) <> [255 / 256; 255 mod 256].
Proof.
  intros bytes. split; [reflexivity|].
  intros H.
  apply (aco_count_is_big_endian_below_255 "a" "a.aco" (repeat (0, 0, 0) 255) []) in H.
  - rewrite repeat_length in H. lia.
  - apply Forall_forall. intros c Hc. apply repeat_spec in Hc. subst c.
    unfold valid_rgb, valid_channel. lia.
  - rewrite repeat_length. lia.
Defined.

(** ** The CSV exporter on lists of different lengths *)

Lemma split_combine_firstn {A B : Type} (l : list A) (l' : list B) :
  List.split (combine l l')
  = (firstn (Nat.min (List.length l) (List.length l')) l,
     firstn (Nat.min (List.length l) (List.length l')) l').
Proof.
  revert l'. induction l as [|a l IH]; intros [|b l']; try reflexivity.
  cbn [combine List.split List.length Nat.min firstn]. now rewrite IH.
Qed.

(** X9.  The rows are written for the pairs of [zip]: when one list is
    longer than the other, the colours beyond the shorter length are
    left out of the file, without an error. *)
Theorem csv_export_stops_at_shorter_list (palette_name filepath : string)
    (palette_rgb : list rgb_t) (palette_hex : list string) :
  let m := Nat.min (List.length palette_rgb) (List.length palette_hex) in
  exists text,
    ExportToCSV.export palette_name filepath palette_rgb palette_hex
      = mkWritten (TextFile text) None /\
    List.length (Csv.read text Csv.START_RECORD "" []) = S m /\
    parse_palette_csv text = Some (firstn m palette_rgb, firstn m palette_hex) /\
    ExportToCSV.export palette_name filepath palette_rgb palette_hex
      = ExportToCSV.export palette_name filepath (firstn m palette_rgb) (firstn m palette_hex).
Proof.
  intros m.
  set (colors := combine palette_rgb palette_hex).
  assert (Hread : Csv.read (Csv.writerow ExportToCSV.header ++
                    String.concat ""
                      (map (fun '(rgb, hex) => Csv.writerow (ExportToCSV.row rgb hex)) colors))
                    Csv.START_RECORD "" []
                  = ["R"; "G"; "B"; "HEX"]
                      :: map (fun '(rgb, hex) => ExportToCSV.row rgb hex) colors).
  { unfold ExportToCSV.header. rewrite read_row4 by discriminate.
    now rewrite read_color_rows. }
  exists (Csv.writerow ExportToCSV.header ++
            String.concat ""
              (map (fun '(rgb, hex) => Csv.writerow (ExportToCSV.row rgb hex)) colors)).
  split; [reflexivity|]. split; [|split].
  - rewrite Hread. cbn [List.length]. unfold colors.
    now rewrite length_map, length_combine.
  - unfold parse_palette_csv. rewrite Hread.
    destruct (list_eq_dec string_dec _ _) as [_|Hne]; [|now elim Hne].
    rewrite palette_of_color_rows. unfold colors. now rewrite split_combine_firstn.
  - assert (Hc : combine (firstn m palette_rgb) (firstn m palette_hex)
                 = combine palette_rgb palette_hex).
    { rewrite <- combine_firstn. apply firstn_all2. rewrite length_combine. unfold m. lia. }
    unfold ExportToCSV.export. now rewrite Hc.
Qed.

(** ** The JSON text *)

Section JsonText.

Import Json.

Lemma escape_char_printable (c : ascii) : forall_chars printable (escape_char c) = true.
Proof. destruct c as [[] [] [] [] [] [] [] []]; reflexivity. Qed.

Lemma encode_str_printable (s : string) : forall_chars printable (encode_str s) = true.
Proof.
  unfold encode_str. cbn [forall_chars]. rewrite forall_chars_append.
  replace (forall_chars printable (escape s)) with true; [reflexivity|].
  symmetry. induction s as [|c s IH]; [reflexivity|].
  cbn [escape]. now rewrite forall_chars_append, escape_char_printable, IH.
Qed.

Lemma concat_printable (sep : string) (l : list string) :
  forall_chars printable sep = true ->
  Forall (fun s => forall_chars printable s = true) l ->
  forall_chars printable (String.concat sep l) = true.
Proof.
  intros Hsep. induction 1 as [|s l Hs Hl IH]; [reflexivity|].
  destruct l as [|s' l]; [exact Hs|].
  change (String.concat sep (s :: s' :: l)) with (s ++ sep ++ String.concat sep (s' :: l)).
  now rewrite !forall_chars_append, Hs, Hsep, IH.
Qed.

Lemma str_int_printable (n : Z) : forall_chars printable (str_int n) = true.
Proof.
  apply str_int_chars; [|reflexivity].
  intros c Hc. unfold is_digit, printable, in_range in *.
  apply andb_true_iff in Hc. destruct Hc as [H1 H2].
  apply N.leb_le in H1, H2. apply andb_true_iff. split; apply N.leb_le; lia.
Qed.

(** X10.  Whatever the palette name and the hexadecimal strings hold, control
    characters and characters above 126 included, the JSON text is made
    of the characters from the space to the tilde only. *)
Theorem json_export_text_is_printable_ascii (palette_name filepath : string)
    (palette_rgb : list rgb_t) (palette_hex : list string) :
  exists text,
    ExportToJSon.export palette_name filepath palette_rgb palette_hex
      = mkWritten (TextFile text) None /\
    forall_chars printable text = true.
Proof.
  eexists. split; [reflexivity|].
  unfold ExportToJSon.output. cbn [dumps map String.concat].
  repeat (rewrite forall_chars_append || cbn [forall_chars String.append]).
  rewrite !encode_str_printable. cbn [andb].
  rewrite !concat_printable; try reflexivity.
  - apply Forall_forall. intros s Hs. apply in_map_iff in Hs.
    destruct Hs as (v & <- & Hv). apply in_map_iff in Hv. destruct Hv as (h & <- & _).
    apply encode_str_printable.
  - apply Forall_forall. intros s Hs. apply in_map_iff in Hs.
    destruct Hs as (v & <- & Hv). apply in_map_iff in Hv. destruct Hv as ([[r g] b] & <- & _).
    cbn [dumps map String.concat].
    repeat (rewrite forall_chars_append || cbn [forall_chars String.append]).
    now rewrite !str_int_printable.
Qed.

End JsonText.

(** ** The swatch image: what is drawn, and where *)

Lemma in_enumerate_from {A : Type} (l : list A) (start i : Z) (a : A) :
  In (i, a) (enumerate_from start l) ->
  start <= i < start + Z.of_nat (List.length l) /\ In a l.
Proof.
  revert start. induction l as [|x l IH]; intros start H; [contradiction|].
  cbn [enumerate_from In List.length] in *. destruct H as [[= <- <-]|H].
  - split; [lia|now left].
  - destruct (IH _ H). split; [lia|now right].
Qed.

Lemma length_concat_triples {A B : Type} (f : A -> list B) (l : list A) :
  (forall a, List.length (f a) = 3%nat) ->
  List.length (List.concat (map f l)) = (3 * List.length l)%nat.
Proof.
  intros Hf. induction l as [|a l IH]; [reflexivity|].
  cbn [map List.concat List.length]. rewrite length_app, Hf, IH. lia.
Qed.

Lemma length_enumerate_from {A : Type} (l : list A) (start : Z) :
  List.length (enumerate_from start l) = List.length l.
Proof. revert start. induction l as [|a l IH]; intros; simpl; [|rewrite IH]; reflexivity. Qed.

Section Swatches.

Variable config : Config.
Variable title_getlength subtitle_getlength : string -> Q.
Variable format_2f : Q -> string.
Variable enough_memory : Z -> Z -> bool.

Let c := columns config.
Let w := square_x config.
Let h := square_y config.

(** X11.  Take a positive number of columns, squares of positive size
    and a palette of [N] colours whose channels are bytes, with a canvas
    whose sides are below [2 ^ 31] and which can be allocated.  Three
    drawing calls are made for each colour.  Every square starts at a
    pixel of the canvas, and the pixels it asks for are in the columns 0
    to the width and the rows 0 to the height: since a rectangle includes
    both of its corners, that is one column and one row more than the
    canvas has.  When the palette is not empty the last square does ask
    for a pixel that is not on the canvas. *)
Theorem swatches_reach_the_canvas_edge (pal : Palette) (image : string) :
  let N := Z.of_nat (List.length (colors pal)) in
  let L := ceil_div N c in
  0 < c < 2 ^ 53 -> N < 2 ^ 53 -> 0 < w -> 0 < h ->
  Forall valid_rgb (palette_to_rgb pal) ->
  c * w < 2 ^ 31 -> L * h < 2 ^ 31 -> enough_memory (c * w) (L * h) = true ->
  exists img,
    create_palette_image config title_getlength subtitle_getlength format_2f enough_memory
                         pal (palette_to_rgb pal) image = Ok img /\
    List.length (im_ops img) = (3 * List.length (colors pal))%nat /\
    (forall op x0 y0,
       In op (im_ops img) -> rectangle_origin op = Some (x0, y0) ->
       pixel_of_canvas (im_width img) (im_height img) x0 y0) /\
    (forall op x y,
       In op (im_ops img) -> covered op x y ->
       0 <= x <= im_width img /\ 0 <= y <= im_height img) /\
    (0 < N ->
     exists op x y,
       In op (im_ops img) /\ covered op x y /\
       ~ pixel_of_canvas (im_width img) (im_height img) x y).
Proof.
  intros N L [Hc _] _ Hw Hh Hv Hwide Hhigh Hmem.
  pose proof (ceil_div_spec N c Hc) as HL. fold L in HL.
  assert (0 <= L) by (assert (0 <= N) by (unfold N; lia); nia).
  unfold create_palette_image. fold c w h N.
  destruct (Z.eqb_spec c 0) as [E|_]; [lia|]. fold L.
  unfold Image_new.
  destruct (Z.ltb_spec (c * w) 0) as [E|_]; [nia|].
  destruct (Z.ltb_spec (L * h) 0) as [E|_]; [nia|].
  destruct (Z.leb_spec (2 ^ 31) (c * w)) as [E|_]; [lia|].
  destruct (Z.leb_spec (2 ^ 31) (L * h)) as [E|_]; [lia|].
  rewrite Hmem.
  cbn [orb negb bind im_width im_height im_background].
  rewrite draw_swatches_accepted;
    [|unfold w in Hw; lia|unfold h in Hh; lia|apply Forall_enumerate_combine; exact Hv].
  cbn [bind].
  eexists. split; [reflexivity|]. cbn [im_width im_height im_ops].
  assert (Hin : forall op,
            In op (List.concat
                     (map (fun '(i, (color, rgb)) =>
                             draw_swatch config title_getlength subtitle_getlength format_2f
                                         i color rgb)
                          (enumerate (combine (colors pal) (palette_to_rgb pal))))) ->
            (exists t x y s b, op = Text x y t s b) \/
            exists i f o, 0 <= i < N /\
              op = Rectangle (i mod c * w) (i / c * h) (i mod c * w + w) (i / c * h + h) f o 5).
  { intros op Hop.
    apply in_concat in Hop. destruct Hop as (ops & Hops & Hop).
    apply in_map_iff in Hops. destruct Hops as ([i [color rgb]] & <- & Hi).
    apply in_enumerate_from in Hi. destruct Hi as [Hi _].
    rewrite length_combine in Hi.
    unfold draw_swatch in Hop. fold c w h in Hop. cbn [In] in Hop.
    destruct Hop as [<-|[<-|[<-|[]]]]; [right|left|left].
    - exists i. do 2 eexists. split; [unfold N; lia|reflexivity].
    - do 5 eexists. reflexivity.
    - do 5 eexists. reflexivity. }
  assert (Hplace : forall i, 0 <= i < N ->
            0 <= i mod c * w /\ i mod c * w + w <= c * w /\
            0 <= i / c * h /\ i / c * h + h <= L * h).
  { intros i Hi.
    pose proof (Z.mod_pos_bound i c Hc) as Hm.
    pose proof (Z.div_pos i c ltac:(lia) Hc) as Hd.
    assert (Hq : i / c < L) by (apply Z.div_lt_upper_bound; [exact Hc|nia]).
    repeat split; nia. }
  split; [|split; [|split]].
  - rewrite length_concat_triples by (intros [k [col r]]; reflexivity).
    unfold enumerate, palette_to_rgb.
    rewrite length_enumerate_from, length_combine, length_map. lia.
  - intros op x0 y0 Hop Ho.
    destruct (Hin op Hop) as [(t & x & y & s & b & ->)|(i & f & o & Hi & ->)];
      [discriminate Ho|].
    cbn [rectangle_origin] in Ho. injection Ho as <- <-.
    destruct (Hplace i Hi) as (H1 & H2 & H3 & H4). unfold pixel_of_canvas. lia.
  - intros op x y Hop Hcov.
    destruct (Hin op Hop) as [(t & x' & y' & s & b & ->)|(i & f & o & Hi & ->)];
      [destruct Hcov|].
    cbn [covered] in Hcov.
    destruct (Hplace i Hi) as (H1 & H2 & H3 & H4). lia.
  - intros HN.
    assert (Hlast : exists color, nth_error (colors pal) (Z.to_nat (N - 1)) = Some color).
    { destruct (nth_error (colors pal) (Z.to_nat (N - 1))) as [color|] eqn:E; [eauto|].
      apply nth_error_None in E. unfold N in *. lia. }
    destruct Hlast as (color & Hcolor).
    set (i := N - 1) in *.
    exists (Rectangle (i mod c * w) (i / c * h) (i mod c * w + w) (i / c * h + h)
                      (rgb color) (convert_rgb_to_hex (rgb color)) 5).
    exists (i mod c * w), (i / c * h + h).
    split; [|split].
    + apply (nth_error_In _ (3 * Z.to_nat i)).
      unfold palette_to_rgb, enumerate.
      eapply (nth_error_concat_triples _ _ (Z.to_nat i) (i, (color, rgb color))).
      * intros [k [col r]]. reflexivity.
      * rewrite (nth_error_enumerate_from _ 0 (Z.to_nat i) (color, rgb color)).
        -- f_equal. f_equal. unfold i. lia.
        -- now apply nth_error_combine_map.
      * unfold draw_swatch. fold c w h. reflexivity.
    + cbn [covered]. lia.
    + unfold pixel_of_canvas.
      assert (Hq : i / c = L - 1).
      { symmetry. apply (Z.div_unique i c (L - 1) (i - (L - 1) * c)); unfold i; lia. }
      rewrite Hq. nia.
Qed.

(** X12.  Squares of positive size never share a corner: two indices whose
    squares start at the same point are equal. *)
Theorem swatch_origins_are_distinct (i j : Z) (color color' : Color) (rgb rgb' : rgb_t) :
  0 < c -> 0 < w -> 0 < h -> 0 <= i -> 0 <= j ->
  map rectangle_origin
      (draw_swatch config title_getlength subtitle_getlength format_2f i color rgb)
  = map rectangle_origin
      (draw_swatch config title_getlength subtitle_getlength format_2f j color' rgb') ->
  i = j.
Proof.
  intros Hc Hw Hh Hi Hj. unfold draw_swatch. fold c w h.
  cbn [map rectangle_origin]. intros [= Hx Hy].
  apply Z.mul_cancel_r in Hx; [|lia]. apply Z.mul_cancel_r in Hy; [|lia].
  rewrite (Z.div_mod i c), (Z.div_mod j c) by lia. now rewrite Hx, Hy.
Qed.

End Swatches.

Lemma swatches_reach_the_canvas_edge_witness :
  let pal := mkPalette [mkColor (255, 255, 255) 0.4 255; mkColor (0, 0, 0) 0.3 0;
                        mkColor (255, 0, 0) 0.2 54; mkColor (0, 255, 0) 0.1 182] in
  exists img,
    create_palette_image (default_config "/out") (fun _ => 70%Q) (fun _ => 40%Q)
                         (fun _ => "0.00") (fun _ _ => true)
                         pal (palette_to_rgb pal) "/home/user/a.png" = Ok img /\
    List.length (im_ops img) = 12%nat /\
    exists op x y,
      In op (im_ops img) /\ covered op x y /\
      ~ pixel_of_canvas (im_width img) (im_height img) x y.
Proof.
  intros pal.
  destruct (swatches_reach_the_canvas_edge (default_config "/out") (fun _ => 70%Q)
              (fun _ => 40%Q) (fun _ => "0.00") (fun _ _ => true) pal "/home/user/a.png")
    as (img & Hi & Hl & _ & _ & Hout).
  - simpl. lia.
  - simpl. lia.
  - simpl. lia.
  - simpl. lia.
  - repeat constructor; simpl; lia.
  - simpl. lia.
  - vm_compute. reflexivity.
  - reflexivity.
  - exists img. split; [exact Hi|]. split; [exact Hl|]. apply Hout. simpl. lia.
Defined.

Lemma swatch_origins_are_distinct_witness :
  map rectangle_origin
      (draw_swatch (default_config "/out") (fun _ => 70%Q) (fun _ => 40%Q) (fun _ => "0.00")
                   4 (mkColor (0, 0, 0) 0.3 0) (0, 0, 0))
  = [Some (100, 100); None; None]
  /\ 4 = 4.
Proof.
  split; [reflexivity|].
  apply (swatch_origins_are_distinct (default_config "/out") (fun _ => 70%Q) (fun _ => 40%Q)
           (fun _ => "0.00") 4 4 (mkColor (0, 0, 0) 0.3 0) (mkColor (1, 1, 1) 0.1 9)
           (0, 0, 0) (1, 1, 1)); simpl; try lia. reflexivity.
Defined.

(** ** The extraction batch: the aborted run, the records *)

Section BatchRuns.

Variable config : Config.
Variable title_getlength subtitle_getlength : string -> Q.
Variable format_2f : Q -> string.
Variable enough_memory : Z -> Z -> bool.
Variable image_save : string -> Image -> result unit.
Variable extract_colors : string -> result Palette.

Let run := extract config title_getlength subtitle_getlength format_2f
    enough_memory image_save extract_colors.
Let loop :=
  extract_loop config title_getlength subtitle_getlength format_2f
      enough_memory image_save extract_colors.
Let save := save_palette config title_getlength subtitle_getlength format_2f
    enough_memory image_save.
Let records := records_of config title_getlength subtitle_getlength format_2f
    enough_memory image_save
                          extract_colors.
Let logged := log_of config title_getlength subtitle_getlength format_2f enough_memory image_save
                     extract_colors.

Lemma before_extraction_failure_extracted (images : list string) :
  forall image, In image (fst (before_extraction_failure extract_colors images)) ->
                exists pal, extract_colors image = Ok pal.
Proof.
  induction images as [|i images IH]; intros image Hin; [contradiction|].
  cbn [before_extraction_failure] in Hin.
  destruct (extract_colors i) as [pal|e] eqn:E; [|contradiction].
  destruct (before_extraction_failure extract_colors images) as [done e].
  cbn [fst In] in *. destruct Hin as [<-|Hin]; [eauto|auto].
Qed.

Lemma extract_loop_prefix (images : list string) (st : batch_state) :
  (forall p img, image_save p img <> Raise KeyboardInterrupt) ->
  let '(done, e) := before_extraction_failure extract_colors images in
  loop images st
  = (mkBatch (batch_palettes st ++ records done) (batch_log st ++ logged done), e).
Proof.
  intros Hfs. revert st.
  induction images as [|image images IH]; intros st.
  - cbn. unfold records, logged, records_of, log_of. cbn [flat_map].
    rewrite !app_nil_r. now destruct st.
  - cbn [before_extraction_failure]. unfold loop in *. cbn [extract_loop].
    unfold get_palette.
    destruct (extract_colors image) as [pal|e] eqn:Epal; cbn [bind].
    + destruct (before_extraction_failure extract_colors images) as [done e].
      unfold records, logged, records_of, log_of in *. cbn [flat_map].
      unfold processed at 1 3. rewrite Epal. fold save.
      destruct (save pal (palette_to_rgb pal) image) as [path|e'] eqn:Es.
      * rewrite IH. cbn [batch_palettes batch_log fst snd List.app].
        now rewrite <- !app_assoc.
      * rewrite (save_palette_raises config title_getlength subtitle_getlength format_2f enough_memory
                   image_save _ _ _ _ Hfs Es).
        rewrite IH. cbn [batch_palettes batch_log fst snd List.app].
        now rewrite <- !app_assoc.
    + unfold records, logged, records_of, log_of. cbn [flat_map].
      rewrite !app_nil_r. now destruct st.
Qed.

(** X13.  The batch handles the images that precede the first one whose
    extraction raises, each as it would be handled alone, and ends with
    that exception: the images that follow are not processed. *)
Theorem batch_stops_at_first_extraction_failure (images : list string) :
  (forall p img, image_save p img <> Raise KeyboardInterrupt) ->
  run images
  = (mkBatch (records (fst (before_extraction_failure extract_colors images)))
             (logged (fst (before_extraction_failure extract_colors images))),
     snd (before_extraction_failure extract_colors images)) /\
  (forall done image rest e,
     images = (done ++ image :: rest)%list ->
     (forall i, In i done -> exists pal, extract_colors i = Ok pal) ->
     extract_colors image = Raise e ->
     run images = (mkBatch (records done) (logged done), Some e)).
Proof.
  intros Hfs.
  assert (Hrun : run images
    = (mkBatch (records (fst (before_extraction_failure extract_colors images)))
               (logged (fst (before_extraction_failure extract_colors images))),
       snd (before_extraction_failure extract_colors images))).
  { pose proof (extract_loop_prefix images (mkBatch [] []) Hfs) as H.
    destruct (before_extraction_failure extract_colors images) as [done e].
    exact H. }
  split; [exact Hrun|].
  intros done image rest e -> Hdone Himage. rewrite Hrun.
  assert (Hb : before_extraction_failure extract_colors (done ++ image :: rest)
               = (done, Some e)).
  { clear Hrun. induction done as [|i done IH]; cbn [List.app before_extraction_failure].
    - now rewrite Himage.
    - destruct (Hdone i (or_introl eq_refl)) as [pal ->].
      rewrite IH; [reflexivity|]. intros j Hj. apply Hdone. now right. }
  now rewrite Hb.
Qed.




End BatchRuns.

Lemma batch_stops_at_first_extraction_failure_witness :
  extract (default_config "/out") (fun _ => 70%Q) (fun _ => 40%Q) (fun _ => "100.00") (fun _ _ => true)
          (save_except "") (extract_except "/in/b.png")
          ["/in/a.png"; "/in/b.png"; "/in/c.png"]
  = (mkBatch [mkPaletteObject (mkPalette [mkColor (0, 0, 0) 1 0]) "/in/a.png"
                              "/out/a_palette.png"] [],
     Some (OSError "cannot identify image file")).
Proof.
  refine (eq_trans
            (proj1 (batch_stops_at_first_extraction_failure (default_config "/out")
                      (fun _ => 70%Q) (fun _ => 40%Q) (fun _ => "100.00") (fun _ _ => true)
                      (save_except "") (extract_except "/in/b.png")
                      ["/in/a.png"; "/in/b.png"; "/in/c.png"] _)) _).
  - intros p img. unfold save_except. destruct (String.eqb p _); discriminate.
  - reflexivity.
Defined.

(** ** Output names of images in different directories *)

Lemma basename_acc_no_slash (name tail : string) :
  occurs "/" name = false ->
  PosixPath.basename_acc name tail = rev_string tail ++ name.
Proof.
  revert tail. induction name as [|c name IH]; intros tail Hn; cbn [PosixPath.basename_acc].
  - now rewrite append_nil_r.
  - cbn [occurs] in Hn. apply orb_false_iff in Hn. destruct Hn as [Hc Hn].
    rewrite Hc, (IH _ Hn), rev_string_cons, append_assoc. reflexivity.
Qed.

Lemma basename_acc_dir (dir name tail : string) :
  occurs "/" name = false ->
  PosixPath.basename_acc (dir ++ String "/" name) tail = name.
Proof.
  intros Hn. revert tail. induction dir as [|c dir IH]; intros tail;
    cbn [String.append PosixPath.basename_acc].
  - rewrite Ascii.eqb_refl. now rewrite basename_acc_no_slash.
  - destruct (Ascii.eqb c "/"); apply IH.
Qed.

Lemma before_first_stem (sep : ascii) (stem rest : string) :
  occurs sep stem = false -> before_first sep (stem ++ String sep rest) = stem.
Proof.
  induction stem as [|c stem IH]; intros Hs; cbn [String.append before_first].
  - now rewrite Ascii.eqb_refl.
  - cbn [occurs] in Hs. apply orb_false_iff in Hs. destruct Hs as [Hc Hs].
    now rewrite Hc, IH.
Qed.

(** X15.  The output name keeps neither the directory nor anything after the
    first dot of the file name: the images [{dir}/{stem}.{rest}], for
    every directory and every [rest], are all rendered and exported to the
    same files [{stem}_palette.{extension}], so that in one batch the later
    image overwrites the files of the earlier one. *)
Theorem same_stem_same_output_file (config : Config) (dir1 dir2 stem rest1 rest2 : string)
    (extension : string) :
  occurs "/" stem = false -> occurs "." stem = false ->
  occurs "/" rest1 = false -> occurs "/" rest2 = false ->
  palette_base_name (dir1 ++ "/" ++ stem ++ "." ++ rest1) = stem /\
  palette_file_path config (dir1 ++ "/" ++ stem ++ "." ++ rest1) extension
  = palette_file_path config (dir2 ++ "/" ++ stem ++ "." ++ rest2) extension /\
  palette_file_path config (dir1 ++ "/" ++ stem ++ "." ++ rest1) extension
  = PosixPath.join (save_path config) (stem ++ "_palette." ++ extension).
Proof.
  intros Hs Hd Hr1 Hr2.
  assert (Hbase : forall dir rest, occurs "/" rest = false ->
            before_first "." (PosixPath.basename (dir ++ "/" ++ stem ++ "." ++ rest)) = stem).
  { intros dir rest Hr. unfold PosixPath.basename.
    change (dir ++ "/" ++ stem ++ "." ++ rest) with (dir ++ String "/" (stem ++ String "." rest)).
    rewrite basename_acc_dir.
    - now apply before_first_stem.
    - rewrite occurs_append. cbn [occurs]. rewrite Hs, Hr. reflexivity. }
  split; [|split].
  - rewrite palette_base_name_spec. now apply Hbase.
  - unfold palette_file_path. now rewrite !Hbase.
  - unfold palette_file_path. now rewrite Hbase.
Qed.

Lemma same_stem_same_output_file_witness :
  palette_file_path (default_config "/out") "/photos/2023/cat.final.png" "png"
  = palette_file_path (default_config "/out") "/scans/cat.jpg" "png"
  /\ palette_file_path (default_config "/out") "/scans/cat.jpg" "png" = "/out/cat_palette.png".
Proof.
  split.
  - apply (same_stem_same_output_file (default_config "/out") "/photos/2023" "/scans" "cat"
             "final.png" "jpg" "png"); reflexivity.
  - reflexivity.
Defined.

(** ** The image selector *)

Section Selector.

Import ImageSelector.

Lemma try_methods_gives_way (name : string) (m : method) (rest : list (string * method))
    (multiple : bool) (title : string) :
  gives_way m multiple title ->
  snd (try_methods ((name, m) :: rest) multiple title)
  = snd (try_methods rest multiple title).
Proof.
  unfold gives_way. cbn [try_methods].
  destruct (m multiple title) as [[d|[[p|ps]|]]|e]; cbn [get_success is_Exception].
  - intros ->. reflexivity.
  - intros _. now destruct (try_methods rest multiple title).
  - intros _. now destruct (try_methods rest multiple title).
  - intros _. now destruct (try_methods rest multiple title).
  - intros ->. now destruct (try_methods rest multiple title).
Qed.

(** What a method that gives way adds to the run of the methods after
    it: the error it printed, and nothing else. *)
Lemma try_methods_gives_way_whole (name : string) (m : method) (rest : list (string * method))
    (multiple : bool) (title : string) :
  gives_way m multiple title ->
  try_methods ((name, m) :: rest) multiple title
  = ((error_printed name m multiple title ++ fst (try_methods rest multiple title))%list,
     snd (try_methods rest multiple title)).
Proof.
  unfold gives_way, error_printed. cbn [try_methods].
  destruct (m multiple title) as [[d|[[p|ps]|]]|e]; cbn [get_success is_Exception].
  - intros ->. now destruct (try_methods rest multiple title).
  - intros _. now destruct (try_methods rest multiple title).
  - intros _. now destruct (try_methods rest multiple title).
  - intros _. now destruct (try_methods rest multiple title).
  - intros ->. now destruct (try_methods rest multiple title).
Qed.

(** X16.  When the methods at the head of the list give way and the next
    one works technically, what [select_images] prints and returns is
    fixed by these methods alone: the errors of the methods that gave
    way, and the selection of the one that worked, or [None] when the
    user cancelled it.  The methods after it add nothing: they are not
    tried, so that a cancelled dialog is not followed by another one. *)
Theorem select_first_working_method (before after : list (string * method)) (name : string)
    (m : method) (d : DialogResult) (multiple : bool) (title : string) :
  Forall (fun nm => gives_way (snd nm) multiple title) before ->
  m multiple title = Returns (Dialog d) -> success d = true ->
  try_methods (before ++ (name, m) :: after) multiple title
  = (errors_printed before multiple title,
     Returns (if cancelled d then None else data d)).
Proof.
  intros Hbefore Hm Hs.
  induction Hbefore as [|[n' m'] before Hgw Hb IH].
  - cbn [List.app try_methods]. rewrite Hm. cbn [get_success]. rewrite Hs.
    now destruct (cancelled d).
  - cbn [List.app]. rewrite (try_methods_gives_way_whole n' m' _ multiple title Hgw), IH.
    reflexivity.
Qed.

Lemma select_first_working_method_witness :
  try_methods
    [ ("a", fun _ _ => Raises ImportError);
      ("b", fun _ _ => Returns (Dialog (mkDialogResult true true None)));
      ("c", fun _ _ => Returns (Dialog (mkDialogResult true false (Some (One "x.png"))))) ]
    false "Choose an image"
  = ([MethodError "a" ImportError], Returns None).
Proof.
  apply (select_first_working_method
           [("a", fun _ _ => Raises ImportError)]
           [("c", fun _ _ => Returns (Dialog (mkDialogResult true false (Some (One "x.png")))))]
           "b" (fun _ _ => Returns (Dialog (mkDialogResult true true None)))
           (mkDialogResult true true None) false "Choose an image").
  - repeat constructor.
  - reflexivity.
  - reflexivity.
Defined.

(** X17.  When every method gives way the answer is [None], and the last
    thing printed is that no selector could be opened. *)
Theorem select_none_when_all_give_way (methods : list (string * method)) (multiple : bool)
    (title : string) :
  Forall (fun nm => gives_way (snd nm) multiple title) methods ->
  snd (try_methods methods multiple title) = Returns None /\
  exists log, fst (try_methods methods multiple title) = (log ++ [NoSelector])%list.
Proof.
  induction 1 as [|[n m] methods Hgw Hm [IH1 (log & IH2)]].
  - split; [reflexivity|]. exists []. reflexivity.
  - split.
    + now rewrite (try_methods_gives_way n m methods multiple title Hgw).
    + unfold gives_way in Hgw. cbn [snd try_methods] in *.
      destruct (m multiple title) as [[d|[[p|ps]|]]|e]; cbn [get_success is_Exception].
      * rewrite Hgw. eauto.
      * destruct (try_methods methods multiple title) as [l r]. cbn [fst] in *. subst l.
        eexists (_ :: log). reflexivity.
      * destruct (try_methods methods multiple title) as [l r]. cbn [fst] in *. subst l.
        eexists (_ :: log). reflexivity.
      * destruct (try_methods methods multiple title) as [l r]. cbn [fst] in *. subst l.
        eexists (_ :: log). reflexivity.
      * rewrite Hgw.
        destruct (try_methods methods multiple title) as [l r]. cbn [fst] in *. subst l.
        eexists (_ :: log). reflexivity.
Qed.

Lemma select_none_when_all_give_way_witness :
  snd (try_methods [ ("a", fun _ _ => Raises ImportError);
                     ("b", fun _ _ => Returns (Dialog (mkDialogResult false false None))) ]
                   true "Choose") = Returns None.
Proof.
  apply (select_none_when_all_give_way
           [ ("a", fun _ _ => Raises ImportError);
             ("b", fun _ _ => Returns (Dialog (mkDialogResult false false None))) ]
           true "Choose").
  repeat constructor.
Defined.

Variable applescript tkinter qt windows_native : method.
Variable subprocess_run : list string -> outcome (Z * string).

(** X18.  On macOS the first method returns the selection itself, not a
    [DialogResult]: reading its [success] raises, the error is printed and
    the selection is dropped.  The answer is that of the tkinter and Qt
    dialogs, whatever was selected in the first dialog. *)
Theorem darwin_drops_the_applescript_selection (chosen : option selection)
    (multiple : bool) (title : string) :
  applescript multiple title = Returns (Bare chosen) ->
  let answer := select_images Darwin applescript tkinter qt windows_native subprocess_run
                              multiple title in
  snd answer
    = snd (try_methods [ ("select_images_tkinter", tkinter); ("select_images_qt", qt) ]
                       multiple title) /\
  (exists msg, hd_error (fst answer)
               = Some (MethodError "select_images_applescript" (AttributeError msg))) /\
  (gives_way tkinter multiple title -> gives_way qt multiple title ->
   snd answer = Returns None).
Proof.
  intros Ha answer.
  assert (Hgw : gives_way applescript multiple title) by (unfold gives_way; now rewrite Ha).
  split; [|split].
  - unfold answer, select_images. now apply try_methods_gives_way.
  - unfold answer, select_images.
    set (rest := [("select_images_tkinter", tkinter); ("select_images_qt", qt)]).
    cbn [try_methods]. rewrite Ha.
    destruct chosen as [[p|ps]|]; cbn [get_success is_Exception];
      destruct (try_methods rest multiple title); cbn [fst hd_error]; eauto.
  - intros Ht Hq. unfold answer, select_images.
    now rewrite !try_methods_gives_way.
Qed.

End Selector.

Lemma darwin_drops_the_applescript_selection_witness :
  snd (ImageSelector.select_images ImageSelector.Darwin
         (fun _ _ => ImageSelector.Returns
                       (ImageSelector.Bare (Some (ImageSelector.One "/Users/u/cat.png"))))
         (fun _ _ => ImageSelector.Raises ImageSelector.ImportError)
         (fun _ _ => ImageSelector.Raises ImageSelector.ImportError)
         (fun _ _ => ImageSelector.Raises ImageSelector.ImportError)
         (fun _ => ImageSelector.Raises ImageSelector.FileNotFoundError)
         false "Choose an image")
  = ImageSelector.Returns None.
Proof.
  apply (darwin_drops_the_applescript_selection
           (fun _ _ => ImageSelector.Returns
                         (ImageSelector.Bare (Some (ImageSelector.One "/Users/u/cat.png"))))
           (fun _ _ => ImageSelector.Raises ImageSelector.ImportError)
           (fun _ _ => ImageSelector.Raises ImageSelector.ImportError)
           (fun _ _ => ImageSelector.Raises ImageSelector.ImportError)
           (fun _ => ImageSelector.Raises ImageSelector.FileNotFoundError)
           (Some (ImageSelector.One "/Users/u/cat.png")) false "Choose an image" eq_refl);
    reflexivity.
Defined.

Section Zenity.

Import ImageSelector.

Lemma split_joined (sep : ascii) (f : string) (fs : list string) :
  Forall (fun s => occurs sep s = false) (f :: fs) ->
  split sep (String.concat (String sep "") (f :: fs)) = f :: fs.
Proof.
  assert (Hno : forall s, occurs sep s = false ->
            forall_chars (fun c => negb (Ascii.eqb c sep)) s = true).
  { induction s as [|c s IH]; [reflexivity|]. cbn [occurs forall_chars].
    intros H. apply orb_false_iff in H. destruct H as [-> H]. now rewrite IH. }
  revert f. induction fs as [|g fs IH]; intros f Hall; inversion Hall as [|? ? Hf Hfs]; subst.
  - unfold split. cbn [String.concat].
    now destruct (split_acc_field sep f "" (Hno f Hf)) as [_ ->].
  - change (String.concat (String sep "") (f :: g :: fs))
      with (f ++ String sep (String.concat (String sep "") (g :: fs))).
    unfold split in *.
    destruct (split_acc_field sep f "" (Hno f Hf)) as [-> _].
    now rewrite (IH g Hfs).
Qed.

Lemma starts_solid_append (s t : string) :
  starts_solid s = true -> starts_solid (s ++ t) = true.
Proof. destruct s; [discriminate|auto]. Qed.

Lemma starts_solid_joined (f : string) (fs : list string) :
  starts_solid f = true -> starts_solid (String.concat "|" (f :: fs)) = true.
Proof.
  intros Hf. destruct fs as [|g fs]; [exact Hf|].
  change (String.concat "|" (f :: g :: fs)) with (f ++ "|" ++ String.concat "|" (g :: fs)).
  now apply starts_solid_append.
Qed.

Lemma ends_solid_joined (f : string) (fs : list string) :
  ends_solid (last (f :: fs) "") = true ->
  ends_solid (String.concat "|" (f :: fs)) = true.
Proof.
  revert f. induction fs as [|g fs IH]; intros f Hl; [exact Hl|].
  change (String.concat "|" (f :: g :: fs)) with (f ++ "|" ++ String.concat "|" (g :: fs)).
  unfold ends_solid in *. rewrite !rev_string_append.
  rewrite append_assoc. apply starts_solid_append. apply IH. exact Hl.
Qed.

Lemma lstrip_solid (s : string) : starts_solid s = true -> lstrip s = s.
Proof.
  destruct s as [|c s]; [discriminate|]. cbn [starts_solid lstrip].
  intros H. apply negb_true_iff in H. now rewrite H.
Qed.

(** White space at the end of a text that is solid at both ends is
    stripped, and nothing else. *)
Lemma strip_solid_newline (s : string) :
  starts_solid s = true -> ends_solid s = true ->
  strip (s ++ String "010" "") = s /\ strip s = s.
Proof.
  intros Hs He. unfold strip, rstrip.
  rewrite (lstrip_solid _ (starts_solid_append s _ Hs)), (lstrip_solid s Hs).
  rewrite rev_string_append. change (rev_string (String "010" "")) with (String "010" "").
  cbn [String.append lstrip]. change (is_space "010") with true. cbv iota.
  unfold ends_solid in He. rewrite (lstrip_solid _ He).
  now rewrite rev_string_involutive.
Qed.

Variable applescript tkinter qt windows_native : method.
Variable subprocess_run : list string -> outcome (Z * string).

(** X19.  On Linux, when zenity ends with code 0 and prints the selected
    paths joined by ['|'] and followed by a line feed, the selection is the
    list of these paths, provided no path holds a ['|'] and the listing
    neither starts nor ends with white space; nothing is printed and no
    other dialog is opened. *)
Theorem zenity_lists_the_selected_files (first : string) (others : list string)
    (title : string) :
  let files := first :: others in
  starts_solid first = true ->
  ends_solid (last files "") = true ->
  Forall (fun f => occurs "|" f = false) files ->
  (forall cmd, subprocess_run cmd
               = Returns (0, String.concat "|" files ++ String "010" "")) ->
  select_images_zenity Posix subprocess_run true title
    = Returns (Dialog (mkDialogResult true false (Some (Many files)))) /\
  select_images Posix applescript tkinter qt windows_native subprocess_run true title
    = ([], Returns (Some (Many files))).
Proof.
  intros files Hfirst Hlast Hbar Hrun.
  assert (Hz : select_images_zenity Posix subprocess_run true title
               = Returns (Dialog (mkDialogResult true false (Some (Many files))))).
  { unfold select_images_zenity. rewrite Hrun. cbn [Z.eqb].
    destruct (strip_solid_newline (String.concat "|" files)
                (starts_solid_joined first others Hfirst)
                (ends_solid_joined first others Hlast)) as [-> _].
    pose proof (starts_solid_joined first others Hfirst) as Hne.
    fold files in Hne.
    destruct (String.eqb_spec (String.concat "|" files) "") as [E|_];
      [rewrite E in Hne; discriminate|].
    unfold files. now rewrite (split_joined "|" first others Hbar). }
  split; [exact Hz|].
  unfold select_images. cbn [try_methods]. now rewrite Hz.
Qed.

(** X20.  On Linux, when zenity ends with code 1 the user cancelled: the
    answer is [None] and no other dialog is opened.  When zenity cannot be
    run, or ends with another code, the tkinter dialog is tried next. *)
Theorem zenity_cancel_and_failure (multiple : bool) (title : string) :
  ((forall cmd, exists out, subprocess_run cmd = Returns (1, out)) ->
   select_images Posix applescript tkinter qt windows_native subprocess_run multiple title
   = ([], Returns None)) /\
  ((forall cmd, subprocess_run cmd = Raises FileNotFoundError \/
                subprocess_run cmd = Raises TimeoutExpired \/
                exists code out, subprocess_run cmd = Returns (code, out)
                                 /\ code <> 0 /\ code <> 1) ->
   select_images Posix applescript tkinter qt windows_native subprocess_run multiple title
   = try_methods [ ("select_images_tkinter", tkinter); ("select_images_qt", qt) ]
                 multiple title).
Proof.
  split.
  - intros Hrun. unfold select_images.
    set (rest := [("select_images_tkinter", tkinter); ("select_images_qt", qt)]).
    cbn [try_methods]. unfold select_images_zenity.
    match goal with
    | |- context [subprocess_run ?cmd] => destruct (Hrun cmd) as [out ->]
    end.
    reflexivity.
  - intros Hrun. unfold select_images.
    set (rest := [("select_images_tkinter", tkinter); ("select_images_qt", qt)]).
    cbn [try_methods]. unfold select_images_zenity.
    match goal with
    | |- context [subprocess_run ?cmd] =>
        destruct (Hrun cmd) as [->|[->|(code & out & -> & H0 & H1)]]
    end; try reflexivity.
    destruct (Z.eqb_spec code 0); [contradiction|].
    destruct (Z.eqb_spec code 1); [contradiction|]. reflexivity.
Qed.

End Zenity.

Lemma zenity_lists_the_selected_files_witness :
  ImageSelector.select_images_zenity ImageSelector.Posix
    (fun _ => ImageSelector.Returns
                (0, String.concat "|" ["/home/u/my cat.png"; "/home/u/dog.jpg"]
                    ++ String "010" ""))
    true "Choose one or more images"
  = ImageSelector.Returns
      (ImageSelector.Dialog
         (ImageSelector.mkDialogResult true false
            (Some (ImageSelector.Many ["/home/u/my cat.png"; "/home/u/dog.jpg"])))).
Proof.
  apply (zenity_lists_the_selected_files
           (fun _ _ => ImageSelector.Raises ImageSelector.ImportError)
           (fun _ _ => ImageSelector.Raises ImageSelector.ImportError)
           (fun _ _ => ImageSelector.Raises ImageSelector.ImportError)
           (fun _ _ => ImageSelector.Raises ImageSelector.ImportError)
           _ "/home/u/my cat.png" ["/home/u/dog.jpg"] "Choose one or more images").
  - reflexivity.
  - reflexivity.
  - repeat constructor.
  - intros cmd. reflexivity.
Defined.

Lemma zenity_cancel_and_failure_witness :
  ImageSelector.select_images ImageSelector.Posix
    (fun _ _ => ImageSelector.Raises ImageSelector.ImportError)
    (fun _ _ => ImageSelector.Returns
                  (ImageSelector.Dialog
                     (ImageSelector.mkDialogResult true false
                        (Some (ImageSelector.One "x.png")))))
    (fun _ _ => ImageSelector.Raises ImageSelector.ImportError)
    (fun _ _ => ImageSelector.Raises ImageSelector.ImportError)
    (fun _ => ImageSelector.Returns (1, ""))
    false "Choose an image"
  = ([], ImageSelector.Returns None).
Proof.
  apply (proj1 (zenity_cancel_and_failure
                  (fun _ _ => ImageSelector.Raises ImageSelector.ImportError)
                  (fun _ _ => ImageSelector.Returns
                                (ImageSelector.Dialog
                                   (ImageSelector.mkDialogResult true false
                                      (Some (ImageSelector.One "x.png")))))
                  (fun _ _ => ImageSelector.Raises ImageSelector.ImportError)
                  (fun _ _ => ImageSelector.Raises ImageSelector.ImportError)
                  (fun _ => ImageSelector.Returns (1, ""))
                  false "Choose an image")).
  intros cmd. exists "". reflexivity.
Defined.
(** ** The loop of [main] *)

Lemma startswith_cons (a : ascii) (p s : string) :
  startswith (String a p) s = true ->
  exists s', s = String a s' /\ startswith p s' = true.
Proof.
  destruct s as [|b s]; cbn [startswith]; [discriminate|].
  intros H. apply andb_true_iff in H. destruct H as [H1 H2].
  apply Ascii.eqb_eq in H1. subst b. eauto.
Qed.

Lemma startswith_longer (p q s : string) :
  startswith p s = false -> startswith (p ++ q) s = false.
Proof.
  revert s. induction p as [|a p IH]; intros s; cbn [String.append startswith].
  - discriminate.
  - destruct s as [|b s]; [reflexivity|].
    destruct (Ascii.eqb a b); cbn [andb]; [apply IH|reflexivity].
Qed.

Lemma str_int_word (k : Z) : word (str_int k).
Proof.
  split.
  - destruct (str_int_cases k) as [[_ ->]|[(p & _ & ->)|(p & _ & ->)]]; try discriminate.
    destruct (to_uint_head p) as (c & s & -> & _). discriminate.
  - apply str_int_chars; [intros c Hc|reflexivity].
    unfold is_digit, is_space, in_range in *.
    destruct (code c) as [|q]; [discriminate|].
    repeat (destruct q as [q|q|]; try discriminate; try reflexivity).
Qed.

Lemma str_int_no_dash (k : Z) : 0 <= k -> startswith "-" (str_int k) = false.
Proof.
  intros Hk.
  destruct (str_int_cases k) as [[_ ->]|[(p & _ & ->)|(p & E & _)]]; [reflexivity| |lia].
  destruct (to_uint_head p) as (c & s & -> & Hc & _). cbn [startswith].
  destruct (Ascii.eqb_spec "-" c) as [<-|_]; [discriminate Hc|reflexivity].
Qed.

Ltac not_the_line :=
  repeat match goal with
  | |- context [String.eqb ?s ?t] =>
      destruct (String.eqb_spec s t) as [?E|_]; [discriminate|]
  end.

Section MainTurn.

Variable config : Config.
Variable title_getlength subtitle_getlength : string -> Q.
Variable format_2f : Q -> string.
Variable enough_memory : Z -> Z -> bool.
Variable image_save : string -> Image -> result unit.
Variable extract_colors : string -> result Palette.
Variable path_exists path_isfile : string -> bool.
Variable select_images :
  bool -> string ->
  list ImageSelector.stderr_line * ImageSelector.outcome (option ImageSelector.selection).

Let run := run_action config title_getlength subtitle_getlength format_2f enough_memory image_save
                      extract_colors.
Let turn_of := main_turn config title_getlength subtitle_getlength format_2f
    enough_memory image_save
                         extract_colors path_exists path_isfile select_images.

Lemma run_action_handled (pl : PaletteList) (action : string) (indice : Z)
    (display : option bool) (sel : ImageSelector.selection) :
  In action handled_actions -> fst (run pl action indice display sel) = pl.
Proof.
  intros H. unfold run, run_action.
  repeat (destruct H as [<-|H]; [cbn [String.eqb Ascii.eqb Bool.eqb andb];
    try reflexivity;
    match goal with |- context [let '(_, _) := ?x in _] => now destruct x end|]).
  destruct H.
Qed.

(** X21.  A line that begins with [/s] or with [/l] is always taken as the
    show or the list command, whatever follows: the prompt neither looks
    at the file system nor opens the file selector, so that [/select] is
    handled as a show command and an image whose path begins with [/s] or
    [/l] cannot be given by typing its path.  The turn leaves the
    collection as it is. *)
Theorem slash_s_and_slash_l_lines_are_commands (pl : PaletteList) (line : string) :
  startswith "/s" line || startswith "/l" line = true ->
  (forall path_exists' path_isfile' select_images',
     read_option path_exists path_isfile select_images pl line
     = read_option path_exists' path_isfile' select_images' pl line) /\
  (forall action indice display sel,
     read_option path_exists path_isfile select_images pl line
     = Proceed action indice display sel ->
     (action = "show" \/ action = "list") /\ sel = ImageSelector.One line) /\
  fst (turn_of pl line) = pl.
Proof.
  intros H. apply orb_true_iff in H.
  assert (Hshape : exists c l, line = String "/" (String c l) /\
                               (c = "s"%char \/ c = "l"%char)).
  { destruct H as [H|H]; apply startswith_cons in H; destruct H as (s1 & -> & H);
      apply startswith_cons in H; destruct H as (s2 & -> & _); eauto. }
  destruct Hshape as (c & l & -> & Hc).
  assert (Hread : forall pe pf si,
            read_option pe pf si pl (String "/" (String c l))
            = if Ascii.eqb c "s" then
                match get_indice_from_option (String "/" (String c l)) pl false with
                | Some indice =>
                    if indice =? 0 then Again "Invalid palette index."
                    else Proceed "show" indice
                           (Some (get_display_from_option (String "/" (String c l))))
                           (ImageSelector.One (String "/" (String c l)))
                | None => Again "Invalid palette index."
                end
              else if Z.of_nat (List.length (palettes pl)) =? 0
                   then Again "No palette available."
                   else Proceed "list" 0 None (ImageSelector.One (String "/" (String c l)))).
  { intros pe pf si. unfold read_option.
    destruct Hc as [-> | ->]; not_the_line; reflexivity. }
  split; [|split].
  - intros pe pf si. now rewrite !Hread.
  - intros action indice display sel. rewrite Hread.
    destruct (Ascii.eqb c "s").
    + destruct (get_indice_from_option _ pl false) as [i|]; [|discriminate].
      destruct (i =? 0); [discriminate|]. intros [= <- <- <- <-]. auto.
    + destruct (_ =? 0); [discriminate|]. intros [= <- <- <- <-]. auto.
  - unfold turn_of, main_turn. rewrite Hread.
    destruct (Ascii.eqb c "s").
    + destruct (get_indice_from_option _ pl false) as [i|]; [|reflexivity].
      destruct (i =? 0); [reflexivity|].
      pose proof (run_action_handled pl "show" i
                    (Some (get_display_from_option (String "/" (String c l))))
                    (ImageSelector.One (String "/" (String c l)))) as Hk.
      unfold run in Hk. destruct (run_action _ _ _ _ _ _ _ _ _ _ _) as [pl' t].
      apply Hk. cbn. auto.
    + destruct (_ =? 0); [reflexivity|].
      pose proof (run_action_handled pl "list" 0 None
                    (ImageSelector.One (String "/" (String c l)))) as Hk.
      unfold run in Hk. destruct (run_action _ _ _ _ _ _ _ _ _ _ _) as [pl' t].
      apply Hk. cbn. tauto.
Qed.

Lemma read_option_export (pl : PaletteList) (line pre : string) :
  In pre ["/csv"; "/json"; "/gpl"; "/aco"] -> startswith pre line = true ->
  read_option path_exists path_isfile select_images pl line
  = match get_indice_from_option line pl true with
    | Some indice =>
        if indice =? 0 then Again "Invalid palette index."
        else Proceed (get_action_from_option line) indice None (ImageSelector.One line)
    | None => Again "Invalid palette index."
    end.
Proof.
  intros Hpre H.
  repeat (destruct Hpre as [<-|Hpre];
          [repeat (apply startswith_cons in H; destruct H as (?s & -> & H));
           unfold read_option; not_the_line; reflexivity|]).
  destruct Hpre.
Qed.

(** X22.  The show command never reaches past the collection.  For a
    line that begins with [/s] the prompt either prints that the palette
    index is invalid and comes again, or leaves the loop with the show
    action, the index of a palette of the collection and the display flag
    of the line, and that palette is the one shown; the collection is left
    as it is.  With an empty collection the line is always refused. *)
Theorem show_command_shows_an_existing_palette (pl : PaletteList) (line : string) :
  startswith "/s" line = true ->
  (read_option path_exists path_isfile select_images pl line
     = Again "Invalid palette index." /\
   turn_of pl line = (pl, PromptAgain "Invalid palette index.")) \/
  exists indice p,
    1 <= indice <= Z.of_nat (List.length (palettes pl)) /\
    nth_error (palettes pl) (Z.to_nat (indice - 1)) = Some p /\
    read_option path_exists path_isfile select_images pl line
      = Proceed "show" indice (Some (get_display_from_option line))
                (ImageSelector.One line) /\
    turn_of pl line
      = (pl, ActionDone (PaletteInfo (Ok p) indice (Some (get_display_from_option line)))).
Proof.
  intros H. pose proof H as H'.
  apply startswith_cons in H. destruct H as (s1 & -> & H).
  apply startswith_cons in H. destruct H as (s2 & -> & _).
  set (line := String "/" (String "s" s2)) in *.
  unfold turn_of, main_turn.
  assert (Hread : read_option path_exists path_isfile select_images pl line
                  = match get_indice_from_option line pl false with
                    | Some indice =>
                        if indice =? 0 then Again "Invalid palette index."
                        else Proceed "show" indice (Some (get_display_from_option line))
                                     (ImageSelector.One line)
                    | None => Again "Invalid palette index."
                    end).
  { unfold read_option, line. not_the_line. reflexivity. }
  rewrite Hread.
  pose proof (get_indice_bounds line pl false) as Hb.
  destruct (get_indice_from_option line pl false) as [i|]; [|left; split; reflexivity].
  destruct (Z.eqb_spec i 0); [left; split; reflexivity|].
  destruct Hb as [[_ Hb]|Hb]; [discriminate Hb|].
  destruct (nth_error (palettes pl) (Z.to_nat (i - 1))) as [p|] eqn:Ep;
    [|apply nth_error_None in Ep; lia].
  right. exists i, p. split; [exact Hb|]. split; [exact Ep|]. split; [reflexivity|].
  unfold run_action. cbn [String.eqb Ascii.eqb Bool.eqb andb].
  unfold py_getitem.
  destruct (Z.ltb_spec (i - 1) 0); [lia|].
  destruct (Z.ltb_spec (i - 1) 0); [lia|].
  destruct (Z.leb_spec (Z.of_nat (List.length (palettes pl))) (i - 1)); [lia|].
  cbn [orb]. now rewrite Ep.
Qed.

(** X23.  An export command followed by the number of a palette writes one
    file, named after the image of that palette with the extension of the
    format, holding what the exporter of the format produces for the
    colours of that palette; followed by [ALL] it runs the exporter over
    the whole collection.  The collection is left as it is. *)
Theorem export_command_writes_the_chosen_palette (pl : PaletteList) (cmd : string)
    (exporter : Exporter) (extension : string) (k : Z) (p : PaletteObject) :
  In (cmd, exporter, extension) export_commands ->
  1 <= k -> nth_error (palettes pl) (Z.to_nat (k - 1)) = Some p ->
  let file_path := palette_file_path config (image_path p) extension in
  let w := Exporter_export exporter
             (before_first "." (PosixPath.basename (image_path p))) file_path
             (palette_to_rgb (palette p))
             (map (fun color => convert_rgb_to_hex (rgb color)) (colors (palette p))) in
  turn_of pl (cmd ++ " " ++ str_int k)
  = (pl, ActionDone (Exported [(file_path, content w)] (raised w))) /\
  turn_of pl (cmd ++ " ALL")
  = (pl, ActionDone (Exported (fst (export_each config exporter extension (palettes pl)))
                        (snd (export_each config exporter extension (palettes pl))))).
Proof.
  intros Hcmd Hk Hp file_path w.
  assert (Hn : k <= Z.of_nat (List.length (palettes pl))).
  { assert (Z.to_nat (k - 1) < List.length (palettes pl))%nat
      by (apply nth_error_Some; now rewrite Hp). lia. }
  assert (Hpre : In cmd ["/csv"; "/json"; "/gpl"; "/aco"] /\ word cmd /\
                 String.eqb (drop_first cmd) extension = true /\
                 In extension ["csv"; "json"; "gpl"; "aco"]).
  { unfold export_commands in Hcmd.
    repeat (destruct Hcmd as [[= <- <- <-]|Hcmd];
            [split; [cbn; tauto|split; [split; [discriminate|reflexivity]|
                                        split; [reflexivity|cbn; tauto]]]|]).
    destruct Hcmd. }
  destruct Hpre as (Hpre & Hword & Hext & Hexts).
  assert (Hstart : forall tok, startswith cmd (cmd ++ " " ++ tok) = true).
  { intros tok. clear - Hpre.
    repeat (destruct Hpre as [<-|Hpre]; [reflexivity|]). destruct Hpre. }
  assert (Hact : forall tok, word tok ->
            get_action_from_option (cmd ++ " " ++ tok) = drop_first cmd).
  { intros tok Ht. unfold get_action_from_option.
    now rewrite (split_command_token cmd tok Hword Ht). }
  assert (Hrun : forall indice sel,
            run pl (drop_first cmd) indice None sel
            = (pl, Exported (fst (export config exporter pl indice extension))
                            (snd (export config exporter pl indice extension)))).
  { intros indice sel. clear - Hcmd. unfold run, run_action, export_commands in *.
    repeat (destruct Hcmd as [[= <- <- <-]|Hcmd];
            [cbn [drop_first String.eqb Ascii.eqb Bool.eqb andb];
             unfold export_csv, export_json, export_gpl, export_aco;
             now destruct (export _ _ _ _ _)|]).
    destruct Hcmd. }
  split.
  - unfold turn_of, main_turn.
    rewrite (read_option_export pl _ cmd Hpre (Hstart _)).
    rewrite (get_indice_command_token cmd (str_int k) pl true Hword (str_int_word k)).
    cbv zeta. rewrite (str_int_no_dash k) by lia. rewrite int_of_str_str_int.
    cbn [andb].
    destruct (String.eqb_spec (str_int k) "all") as [E|_].
    { pose proof (int_of_str_str_int k) as Hi. rewrite E in Hi. discriminate Hi. }
    destruct (String.eqb_spec (str_int k) "ALL") as [E|_].
    { pose proof (int_of_str_str_int k) as Hi. rewrite E in Hi. discriminate Hi. }
    cbn [orb].
    destruct (Z.leb_spec 1 k); [|lia].
    destruct (Z.leb_spec k (Z.of_nat (List.length (palettes pl)))); [|lia].
    cbn [andb]. destruct (Z.eqb_spec k 0); [lia|].
    rewrite (Hact _ (str_int_word k)).
    unfold run in Hrun. rewrite Hrun.
    unfold export. destruct (Z.eqb_spec k (-1)); [lia|].
    unfold py_getitem.
    destruct (Z.ltb_spec (k - 1) 0); [lia|].
    destruct (Z.ltb_spec (k - 1) 0); [lia|].
    destruct (Z.leb_spec (Z.of_nat (List.length (palettes pl))) (k - 1)); [lia|].
    cbn [orb]. rewrite Hp. cbn [bind export_each].
    rewrite palette_base_name_spec. fold file_path.
    unfold palette_file_path in file_path. fold file_path. fold w.
    destruct (raised w); reflexivity.
  - unfold turn_of, main_turn.
    change (cmd ++ " ALL") with (cmd ++ " " ++ "ALL").
    rewrite (read_option_export pl _ cmd Hpre (Hstart _)).
    assert (Hall : word "ALL") by (split; [discriminate|reflexivity]).
    rewrite (get_indice_command_token cmd "ALL" pl true Hword Hall).
    cbv zeta. cbn [startswith Ascii.eqb Bool.eqb andb String.eqb orb Z.eqb].
    rewrite (Hact _ Hall).
    unfold run in Hrun. rewrite Hrun. reflexivity.
Qed.

Lemma run_action_extraction (pl : PaletteList) (action : string) (indice : Z)
    (display : option bool) (line : string) :
  ~ In action handled_actions ->
  run pl action indice display (ImageSelector.One line)
  = (let batch := extract config title_getlength subtitle_getlength format_2f enough_memory
                          image_save extract_colors [line] in
     (mkPaletteList (batch_palettes (fst batch)),
      Extracted (batch_log (fst batch)) (snd batch))).
Proof.
  intros H. unfold run, run_action.
  repeat match goal with
  | |- context [String.eqb action ?t] =>
      destruct (String.eqb_spec action t) as [E|_];
      [exfalso; apply H; rewrite E; cbn; tauto|]
  end.
  cbv zeta. now destruct (extract _ _ _ _ _ _ _).
Qed.

Lemma extract_one (line : string) :
  extract config title_getlength subtitle_getlength format_2f
      enough_memory image_save extract_colors [line]
  = match extract_colors line with
    | Raise e => (mkBatch [] [], Some e)
    | Ok palette =>
        match save_palette config title_getlength subtitle_getlength format_2f
            enough_memory image_save
                           palette (palette_to_rgb palette) line with
        | Ok palette_path => (mkBatch [mkPaletteObject palette line palette_path] [], None)
        | Raise e =>
            if is_Exception e then (mkBatch [] [GenerationError line e], None)
            else (mkBatch [] [], Some e)
        end
    end.
Proof.
  unfold extract. cbn [extract_loop]. unfold get_palette.
  destruct (extract_colors line) as [palette|e]; cbn [bind]; [|reflexivity].
  destruct (save_palette _ _ _ _ _ _ _ _) as [palette_path|e]; [reflexivity|].
  destruct (is_Exception e); reflexivity.
Qed.

(** X24.  An export command with characters appended to its name, such as
    [/csvx] or [/json2], is not refused when the collection is not empty:
    its action is none of those that [main] handles, so the collection is
    emptied and the extraction runs on the line itself as if it were the
    path of an image.  When the extraction library raises on that path the
    collection stays empty and the exception leaves the loop. *)
Theorem longer_export_command_starts_an_extraction (pl : PaletteList)
    (pre suffix : string) :
  In pre ["/csv"; "/json"; "/gpl"; "/aco"] ->
  suffix <> "" -> forall_chars (fun c => negb (is_space c)) suffix = true ->
  1 <= Z.of_nat (List.length (palettes pl)) ->
  let line := pre ++ suffix in
  let batch := extract config title_getlength subtitle_getlength format_2f enough_memory
                       image_save extract_colors [line] in
  read_option path_exists path_isfile select_images pl line
    = Proceed (drop_first line) 1 None (ImageSelector.One line) /\
  turn_of pl line
    = (mkPaletteList (batch_palettes (fst batch)),
       ActionDone (Extracted (batch_log (fst batch)) (snd batch))) /\
  (forall e, extract_colors line = Raise e ->
             turn_of pl line = (mkPaletteList [], ActionDone (Extracted [] (Some e)))).
Proof.
  intros Hpre Hne Hsuf Hn line batch.
  assert (Hword : word line).
  { split.
    - unfold line. clear - Hpre.
      repeat (destruct Hpre as [<-|Hpre]; [discriminate|]). destruct Hpre.
    - unfold line. rewrite forall_chars_append, Hsuf.
      clear - Hpre. repeat (destruct Hpre as [<-|Hpre]; [reflexivity|]). destruct Hpre. }
  assert (Hstart : startswith pre line = true).
  { unfold line. clear - Hpre.
    repeat (destruct Hpre as [<-|Hpre]; [reflexivity|]). destruct Hpre. }
  assert (Hact : ~ In (drop_first line) handled_actions).
  { unfold line. clear - Hpre Hne. destruct suffix as [|c suffix]; [contradiction|].
    repeat (destruct Hpre as [<-|Hpre];
            [cbn; intros H; repeat (destruct H as [H|H]; [discriminate H|]); exact H|]).
    destruct Hpre. }
  assert (Hread : read_option path_exists path_isfile select_images pl line
                  = Proceed (drop_first line) 1 None (ImageSelector.One line)).
  { rewrite (read_option_export pl line pre Hpre Hstart).
    rewrite (get_indice_command line pl true Hword). unfold first_index.
    destruct (Z.leb_spec 1 (Z.of_nat (List.length (palettes pl)))); [|lia].
    cbn [Z.eqb]. unfold get_action_from_option.
    now rewrite (split_command line Hword). }
  assert (Hturn : turn_of pl line
                  = (mkPaletteList (batch_palettes (fst batch)),
                     ActionDone (Extracted (batch_log (fst batch)) (snd batch)))).
  { unfold turn_of, main_turn. rewrite Hread.
    pose proof (run_action_extraction pl (drop_first line) 1 None line Hact) as Hrun.
    unfold run in Hrun. rewrite Hrun. reflexivity. }
  split; [exact Hread|]. split; [exact Hturn|].
  intros e He. rewrite Hturn. unfold batch. rewrite extract_one, He. reflexivity.
Qed.

(** X25.  A line that is not taken as a command and is the path of an
    existing file starts an extraction on that file, even when it is the
    menu option [1] or [2].  The collection afterwards does not depend on
    the collection before: it holds the record of the new image when the
    extraction and the rendering succeed, and it is empty when one of them
    fails. *)
Theorem typed_image_path_replaces_the_collection (pl : PaletteList) (line : string) :
  taken_as_command line = false -> path_exists line = true -> path_isfile line = true ->
  (forall pl', turn_of pl' line = turn_of pl line) /\
  (forall e, extract_colors line = Raise e ->
     turn_of pl line = (mkPaletteList [], ActionDone (Extracted [] (Some e)))) /\
  (forall palette palette_path,
     extract_colors line = Ok palette ->
     save_palette config title_getlength subtitle_getlength format_2f enough_memory image_save
                  palette (palette_to_rgb palette) line = Ok palette_path ->
     turn_of pl line
     = (mkPaletteList [mkPaletteObject palette line palette_path],
        ActionDone (Extracted [] None))) /\
  (forall palette e,
     extract_colors line = Ok palette ->
     save_palette config title_getlength subtitle_getlength format_2f enough_memory image_save
                  palette (palette_to_rgb palette) line = Raise e ->
     is_Exception e = true ->
     turn_of pl line = (mkPaletteList [], ActionDone (Extracted [GenerationError line e] None))).
Proof.
  intros Hcmd Hexists Hfile.
  assert (Hread : forall pl0, read_option path_exists path_isfile select_images pl0 line
                              = Proceed "generate" 0 None (ImageSelector.One line)).
  { intros pl0. unfold taken_as_command in Hcmd. cbn [existsb] in Hcmd.
    repeat match goal with
    | H : _ || _ = false |- _ => apply orb_false_iff in H; destruct H
    end.
    assert (Hshow : startswith "/show" line = false)
      by now apply (startswith_longer "/s" "how").
    assert (Hlist : startswith "/list" line = false)
      by now apply (startswith_longer "/l" "ist").
    unfold read_option.
    repeat match goal with
    | H : ?t = false |- _ => rewrite H; clear H
    end.
    cbn [orb]. now rewrite Hexists, Hfile. }
  assert (Hturn : forall pl0,
            turn_of pl0 line
            = (let batch := extract config title_getlength subtitle_getlength format_2f enough_memory
                                    image_save extract_colors [line] in
               (mkPaletteList (batch_palettes (fst batch)),
                ActionDone (Extracted (batch_log (fst batch)) (snd batch))))).
  { intros pl0. unfold turn_of, main_turn. rewrite Hread.
    assert (Hact : ~ In "generate" handled_actions).
    { cbn. intros H. repeat (destruct H as [H|H]; [discriminate H|]). exact H. }
    pose proof (run_action_extraction pl0 "generate" 0 None line Hact) as Hrun.
    unfold run in Hrun. rewrite Hrun. reflexivity. }
  split; [|split; [|split]].
  - intros pl'. now rewrite !Hturn.
  - intros e He. rewrite Hturn. cbv zeta. rewrite extract_one, He. reflexivity.
  - intros palette palette_path He Hs. rewrite Hturn. cbv zeta.
    rewrite extract_one, He, Hs. reflexivity.
  - intros palette e He Hs Hexc. rewrite Hturn. cbv zeta.
    rewrite extract_one, He, Hs, Hexc. reflexivity.
Qed.

End MainTurn.

Lemma slash_s_and_slash_l_lines_are_commands_witness :
  fst (main_turn (default_config "palettes") (fun _ => 0%Q) (fun _ => 0%Q)
                 (fun _ => "0.00") (fun _ _ => true)
                 (save_except "") (extract_except "")
                 (fun _ => true) (fun _ => true)
                 (fun _ _ => ([], ImageSelector.Returns (Some (ImageSelector.One "/home/u/cat.png"))))
                 (sample_palettes 2) "/select")
  = sample_palettes 2.
Proof.
  exact (proj2 (proj2 (slash_s_and_slash_l_lines_are_commands
                         (default_config "palettes") (fun _ => 0%Q) (fun _ => 0%Q)
                         (fun _ => "0.00") (fun _ _ => true)
                         (save_except "") (extract_except "")
                         (fun _ => true) (fun _ => true)
                         (fun _ _ => ([], ImageSelector.Returns
                                            (Some (ImageSelector.One "/home/u/cat.png"))))
                         (sample_palettes 2) "/select" eq_refl))).
Defined.

Lemma show_command_shows_an_existing_palette_witness :
  exists p,
    nth_error (palettes (sample_palettes 3)) 1 = Some p /\
    main_turn (default_config "palettes") (fun _ => 0%Q) (fun _ => 0%Q)
              (fun _ => "0.00") (fun _ _ => true)
              (save_except "") (extract_except "")
              (fun _ => false) (fun _ => false)
              (fun _ _ => ([], ImageSelector.Returns None))
              (sample_palettes 3) "/show 2 -d"
    = (sample_palettes 3, ActionDone (PaletteInfo (Ok p) 2 (Some true))).
Proof.
  destruct (show_command_shows_an_existing_palette
              (default_config "palettes") (fun _ => 0%Q) (fun _ => 0%Q)
              (fun _ => "0.00") (fun _ _ => true)
              (save_except "") (extract_except "")
              (fun _ => false) (fun _ => false)
              (fun _ _ => ([], ImageSelector.Returns None))
              (sample_palettes 3) "/show 2 -d" eq_refl)
    as [[H _]|(i & p & _ & _ & _ & H)].
  - vm_compute in H. discriminate H.
  - exists (mkPaletteObject (mkPalette []) "a.png" "a_palette.png").
    split; reflexivity.
Defined.

Lemma export_command_writes_the_chosen_palette_witness :
  fst (main_turn (default_config "palettes") (fun _ => 0%Q) (fun _ => 0%Q)
                 (fun _ => "0.00") (fun _ _ => true)
                 (save_except "") (extract_except "")
                 (fun _ => false) (fun _ => false)
                 (fun _ _ => ([], ImageSelector.Returns None))
                 (sample_palettes 3) ("/json" ++ " " ++ str_int 2))
  = sample_palettes 3.
Proof.
  rewrite (proj1 (export_command_writes_the_chosen_palette
                    (default_config "palettes") (fun _ => 0%Q) (fun _ => 0%Q)
                    (fun _ => "0.00") (fun _ _ => true)
                    (save_except "") (extract_except "")
                    (fun _ => false) (fun _ => false)
                    (fun _ _ => ([], ImageSelector.Returns None))
                    (sample_palettes 3) "/json" ExportToJSon "json" 2
                    (mkPaletteObject (mkPalette []) "a.png" "a_palette.png")
                    (or_intror (or_introl eq_refl)) ltac:(lia) eq_refl)).
  reflexivity.
Defined.

Lemma longer_export_command_starts_an_extraction_witness :
  main_turn (default_config "palettes") (fun _ => 0%Q) (fun _ => 0%Q)
            (fun _ => "0.00") (fun _ _ => true)
            (save_except "") (extract_except "/csvx")
            (fun _ => false) (fun _ => false)
            (fun _ _ => ([], ImageSelector.Returns None))
            (sample_palettes 3) "/csvx"
  = (mkPaletteList [],
     ActionDone (Extracted [] (Some (OSError "cannot identify image file")))).
Proof.
  apply (proj2 (proj2 (longer_export_command_starts_an_extraction
                         (default_config "palettes") (fun _ => 0%Q) (fun _ => 0%Q)
                         (fun _ => "0.00") (fun _ _ => true)
                         (save_except "") (extract_except "/csvx")
                         (fun _ => false) (fun _ => false)
                         (fun _ _ => ([], ImageSelector.Returns None))
                         (sample_palettes 3) "/csv" "x"
                         (or_introl eq_refl) ltac:(discriminate) eq_refl ltac:(cbn; lia)))).
  reflexivity.
Defined.

Lemma typed_image_path_replaces_the_collection_witness :
  main_turn (default_config "palettes") (fun _ => 0%Q) (fun _ => 0%Q)
            (fun _ => "0.00") (fun _ _ => true)
            (save_except "") (extract_except "")
            (String.eqb "/home/u/cat.png") (String.eqb "/home/u/cat.png")
            (fun _ _ => ([], ImageSelector.Returns None))
            (sample_palettes 0) "/home/u/cat.png"
  = main_turn (default_config "palettes") (fun _ => 0%Q) (fun _ => 0%Q)
              (fun _ => "0.00") (fun _ _ => true)
              (save_except "") (extract_except "")
              (String.eqb "/home/u/cat.png") (String.eqb "/home/u/cat.png")
              (fun _ _ => ([], ImageSelector.Returns None))
              (sample_palettes 2) "/home/u/cat.png".
Proof.
  exact (proj1 (typed_image_path_replaces_the_collection
                  (default_config "palettes") (fun _ => 0%Q) (fun _ => 0%Q)
                  (fun _ => "0.00") (fun _ _ => true)
                  (save_except "") (extract_except "")
                  (String.eqb "/home/u/cat.png") (String.eqb "/home/u/cat.png")
                  (fun _ _ => ([], ImageSelector.Returns None))
                  (sample_palettes 2) "/home/u/cat.png" eq_refl eq_refl eq_refl)
               (sample_palettes 0)).
Defined.
